(** * Pintos virtual memory and system-call gate: a shallow embedding

    The development embeds three translation units of the kernel,

    - [vm/swap.c]   ([swap_init], [swap_write_page], [swap_load_page]),
    - [vm/frame.c]  ([frame_table_init], [frame_alloc], [frame_evict],
                     [frame_free]),
    - [userprog/syscall.c] (the pinning version: [syscall_handler], the
                     [ensure_valid_*] / [unpin_*] helpers and the fifteen
                     [sys_*] handlers),

    as state-passing functions over one record [kernel] holding the global
    kernel state.  A C function [T f (args)] becomes [f args : M T], a
    function from a kernel state to an [outcome]: a normal return, a
    [thread_exit], a power-off, a kernel panic, undefined behaviour, or a
    page fault taken while the kernel touches user memory.

    32-bit quantities ([size_t], [uintptr_t], [uint32_t]) are [Z] with the
    wrap-around of the C arithmetic written out ([wrap32]). *)

From Stdlib Require Import ZArith Lia Bool.
From stdpp Require Import base option list gmap strings.

Open Scope Z_scope.

(** ** Machine constants *)

Definition wrap32 (z : Z) : Z := z mod 2 ^ 32.

(** [(int) x] for a 32-bit [x]. *)
Definition to_int (z : Z) : Z := if z <? 2 ^ 31 then z else z - 2 ^ 32.

(** Modelled from the spec: [threads/vaddr.h] is absent from the sources.  A
    page is "a contiguous PAGE_SIZE region aligned to PAGE_SIZE" and user
    addresses lie below the kernel base; the sizes are those of the x86
    kernel (4 kB pages, kernel mapped at 3 GB). *)
Definition PGBITS : Z := 12.
Definition PGSIZE : Z := 2 ^ PGBITS.
Definition PGMASK : Z := PGSIZE - 1.
Definition PHYS_BASE : Z := 0xc0000000.
Definition NULL : Z := 0.

(** Modelled from the spec: the offset of an address within its page. *)
Definition pg_ofs (va : Z) : Z := Z.land va PGMASK.

(** Modelled from the spec: an address "rounded down to page". *)
Definition pg_round_down (va : Z) : Z := Z.land va (Z.lxor (2 ^ 32 - 1) PGMASK).

(** Modelled from the spec: "lies in user address space". *)
Definition is_user_vaddr (va : Z) : bool := va <? PHYS_BASE.

(** Modelled from the spec: [pg_range_num], the number of pages that
    [length] bytes span, "⌈length/PAGE⌉"; the earlier revision of [sys_mmap]
    spells it [((length - 1) / PGSIZE) + 1]. *)
Definition pg_range_num (length : Z) : Z := wrap32 ((length - 1) / PGSIZE + 1).

(** Modelled from the spec: the sector size of the block layer
    ([devices/block.h]), "page size divided by block sector size gives
    sectors per page". *)
Definition BLOCK_SECTOR_SIZE : Z := 512.

(** [static size_t sectors_per_page = PGSIZE / BLOCK_SECTOR_SIZE;] *)
Definition sectors_per_page : Z := PGSIZE / BLOCK_SECTOR_SIZE.

(** Modelled from the spec: the error value of a bitmap scan
    ([BITMAP_ERROR], the largest [size_t]). *)
Definition BITMAP_ERROR : Z := 2 ^ 32 - 1.

(** Modelled from the spec: "STDIN_FILENO = 0, STDOUT_FILENO = 1". *)
Definition STDIN_FILENO : Z := 0.
Definition STDOUT_FILENO : Z := 1.

(** Modelled from the spec: "MAP_FAILED is the sentinel mapping_id returned
    on mmap failure", [(mapid_t) -1] as it reads once stored in the 32-bit
    register [f->eax]. *)
Definition MAP_FAILED : Z := wrap32 (-1).

(** ** Outcomes of a kernel function *)

Inductive outcome (St A : Type) : Type :=
| Ret (a : A) (s : St)            (* the function returns [a] *)
| Exit (s : St)                   (* [thread_exit ()]: the thread is gone *)
| PowerOff (s : St)               (* [shutdown_power_off ()] *)
| Panic (msg : string)            (* [PANIC] or a failed [ASSERT] *)
| Undefined (why : string)        (* undefined behaviour of the C code *)
| PageFault (addr : Z) (s : St)   (* the kernel touched a non-resident user page *)
| OutOfFuel.                      (* the loop bound of the model was too small *)

Arguments Ret {St A} a s.
Arguments Exit {St A} s.
Arguments PowerOff {St A} s.
Arguments Panic {St A} msg.
Arguments Undefined {St A} why.
Arguments PageFault {St A} addr s.
Arguments OutOfFuel {St A}.

Definition bind {St A B} (c : St -> outcome St A) (k : A -> St -> outcome St B)
  : St -> outcome St B :=
  fun s =>
    match c s with
    | Ret a s' => k a s'
    | Exit s' => Exit s'
    | PowerOff s' => PowerOff s'
    | Panic msg => Panic msg
    | Undefined why => Undefined why
    | PageFault a s' => PageFault a s'
    | OutOfFuel => OutOfFuel
    end.

Definition ret {St A} (a : A) : St -> outcome St A := fun s => Ret a s.

(** What a run returned, and the state it ended in (for a return or an
    exit). *)
Definition result_of {St A} (o : outcome St A) : option A :=
  match o with
  | Ret a _ => Some a
  | _ => None
  end.

Definition state_of {St A} (o : outcome St A) : option St :=
  match o with
  | Ret _ s | Exit s | PowerOff s | PageFault _ s => Some s
  | _ => None
  end.

Definition exited {St A} (o : outcome St A) : bool :=
  match o with
  | Exit _ => true
  | _ => false
  end.

Notation "x <- c ;; k" := (bind c (fun x => k))
  (at level 100, c at next level, right associativity).
Notation "c ;;; k" := (bind c (fun _ => k))
  (at level 100, right associativity).

(** ** Bitmaps *)

(** Modelled from the spec: [lib/kernel/bitmap.c] is absent from the sources;
    the swap manager records the "free/used state" of its slots in a bitmap
    of a fixed number of bits.  A bitmap is the list of its bits.  An index
    at or beyond the bit count lies outside the bitmap: the library asserts
    [idx < b->bit_cnt], which is [None] here. *)
Abbreviation bitmap := (list bool).

Definition bitmap_create (bit_cnt : Z) : bitmap := replicate (Z.to_nat bit_cnt) false.

Definition bitmap_set_all (b : bitmap) (value : bool) : bitmap :=
  replicate (length b) value.

Definition bitmap_test (b : bitmap) (idx : Z) : option bool :=
  if (0 <=? idx) && (idx <? Z.of_nat (length b)) then b !! Z.to_nat idx else None.

Definition bitmap_set (b : bitmap) (idx : Z) (value : bool) : option bitmap :=
  if (0 <=? idx) && (idx <? Z.of_nat (length b))
  then Some (<[Z.to_nat idx := value]> b) else None.

(** First index at or after [idx] whose bit equals [value]. *)
Fixpoint bitmap_scan_from (b : list bool) (idx : Z) (value : bool) : option Z :=
  match b with
  | [] => None
  | x :: rest => if eqb x value then Some idx else bitmap_scan_from rest (idx + 1) value
  end.

(** [bitmap_scan_and_flip (b, 0, 1, value)]: the first bit equal to [value]
    is flipped and its index returned, [BITMAP_ERROR] if there is none. *)
Definition bitmap_scan_and_flip (b : bitmap) (value : bool) : Z * bitmap :=
  match bitmap_scan_from b 0 value with
  | Some idx => (idx, <[Z.to_nat idx := negb value]> b)
  | None => (BITMAP_ERROR, b)
  end.

(** ** Memory and block devices *)

(** Kernel virtual memory, byte by byte; a byte never written reads 0. *)
Definition byte_at (m : gmap Z Z) (a : Z) : Z := default 0 (m !! a).

Fixpoint load_bytes (m : gmap Z Z) (a : Z) (n : nat) : list Z :=
  match n with
  | O => []
  | S k => byte_at m a :: load_bytes m (a + 1) k
  end.

Fixpoint store_bytes (m : gmap Z Z) (a : Z) (bs : list Z) : gmap Z Z :=
  match bs with
  | [] => m
  | b :: rest => store_bytes (<[a := b]> m) (a + 1) rest
  end.

(** [memset (dst, value, size)] *)
Definition memset (m : gmap Z Z) (dst value size : Z) : gmap Z Z :=
  store_bytes m dst (replicate (Z.to_nat size) value).

(** A block device: its size in sectors and the sectors written so far. *)
Record block : Type := mk_block {
  blk_size : Z;
  blk_data : gmap Z (list Z)
}.

Definition block_size (d : block) : Z := blk_size d.

Definition sector_zero : list Z := replicate (Z.to_nat BLOCK_SECTOR_SIZE) 0.

(** [block_write (d, sector, buffer)] copies one sector out of memory. *)
Definition block_write (d : block) (sector : Z) (m : gmap Z Z) (buffer : Z) : block :=
  mk_block (blk_size d)
           (<[sector := load_bytes m buffer (Z.to_nat BLOCK_SECTOR_SIZE)]> (blk_data d)).

(** [block_read (d, sector, buffer)] copies one sector into memory. *)
Definition block_read (d : block) (sector : Z) (m : gmap Z Z) (buffer : Z) : gmap Z Z :=
  store_bytes m buffer (default sector_zero (blk_data d !! sector)).

(** ** Kernel data *)

(** [struct frame] of [vm/frame.c]; [f_t] names the owning thread. *)
Record frame : Type := mk_frame {
  f_kpage : Z;
  f_upage : Z;
  f_t : Z;
  f_pinned : bool
}.

(** Modelled from the spec: the location of a page descriptor, "one of
    {NotPresent, InFrame, InSwap, InFile}"; [frame_evict] names the third
    one [SWAP]. *)
Inductive location : Type := NotPresent | InFrame | SWAP | InFile.

(** Modelled from the spec: the page descriptor [struct supp_pte] of
    [vm/page.h], absent from the sources.  The sources use [loc],
    [swap_slot_index] and [pinned]; the other fields follow the data model
    of the spec. *)
Record supp_pte : Type := mk_supp_pte {
  upage : Z;
  loc : location;
  kpage : Z;
  swap_slot_index : Z;
  file_ref : option Z;
  file_offset : Z;
  file_bytes : Z;
  writable : bool;
  mapping_id : option Z;
  pinned : bool
}.

Definition pte_set_pinned (b : bool) (p : supp_pte) : supp_pte :=
  mk_supp_pte (upage p) (loc p) (kpage p) (swap_slot_index p) (file_ref p)
              (file_offset p) (file_bytes p) (writable p) (mapping_id p) b.

Definition pte_set_swapped (slot : Z) (p : supp_pte) : supp_pte :=
  mk_supp_pte (upage p) SWAP (kpage p) slot (file_ref p)
              (file_offset p) (file_bytes p) (writable p) (mapping_id p) (pinned p).

Definition pte_set_resident (kp : Z) (p : supp_pte) : supp_pte :=
  mk_supp_pte (upage p) InFrame kp (swap_slot_index p) (file_ref p)
              (file_offset p) (file_bytes p) (writable p) (mapping_id p) (pinned p).

(** Modelled from the spec: one entry of the hardware page directory
    ([userprog/pagedir.c], "install/clear/query accessed and dirty bits"). *)
Record pde : Type := mk_pde {
  pd_kpage : Z;
  pd_writable : bool;
  pd_accessed : bool;
  pd_dirty : bool
}.

(** The part of [struct thread] the memory subsystem uses. *)
Record thread : Type := mk_thread {
  pagedir : gmap Z pde;
  supp_pt : gmap Z supp_pte;
  exit_status : Z
}.

Definition thread_set_pagedir (pd : gmap Z pde) (t : thread) : thread :=
  mk_thread pd (supp_pt t) (exit_status t).
Definition thread_set_supp_pt (spt : gmap Z supp_pte) (t : thread) : thread :=
  mk_thread (pagedir t) spt (exit_status t).
Definition thread_set_exit_status (st : Z) (t : thread) : thread :=
  mk_thread (pagedir t) (supp_pt t) st.

Definition empty_thread : thread := mk_thread ∅ ∅ 0.

(** The two fields of [struct intr_frame] the gate uses. *)
Record intr_frame : Type := mk_intr_frame {
  esp : Z;
  eax : Z
}.

(** What the kernel did with its collaborators, in order (a ghost log). *)
Inductive event : Type :=
| EvLockAcquire (tid : Z)
| EvLockRelease (tid : Z)
| EvFileRead (file size got : Z)
| EvFileWrite (file size got : Z)
| EvGetc (c : Z)
| EvPutbuf (bytes : list Z)
| EvCall (callee : string).

(** ** The collaborators of the core

    The file system, the descriptor table, process control, the console and
    the keyboard are outside the three embedded files.  They act on a state
    [W] of their own and are taken as parameters; a view of user memory
    ([Z -> option Z], the byte at a user address if its page is resident) is
    handed to those that read a user string. *)

Record externals (W : Type) : Type := mk_externals {
  (* threads/vaddr.h, vm/page.h *)
  STACK_LIMIT : Z;
  (* userprog/process.c *)
  process_execute : (Z -> option Z) -> Z -> W -> Z * W;
  process_wait : Z -> W -> Z * W;
  (* filesys/filesys.c, userprog/fdtable.c *)
  filesys_create : (Z -> option Z) -> Z -> Z -> W -> bool * W;
  filesys_remove : (Z -> option Z) -> Z -> W -> bool * W;
  fd_table_open : (Z -> option Z) -> Z -> W -> Z * W;
  fd_table_get_file : Z -> W -> option Z;
  fd_table_close : Z -> W -> bool * W;
  (* filesys/file.c *)
  file_length : Z -> W -> Z;
  file_read : Z -> Z -> W -> list Z * W;
  file_write : Z -> list Z -> W -> Z * W;
  file_read_at : Z -> Z -> Z -> W -> list Z * W;
  file_write_at : Z -> list Z -> Z -> W -> W;
  file_seek : Z -> Z -> W -> W;
  file_tell : Z -> W -> Z;
  file_reopen : Z -> W -> option Z * W;
  file_close : Z -> W -> W;
  (* devices/input.c, lib/kernel/console.c *)
  input_getc : W -> Z * W;
  putbuf : list Z -> W -> W
}.

Arguments STACK_LIMIT {W} _.
Arguments process_execute {W} _ _ _ _.
Arguments process_wait {W} _ _ _.
Arguments filesys_create {W} _ _ _ _ _.
Arguments filesys_remove {W} _ _ _ _.
Arguments fd_table_open {W} _ _ _ _.
Arguments fd_table_get_file {W} _ _ _.
Arguments fd_table_close {W} _ _ _.
Arguments file_length {W} _ _ _.
Arguments file_read {W} _ _ _ _.
Arguments file_write {W} _ _ _ _.
Arguments file_read_at {W} _ _ _ _ _.
Arguments file_write_at {W} _ _ _ _ _.
Arguments file_seek {W} _ _ _ _.
Arguments file_tell {W} _ _ _.
Arguments file_reopen {W} _ _ _.
Arguments file_close {W} _ _ _.
Arguments input_getc {W} _ _.
Arguments putbuf {W} _ _ _.

(** ** The kernel state *)

Record kernel (W : Type) : Type := mk_kernel {
  threads : gmap Z thread;      (* every thread, by tid *)
  cur : Z;                      (* thread_current () *)
  ftable : list frame;          (* static struct list ftable *)
  user_pool : list Z;           (* free pages of the user pool *)
  kheap : nat;                  (* how many more malloc () succeed *)
  swap_device : block;
  swap_slots : bitmap;
  num_swap_slots : Z;
  mem : gmap Z Z;               (* kernel virtual memory *)
  filesys_lock : option Z;      (* holder of the file-system lock *)
  tf : intr_frame;              (* the trap frame [f] of the running call *)
  klog : list event;
  world : W
}.

Arguments mk_kernel {W} _ _ _ _ _ _ _ _ _ _ _ _ _.
Arguments threads {W} _.
Arguments cur {W} _.
Arguments ftable {W} _.
Arguments user_pool {W} _.
Arguments kheap {W} _.
Arguments swap_device {W} _.
Arguments swap_slots {W} _.
Arguments num_swap_slots {W} _.
Arguments mem {W} _.
Arguments filesys_lock {W} _.
Arguments tf {W} _.
Arguments klog {W} _.
Arguments world {W} _.

(** ** Text for the console *)

(** The bytes of a text. *)
Definition bytes_of_string (t : string) : list Z :=
  map (fun c => Z.of_nat (Ascii.nat_of_ascii c)) (String.list_ascii_of_string t).

(** The decimal digits of a number that is not negative, most significant
    first, in front of [acc]; an [int] has at most ten. *)
Fixpoint decimal_digits (fuel : nat) (n : Z) (acc : list Z) : list Z :=
  match fuel with
  | O => acc
  | S fuel' =>
    let acc := (48 + n mod 10) :: acc in
    if n / 10 =? 0 then acc else decimal_digits fuel' (n / 10) acc
  end.

(** What the conversion [%d] prints for an [int]. *)
Definition decimal (n : Z) : list Z :=
  if n <? 0 then 45 :: decimal_digits 10 (- n) [] else decimal_digits 10 n [].

(** The line that [printf (text "%d\n", n)] prints; the 32-bit argument is
    read as an [int]. *)
Definition printf_line (text : string) (n : Z) : list Z :=
  bytes_of_string text ++ decimal (to_int n) ++ [10].

Section Kernel.

Context {W : Type}.
Variable E : externals W.

Abbreviation K := (kernel W).
Abbreviation M A := (K -> outcome K A).

Definition set_threads (x : gmap Z thread) (s : K) : K :=
  mk_kernel x (cur s) (ftable s) (user_pool s) (kheap s) (swap_device s)
            (swap_slots s) (num_swap_slots s) (mem s) (filesys_lock s) (tf s)
            (klog s) (world s).
Definition set_ftable (x : list frame) (s : K) : K :=
  mk_kernel (threads s) (cur s) x (user_pool s) (kheap s) (swap_device s)
            (swap_slots s) (num_swap_slots s) (mem s) (filesys_lock s) (tf s)
            (klog s) (world s).
Definition set_user_pool (x : list Z) (s : K) : K :=
  mk_kernel (threads s) (cur s) (ftable s) x (kheap s) (swap_device s)
            (swap_slots s) (num_swap_slots s) (mem s) (filesys_lock s) (tf s)
            (klog s) (world s).
Definition set_kheap (x : nat) (s : K) : K :=
  mk_kernel (threads s) (cur s) (ftable s) (user_pool s) x (swap_device s)
            (swap_slots s) (num_swap_slots s) (mem s) (filesys_lock s) (tf s)
            (klog s) (world s).
Definition set_swap_device (x : block) (s : K) : K :=
  mk_kernel (threads s) (cur s) (ftable s) (user_pool s) (kheap s) x
            (swap_slots s) (num_swap_slots s) (mem s) (filesys_lock s) (tf s)
            (klog s) (world s).
Definition set_swap_slots (x : bitmap) (s : K) : K :=
  mk_kernel (threads s) (cur s) (ftable s) (user_pool s) (kheap s) (swap_device s)
            x (num_swap_slots s) (mem s) (filesys_lock s) (tf s)
            (klog s) (world s).
Definition set_num_swap_slots (x : Z) (s : K) : K :=
  mk_kernel (threads s) (cur s) (ftable s) (user_pool s) (kheap s) (swap_device s)
            (swap_slots s) x (mem s) (filesys_lock s) (tf s)
            (klog s) (world s).
Definition set_mem (x : gmap Z Z) (s : K) : K :=
  mk_kernel (threads s) (cur s) (ftable s) (user_pool s) (kheap s) (swap_device s)
            (swap_slots s) (num_swap_slots s) x (filesys_lock s) (tf s)
            (klog s) (world s).
Definition set_filesys_lock (x : option Z) (s : K) : K :=
  mk_kernel (threads s) (cur s) (ftable s) (user_pool s) (kheap s) (swap_device s)
            (swap_slots s) (num_swap_slots s) (mem s) x (tf s)
            (klog s) (world s).
Definition set_tf (x : intr_frame) (s : K) : K :=
  mk_kernel (threads s) (cur s) (ftable s) (user_pool s) (kheap s) (swap_device s)
            (swap_slots s) (num_swap_slots s) (mem s) (filesys_lock s) x
            (klog s) (world s).
Definition set_klog (x : list event) (s : K) : K :=
  mk_kernel (threads s) (cur s) (ftable s) (user_pool s) (kheap s) (swap_device s)
            (swap_slots s) (num_swap_slots s) (mem s) (filesys_lock s) (tf s)
            x (world s).
Definition set_world (x : W) (s : K) : K :=
  mk_kernel (threads s) (cur s) (ftable s) (user_pool s) (kheap s) (swap_device s)
            (swap_slots s) (num_swap_slots s) (mem s) (filesys_lock s) (tf s)
            (klog s) x.

Definition log (e : event) (s : K) : K := set_klog (klog s ++ [e]) s.

(** Modelled from the spec: the console takes text through [putbuf]
    ("Console: putbuf, input_getc"), and a console write is a point where the
    core meets a collaborator.  [printf] of [lib/stdio.c], which is absent
    from the sources, formats its line and hands it to the console. *)
Definition printf_d (text : string) (n : Z) : M unit := fun s =>
  let line := printf_line text n in
  Ret tt (log (EvPutbuf line) (set_world (putbuf E line (world s)) s)).

(** [f->eax = v] *)
Definition set_eax (v : Z) (s : K) : K := set_tf (mk_intr_frame (esp (tf s)) v) s.

(** The current thread and updates of its fields. *)
Definition thread_current (s : K) : thread := default empty_thread (threads s !! cur s).

Definition set_thread (tid : Z) (t : thread) (s : K) : K :=
  set_threads (<[tid := t]> (threads s)) s.

Definition cur_supp_pt (s : K) : gmap Z supp_pte := supp_pt (thread_current s).

Definition set_cur_supp_pt (spt : gmap Z supp_pte) (s : K) : K :=
  set_thread (cur s) (thread_set_supp_pt spt (thread_current s)) s.

Definition cur_pagedir (s : K) : gmap Z pde := pagedir (thread_current s).

Definition set_cur_pagedir (pd : gmap Z pde) (s : K) : K :=
  set_thread (cur s) (thread_set_pagedir pd (thread_current s)) s.

(** ** Primitives of the collaborating kernel parts *)

(** Modelled from the spec: [palloc_get_page (PAL_USER)] takes a page from
    the user pool, [NULL] when "the kernel user pool is exhausted". *)
Definition palloc_get_page (s : K) : Z * K :=
  match user_pool s with
  | [] => (NULL, s)
  | kp :: rest => (kp, set_user_pool rest s)
  end.

(** Modelled from the spec: [palloc_free_page] "release[s] the frame to the
    kernel pool". *)
Definition palloc_free_page (kp : Z) (s : K) : K := set_user_pool (kp :: user_pool s) s.

(** Modelled from the spec: [malloc] succeeds until the kernel is "out of
    kernel memory"; [kheap] counts the allocations still possible. *)
Definition malloc (s : K) : bool * K :=
  match kheap s with
  | O => (false, s)
  | S n => (true, set_kheap n s)
  end.

(** Modelled from the spec: the accessed bit of a page, false for a page
    that is not mapped. *)
Definition pagedir_is_accessed (pd : gmap Z pde) (up : Z) : bool :=
  match pd !! up with
  | Some e => pd_accessed e
  | None => false
  end.

Definition pagedir_set_accessed (pd : gmap Z pde) (up : Z) (b : bool) : gmap Z pde :=
  match pd !! up with
  | Some e => <[up := mk_pde (pd_kpage e) (pd_writable e) b (pd_dirty e)]> pd
  | None => pd
  end.

(** Modelled from the spec: "the hardware mapping (process, upage) is
    cleared". *)
Definition pagedir_clear_page (pd : gmap Z pde) (up : Z) : gmap Z pde := delete up pd.

(** Modelled from the spec: "install (upage → kpage, writable) in hardware
    page directory". *)
Definition pagedir_set_page (pd : gmap Z pde) (up kp : Z) (w : bool) : gmap Z pde :=
  <[up := mk_pde kp w false false]> pd.

(** Modelled from the spec: the file-system lock, "a single global
    filesystem lock".  Acquiring a lock one holds fails the assertion of
    [lock_acquire]; so does releasing a lock one does not hold. *)
Definition lock_acquire : M unit := fun s =>
  if decide (filesys_lock s = Some (cur s))
  then Panic "lock_acquire: !lock_held_by_current_thread (lock)"
  else Ret tt (log (EvLockAcquire (cur s)) (set_filesys_lock (Some (cur s)) s)).

Definition lock_held_by_current_thread (s : K) : bool :=
  bool_decide (filesys_lock s = Some (cur s)).

Definition lock_release : M unit := fun s =>
  if lock_held_by_current_thread s
  then Ret tt (log (EvLockRelease (cur s)) (set_filesys_lock None s))
  else Panic "lock_release: lock_held_by_current_thread (lock)".

(** ** User memory as the kernel sees it

    A user address is translated by the page directory of the running
    thread; a kernel address is used as it is. *)
Definition translate (s : K) (a : Z) : option Z :=
  if is_user_vaddr a
  then match cur_pagedir s !! pg_round_down a with
       | Some e => Some (pd_kpage e + pg_ofs a)
       | None => None
       end
  else Some a.

Definition user_view (s : K) (a : Z) : option Z :=
  match translate s a with
  | Some ka => Some (byte_at (mem s) ka)
  | None => None
  end.

Definition load_user_byte (a : Z) : M Z := fun s =>
  match translate s a with
  | Some ka => Ret (byte_at (mem s) ka) s
  | None => PageFault a s
  end.

Definition store_user_byte (a : Z) (b : Z) : M unit := fun s =>
  match translate s a with
  | Some ka => Ret tt (set_mem (<[ka := b]> (mem s)) s)
  | None => PageFault a s
  end.

Fixpoint load_user_bytes (a : Z) (n : nat) : M (list Z) :=
  match n with
  | O => ret []
  | S k => b <- load_user_byte a ;;
           rest <- load_user_bytes (wrap32 (a + 1)) k ;;
           ret (b :: rest)
  end.

Fixpoint store_user_bytes (a : Z) (bs : list Z) : M unit :=
  match bs with
  | [] => ret tt
  | b :: rest => store_user_byte a b ;;; store_user_bytes (wrap32 (a + 1)) rest
  end.

(** A [uint32_t] read at user address [a], little endian. *)
Definition load_user_word (a : Z) : M Z :=
  bs <- load_user_bytes a 4 ;;
  ret (foldr (fun b acc => b + 256 * acc) 0 bs).

(** Assertions are compiled in: the kernel is built without [NDEBUG], so
    [ASSERT (e)] evaluates [e] and the [#ifndef NDEBUG] code is present. *)
Definition NDEBUG : bool := false.

(** ** [vm/swap.c]

    [swap_slots_lock] and [ftable_lock] guard data that the sequential model
    touches from one thread only; they are not represented.  The [printf] of
    [swap_write_page] is a write to the console on every call that finds a
    free slot. *)

(** [role] is what [block_get_role (BLOCK_SWAP)] returns; [bitmap_create]
    allocates and so fails when the kernel is out of memory. *)
Definition swap_init (role : option block) : M unit := fun s =>
  match role with
  | None => Panic "No swap device found, can't initialize swap"
  | Some dev =>
    let s1 := set_swap_device dev s in
    let s2 := set_num_swap_slots (block_size dev / sectors_per_page) s1 in
    let '(ok, s3) := malloc s2 in
    if ok
    then let s4 := set_swap_slots (bitmap_create (num_swap_slots s3)) s3 in
         Ret tt (set_swap_slots (bitmap_set_all (swap_slots s4) false) s4)
    else Panic "bitmap creation failed--swap device is too large"
  end.

Definition swap_write_page (page : Z) : M Z := fun s =>
  let '(free_slot_index, slots) := bitmap_scan_and_flip (swap_slots s) false in
  let s1 := set_swap_slots slots s in
  if free_slot_index =? BITMAP_ERROR
  then Panic "swap is full"
  else
    (printf_d "free_slot_index " free_slot_index ;;;
     fun s2 =>
       let dev :=
         foldl (fun d i =>
                  block_write d (wrap32 (free_slot_index * sectors_per_page + i))
                              (mem s2) (page + i * BLOCK_SECTOR_SIZE))
               (swap_device s2) (seqZ 0 sectors_per_page) in
       Ret free_slot_index (set_swap_device dev s2)) s1.

Definition swap_load_page (slot_index page : Z) : M bool := fun s =>
  if slot_index >? num_swap_slots s
  then Ret false s
  else
    match bitmap_test (swap_slots s) slot_index with
    | None => Panic "bitmap_test: idx < b->bit_cnt"
    | Some false => Ret false s
    | Some true =>
      let m :=
        foldl (fun m i =>
                 block_read (swap_device s) (wrap32 (slot_index * sectors_per_page + i))
                            m (page + i * BLOCK_SECTOR_SIZE))
              (mem s) (seqZ 0 sectors_per_page) in
      let s1 := set_mem m s in
      match bitmap_set (swap_slots s1) slot_index false with
      | None => Panic "bitmap_set: idx < b->bit_cnt"
      | Some slots => Ret true (set_swap_slots slots s1)
      end
    end.

(** ** [vm/frame.c] *)

(** Modelled from the spec: [supp_pte_lookup] of [vm/page.c], "returns the
    descriptor whose key equals upage rounded down to page". *)
Definition supp_pte_lookup (spt : gmap Z supp_pte) (up : Z) : option supp_pte :=
  spt !! pg_round_down up.

Definition frame_table_init : M unit := fun s => Ret tt (set_ftable [] s).

(** The [while (evicted_frame == NULL)] loop of [frame_evict]. *)
Fixpoint frame_evict_loop (fuel : nat) : M frame := fun s =>
  match fuel with
  | O => OutOfFuel
  | S fuel' =>
    match ftable s with
    | [] => Panic "list_front: !list_empty (list)"
    | fr :: rest =>
      match threads s !! f_t fr with
      | None => Undefined "frame->t does not point to a thread"
      | Some t =>
        if pagedir_is_accessed (pagedir t) (f_upage fr)
        then
          let pd := pagedir_set_accessed (pagedir t) (f_upage fr) false in
          frame_evict_loop fuel'
            (set_ftable (rest ++ [fr]) (set_thread (f_t fr) (thread_set_pagedir pd t) s))
        else
          let pd := pagedir_clear_page (pagedir t) (f_upage fr) in
          Ret fr (set_ftable rest (set_thread (f_t fr) (thread_set_pagedir pd t) s))
      end
    end
  end.

(** Every frame is passed at most once before a frame with a clear accessed
    bit is at the front: one more iteration than there are frames is
    enough. *)
Definition frame_evict : M frame := fun s =>
  (evicted_frame <- frame_evict_loop (S (length (ftable s))) ;;
   fun s1 =>
     match threads s1 !! f_t evicted_frame with
     | None => Undefined "frame->t does not point to a thread"
     | Some t =>
       match supp_pte_lookup (supp_pt t) (f_upage evicted_frame) with
       | None => Undefined "pte is NULL"
       | Some pte =>
         (slot <- swap_write_page (f_kpage evicted_frame) ;;
          fun s2 =>
            let spt := <[pg_round_down (f_upage evicted_frame) := pte_set_swapped slot pte]>
                         (supp_pt t) in
            let s3 := set_thread (f_t evicted_frame) (thread_set_supp_pt spt t) s2 in
            let m0 := memset (mem s3) (f_kpage evicted_frame) 0 PGSIZE in
            let m1 := if NDEBUG then m0 else memset m0 (f_kpage evicted_frame) 0xcc PGSIZE in
            Ret evicted_frame (set_mem m1 s3)) s1
       end
     end) s.

Definition frame_alloc (up : Z) : M Z := fun s =>
  let register (fr : frame) : M Z := fun s' =>
    let fr' := mk_frame (f_kpage fr) up (cur s') false in
    Ret (f_kpage fr') (set_ftable (ftable s' ++ [fr']) s') in
  let '(kp, s1) := palloc_get_page s in
  if negb (kp =? NULL)
  then
    let '(ok, s2) := malloc s1 in
    if ok
    then register (mk_frame kp 0 0 false) s2
    else Ret NULL s2
  else (fr <- frame_evict ;; register fr) s1.

Definition frame_free (kp : Z) : M unit := fun s => Ret tt (palloc_free_page kp s).

(** ** [vm/page.c], the supplementary page table

    The file is absent from the sources; its functions act on the table of
    the running thread ([&thread_current ()->supp_pt]) and take a descriptor
    by the page that keys it. *)

(** Modelled from the spec: [supp_pt_lookup], "returns the descriptor whose
    key equals upage rounded down to page". *)
Definition supp_pt_lookup (spt : gmap Z supp_pte) (ptr : Z) : option supp_pte :=
  spt !! pg_round_down ptr.

(** Modelled from the spec: [alloc_zero], "install a NotPresent zero-backed
    descriptor; fails if the key is already present". *)
Definition supp_pt_page_alloc_zero (up : Z) (w : bool) : M bool := fun s =>
  match cur_supp_pt s !! pg_round_down up with
  | Some _ => Ret false s
  | None =>
    let pte := mk_supp_pte (pg_round_down up) NotPresent 0 0 None 0 0 w None false in
    Ret true (set_cur_supp_pt (<[pg_round_down up := pte]> (cur_supp_pt s)) s)
  end.

(** Modelled from the spec: [alloc_file], "install a file-backed descriptor;
    fails if the key is already present".  A page of a mapping that was never
    loaded has its contents in the file: mmap "installs one InFile descriptor
    per page", and only an [InFile] descriptor is read from its file on
    demand. *)
Definition supp_pt_page_alloc_file (up file ofs bytes mapid : Z) (w : bool) : M bool :=
  fun s =>
    match cur_supp_pt s !! pg_round_down up with
    | Some _ => Ret false s
    | None =>
      let pte := mk_supp_pte (pg_round_down up) InFile 0 0 (Some file) ofs bytes w
                             (Some mapid) false in
      Ret true (set_cur_supp_pt (<[pg_round_down up := pte]> (cur_supp_pt s)) s)
    end.

(** Modelled from the spec: [grow_stack_if_necessary], "if fault_page is
    within the stack region, above STACK_LIMIT, and either fault_page ≥ esp -
    32 or fault_page ≥ esp, install a NotPresent zero-backed writable
    descriptor for fault_page and return success.  Otherwise return success
    without change if the page is already mapped, or failure if the address is
    not a plausible stack access."  A page that is already mapped is left as
    it is. *)
Definition supp_pt_grow_stack_if_necessary (sp fault_page : Z) : M bool := fun s =>
  match cur_supp_pt s !! fault_page with
  | Some _ => Ret true s
  | None =>
    if is_user_vaddr fault_page && (STACK_LIMIT E <? fault_page)
       && ((sp - 32 <=? fault_page) || (sp <=? fault_page))
    then supp_pt_page_alloc_zero fault_page true s
    else Ret false s
  end.

(** Modelled from the spec: [force_load], the demand-load algorithm.  The
    descriptor is the one keyed [key] in the table of the running thread; it
    is read again after [frame_alloc], which may have evicted a page of the
    same table.  A failed [frame_alloc] or [swap_load_page] makes the load
    fail. *)
Definition supp_pt_force_load (key : Z) : M bool := fun s =>
  match cur_supp_pt s !! key with
  | None => Ret false s
  | Some pte =>
    match loc pte with
    | InFrame => Ret true s
    | l =>
      (kp <- frame_alloc (upage pte) ;;
       if kp =? NULL then ret false else
       ok <- match l with
             | NotPresent => fun s1 => Ret true (set_mem (memset (mem s1) kp 0 PGSIZE) s1)
             | SWAP => swap_load_page (swap_slot_index pte) kp
             | InFile =>
               match file_ref pte with
               | None => fun s1 => Ret true (set_mem (memset (mem s1) kp 0 PGSIZE) s1)
               | Some file =>
                 lock_acquire ;;;
                 (fun s1 =>
                    let '(data, w) :=
                      file_read_at E file (file_bytes pte) (file_offset pte) (world s1) in
                    let m := store_bytes (memset (mem s1) kp 0 PGSIZE) kp
                                         (take (Z.to_nat (file_bytes pte)) data) in
                    Ret tt (set_world w (set_mem m s1))) ;;;
                 lock_release ;;;
                 ret true
               end
             | InFrame => ret true
             end ;;
       if negb ok then ret false else
       fun s2 =>
         let pd := pagedir_set_page (cur_pagedir s2) (upage pte) kp (writable pte) in
         let s3 := set_cur_pagedir pd s2 in
         Ret true (set_cur_supp_pt (alter (pte_set_resident kp) key (cur_supp_pt s3)) s3)) s
    end
  end.

(** Modelled from the spec: [free], "destroy the descriptor": "flush dirty
    file-backed contents, free frame if resident, free swap slot if
    swapped". *)
Definition supp_pt_page_free (up : Z) : M unit := fun s =>
  let key := pg_round_down up in
  match cur_supp_pt s !! key with
  | None => Ret tt s
  | Some pte =>
    (match loc pte with
     | InFrame =>
       let dirty := match cur_pagedir s !! key with
                    | Some e => pd_dirty e
                    | None => false
                    end in
       (match file_ref pte with
        | Some file =>
          if dirty && writable pte
          then lock_acquire ;;;
               (fun s1 =>
                  let data := load_bytes (mem s1) (kpage pte) (Z.to_nat (file_bytes pte)) in
                  Ret tt (set_world (file_write_at E file data (file_offset pte) (world s1)) s1)) ;;;
               lock_release
          else ret tt
        | None => ret tt
        end) ;;;
       (fun s1 => Ret tt (set_cur_pagedir (pagedir_clear_page (cur_pagedir s1) key) s1)) ;;;
       frame_free (kpage pte)
     | SWAP =>
       fun s1 =>
         match bitmap_set (swap_slots s1) (swap_slot_index pte) false with
         | Some slots => Ret tt (set_swap_slots slots s1)
         | None => Panic "bitmap_set: idx < b->bit_cnt"
         end
     | _ => ret tt
     end ;;;
     fun s1 => Ret tt (set_cur_supp_pt (delete key (cur_supp_pt s1)) s1)) s
  end.

(** Modelled from the spec: [munmap], "destroy every descriptor whose
    mapping_id matches; fails if no descriptor has that id". *)
Definition supp_pt_munmap (mapping : Z) : M bool := fun s =>
  let pages :=
    List.filter (fun up => match cur_supp_pt s !! up with
                           | Some pte => bool_decide (mapping_id pte = Some mapping)
                           | None => false
                           end)
                (map fst (map_to_list (cur_supp_pt s))) in
  match pages with
  | [] => Ret false s
  | _ => (foldr (fun up k => supp_pt_page_free up ;;; k) (ret tt) pages ;;; ret true) s
  end.

(** ** [userprog/syscall.c]: helpers *)

(** A page-stepping loop over 32-bit addresses visits each of the [2 ^ 20]
    pages at most once before it repeats itself. *)
Definition page_fuel : nat := Z.to_nat (2 ^ 20 + 1).

(** [2 ^ d] rounds of a loop body that either goes on ([inl]) or leaves the
    loop with a result ([inr]); used for the byte-stepping loops. *)
Fixpoint iterate {X R : Type} (d : nat) (body : X -> M (X + R)) (x : X) : M (X + R) :=
  match d with
  | O => body x
  | S d' =>
    r <- iterate d' body x ;;
    match r with
    | inl x' => iterate d' body x'
    | inr v => ret (inr v)
    end
  end.

Definition while_bytes {X R : Type} (body : X -> M (X + R)) (x : X) : M R :=
  r <- iterate 32 body x ;;
  match r with
  | inr v => ret v
  | inl _ => fun _ => OutOfFuel
  end.

(** [ASSERT (e)] for a call [e] that returns [bool]. *)
Definition ASSERT (e : M bool) (msg : string) : M unit :=
  if NDEBUG then ret tt
  else ok <- e ;; if ok then ret tt else fun _ => Panic msg.

Definition sys_halt {A : Type} : M A := fun s => PowerOff s.

Definition sys_exit {A : Type} (status : Z) : M A := fun s =>
  Exit (set_thread (cur s) (thread_set_exit_status status (thread_current s)) s).

Definition exit_on (condition : bool) : M unit :=
  if condition then sys_exit (-1) else ret tt.

Definition exit_on_file (condition : bool) : M unit := fun s =>
  if negb NDEBUG && negb (lock_held_by_current_thread s)
  then Panic "exit_on_file: lock_held_by_current_thread (&filesys_lock)"
  else if condition
       then (lock_release ;;; exit_on true) s
       else Ret tt s.

Definition set_pinned (key : Z) (b : bool) (s : K) : K :=
  set_cur_supp_pt (alter (pte_set_pinned b) key (cur_supp_pt s)) s.

Definition ensure_valid_ptr (ptr : Z) : M bool := fun s =>
  if (ptr =? NULL) || negb (is_user_vaddr ptr)
  then Ret false s
  else
    (grown <- supp_pt_grow_stack_if_necessary (esp (tf s)) (pg_round_down ptr) ;;
     if negb grown then ret false else
     fun s1 =>
       match supp_pt_lookup (cur_supp_pt s1) ptr with
       | None => Ret false s1
       | Some _ =>
         supp_pt_force_load (pg_round_down ptr) (set_pinned (pg_round_down ptr) true s1)
       end) s.

Definition unpin_ptr (ptr : Z) : M bool := fun s =>
  match supp_pt_lookup (cur_supp_pt s) ptr with
  | None => Ret false s
  | Some _ => Ret true (set_pinned (pg_round_down ptr) false s)
  end.

(** The [while (curr_page < ptr + len)] loop of [unpin_range]; [end_ptr] is
    [ptr + len]. *)
Fixpoint unpin_range_loop (fuel : nat) (end_ptr curr_page : Z) : M bool := fun s =>
  if curr_page <? end_ptr
  then
    match fuel with
    | O => OutOfFuel
    | S fuel' =>
      (ok <- unpin_ptr curr_page ;;
       if negb ok then ret false
       else unpin_range_loop fuel' end_ptr (wrap32 (curr_page + PGSIZE))) s
    end
  else Ret true s.

Definition unpin_range (ptr len : Z) : M bool :=
  if len =? 0 then ret true
  else unpin_range_loop page_fuel (wrap32 (ptr + len)) (pg_round_down ptr).

(** The loop of [ensure_valid_range]. *)
Fixpoint ensure_valid_range_loop (fuel : nat) (ptr len curr_page pos : Z) : M bool :=
  fun s =>
    if curr_page <? wrap32 (ptr + len)
    then
      match fuel with
      | O => OutOfFuel
      | S fuel' =>
        (ok <- ensure_valid_ptr curr_page ;;
         if negb ok
         then ASSERT (unpin_range ptr pos) "unpin_range (ptr, pos)" ;;; ret false
         else ensure_valid_range_loop fuel' ptr len (wrap32 (curr_page + PGSIZE))
                                      (wrap32 (pos + 1))) s
      end
    else Ret true s.

Definition ensure_valid_range (ptr len : Z) : M bool :=
  ensure_valid_range_loop page_fuel ptr len (pg_round_down ptr) 0.

Definition ensure_valid_string (str : Z) : M bool :=
  ok <- ensure_valid_ptr str ;;
  if negb ok then ret false
  else
    let start := str in
    while_bytes
      (fun str =>
         c <- load_user_byte str ;;
         if c =? 0 then ret (inr true)
         else
           let str := wrap32 (str + 1) in
           if pg_round_down str =? str
           then
             ok <- ensure_valid_ptr str ;;
             if negb ok
             then ASSERT (unpin_range start (wrap32 (str - start)))
                         "unpin_range (start, str - start)" ;;;
                  ret (inr false)
             else ret (inl str)
           else ret (inl str))
      str.

Definition unpin_string (str : Z) : M bool :=
  ok <- unpin_ptr str ;;
  if negb ok then ret false
  else
    while_bytes
      (fun str =>
         c <- load_user_byte str ;;
         if c =? 0 then ret (inr true)
         else
           let str := wrap32 (str + 1) in
           if pg_round_down str =? str
           then ok <- unpin_ptr str ;; if negb ok then ret (inr false) else ret (inl str)
           else ret (inl str))
      str.

(** ** [userprog/syscall.c]: the handlers *)

(** Calls into the collaborators, on the state [world] of the kernel. *)
Definition call {A : Type} (f : W -> A * W) : M A := fun s =>
  let '(a, w) := f (world s) in Ret a (set_world w s).

Definition query {A : Type} (f : W -> A) : M A := fun s => Ret (f (world s)) s.

(** A call that the log records by the name of the callee, at the place in
    the order of events where it is made. *)
Definition call_named {A : Type} (callee : string) (f : W -> A * W) : M A := fun s =>
  let '(a, w) := f (world s) in Ret a (log (EvCall callee) (set_world w s)).

(** [f->eax = v] for a 32-bit register. *)
Definition return_value (v : Z) : M unit := fun s => Ret tt (set_eax (wrap32 v) s).

Definition bool_to_Z (b : bool) : Z := if b then 1 else 0.

Definition sys_exec (file : Z) : M unit :=
  ok <- ensure_valid_string file ;;
  exit_on (negb ok) ;;;
  pid <- (fun s => call_named "process_execute" (process_execute E (user_view s) file) s) ;;
  return_value pid ;;;
  unpin_string file ;;;
  ret tt.

Definition sys_wait (pid : Z) : M unit :=
  status <- call (process_wait E pid) ;;
  return_value status.

Definition sys_create (file initial_size : Z) : M unit :=
  ok <- ensure_valid_string file ;;
  exit_on (negb ok) ;;;
  lock_acquire ;;;
  r <- (fun s => call_named "filesys_create" (filesys_create E (user_view s) file initial_size) s) ;;
  return_value (bool_to_Z r) ;;;
  lock_release ;;;
  unpin_string file ;;;
  ret tt.

Definition sys_remove (file : Z) : M unit :=
  ok <- ensure_valid_string file ;;
  exit_on (negb ok) ;;;
  lock_acquire ;;;
  r <- (fun s => call_named "filesys_remove" (filesys_remove E (user_view s) file) s) ;;
  return_value (bool_to_Z r) ;;;
  lock_release ;;;
  unpin_string file ;;;
  ret tt.

Definition sys_open (file : Z) : M unit :=
  ok <- ensure_valid_string file ;;
  exit_on (negb ok) ;;;
  lock_acquire ;;;
  fd <- (fun s => call_named "fd_table_open" (fd_table_open E (user_view s) file) s) ;;
  return_value fd ;;;
  lock_release ;;;
  unpin_string file ;;;
  ret tt.

Definition sys_filesize (fd : Z) : M unit :=
  lock_acquire ;;;
  file <- query (fd_table_get_file E fd) ;;
  exit_on_file (bool_decide (file = None)) ;;;
  len <- query (file_length E (default NULL file)) ;;
  return_value len ;;;
  lock_release.

(** [tmp = file_read (file, buffer, size)]: the bytes the file system
    delivers are stored at [buffer]. *)
Definition do_file_read (file buffer size : Z) : M Z :=
  data <- call (file_read E file size) ;;
  (fun s => Ret tt (log (EvFileRead file size (Z.of_nat (length data))) s)) ;;;
  store_user_bytes buffer data ;;;
  ret (wrap32 (Z.of_nat (length data))).

(** [tmp = file_write (file, buffer, size)]: the bytes at [buffer] are
    handed to the file system. *)
Definition do_file_write (file buffer size : Z) : M Z :=
  data <- load_user_bytes buffer (Z.to_nat size) ;;
  n <- call (file_write E file data) ;;
  (fun s => Ret tt (log (EvFileWrite file size n) s)) ;;;
  ret (wrap32 n).

(** The [for] loop of [sys_read] on [STDIN_FILENO]; [n] iterations are
    left. *)
Fixpoint sys_read_stdin (n : nat) (buffer i : Z) : M unit :=
  match n with
  | O => ret tt
  | S n' =>
    c <- call (input_getc E) ;;
    (fun s => Ret tt (log (EvGetc c) s)) ;;;
    store_user_byte (wrap32 (buffer + i)) c ;;;
    sys_read_stdin n' buffer (i + 1)
  end.

(** The [while (read_bytes < length)] loop of [sys_read]. *)
Fixpoint sys_read_loop (fuel : nat) (file buffer length read_bytes : Z) : M Z := fun s =>
  if read_bytes <? length
  then
    match fuel with
    | O => OutOfFuel
    | S fuel' =>
      (tmp <- do_file_read file (wrap32 (buffer + read_bytes))
                           (wrap32 (length - read_bytes)) ;;
       if tmp =? 0 then ret read_bytes
       else sys_read_loop fuel' file buffer length (wrap32 (read_bytes + tmp))) s
    end
  else Ret read_bytes s.

Definition sys_read (fd buffer length : Z) : M unit :=
  exit_on (fd =? STDOUT_FILENO) ;;;
  ok <- ensure_valid_range buffer length ;;
  exit_on (negb ok) ;;;
  (if fd =? STDIN_FILENO
   then
     sys_read_stdin (Z.to_nat length) buffer 0 ;;;
     return_value length
   else
     lock_acquire ;;;
     file <- query (fd_table_get_file E fd) ;;
     (if bool_decide (file = None)
      then unpin_range buffer length ;;; exit_on_file true
      else ret tt) ;;;
     read_bytes <- sys_read_loop (S (Z.to_nat length)) (default NULL file) buffer length 0 ;;
     lock_release ;;;
     return_value read_bytes) ;;;
  unpin_range buffer length ;;;
  ret tt.

(** The [while (written_bytes < length)] loop of [sys_write]. *)
Fixpoint sys_write_loop (fuel : nat) (file buffer length written_bytes : Z) : M Z :=
  fun s =>
    if written_bytes <? length
    then
      match fuel with
      | O => OutOfFuel
      | S fuel' =>
        (tmp <- do_file_write file (wrap32 (buffer + written_bytes))
                              (wrap32 (length - written_bytes)) ;;
         if tmp =? 0 then ret written_bytes
         else sys_write_loop fuel' file buffer length (wrap32 (written_bytes + tmp))) s
      end
    else Ret written_bytes s.

Definition sys_write (fd buffer length : Z) : M unit :=
  ok <- ensure_valid_range buffer length ;;
  exit_on (negb ok) ;;;
  (if fd =? STDOUT_FILENO
   then
     data <- load_user_bytes buffer (Z.to_nat length) ;;
     (fun s => Ret tt (log (EvPutbuf data) (set_world (putbuf E data (world s)) s))) ;;;
     return_value length
   else
     lock_acquire ;;;
     file <- query (fd_table_get_file E fd) ;;
     (if bool_decide (file = None)
      then unpin_range buffer length ;;; exit_on_file true
      else ret tt) ;;;
     written_bytes <- sys_write_loop (S (Z.to_nat length)) (default NULL file) buffer length 0 ;;
     lock_release ;;;
     return_value written_bytes) ;;;
  unpin_range buffer length ;;;
  ret tt.

Definition sys_seek (fd position : Z) : M unit :=
  lock_acquire ;;;
  file <- query (fd_table_get_file E fd) ;;
  exit_on_file (bool_decide (file = None)) ;;;
  (fun s => Ret tt (set_world (file_seek E (default NULL file) position (world s)) s)) ;;;
  lock_release.

Definition sys_tell (fd : Z) : M unit :=
  lock_acquire ;;;
  file <- query (fd_table_get_file E fd) ;;
  exit_on_file (bool_decide (file = None)) ;;;
  pos <- query (file_tell E (default NULL file)) ;;
  return_value pos ;;;
  lock_release.

Definition sys_close (fd : Z) : M unit :=
  lock_acquire ;;;
  closed <- call (fd_table_close E fd) ;;
  exit_on_file (negb closed) ;;;
  lock_release.

(** The clean-up loop of [sys_mmap]: [while (i > 0)]. *)
Fixpoint sys_mmap_rollback (i : nat) (curr_page : Z) : M unit :=
  match i with
  | O => ret tt
  | S i' =>
    let curr_page := wrap32 (curr_page - PGSIZE) in
    supp_pt_page_free curr_page ;;;
    sys_mmap_rollback i' curr_page
  end.

(** The [for (i = 0; i < num_pages; i++)] loop of [sys_mmap]; [n]
    iterations are left.  The result tells whether every page was
    installed. *)
Fixpoint sys_mmap_loop (n : nat) (file mapid i length curr_page : Z) : M bool :=
  match n with
  | O => ret true
  | S n' =>
    let bytes := if length >? PGSIZE then PGSIZE else length in
    ok <- supp_pt_page_alloc_file curr_page file (wrap32 (i * PGSIZE)) bytes mapid true ;;
    if negb ok
    then
      sys_mmap_rollback (Z.to_nat i) curr_page ;;;
      lock_acquire ;;;
      (fun s => Ret tt (set_world (file_close E file (world s)) s)) ;;;
      lock_release ;;;
      ret false
    else sys_mmap_loop n' file mapid (i + 1) (length - bytes) (wrap32 (curr_page + PGSIZE))
  end.

Definition sys_mmap (fd addr : Z) : M unit :=
  let error := return_value MAP_FAILED in
  file <- query (fd_table_get_file E fd) ;;
  match file with
  | None => error
  | Some file =>
    lock_acquire ;;;
    length <- query (file_length E file) ;;
    lock_release ;;;
    if length <=? 0 then error
    else if (addr =? NULL) || negb (pg_ofs addr =? 0) || negb (is_user_vaddr addr)
    then error
    else
      let num_pages := pg_range_num length in
      if wrap32 (addr + wrap32 (num_pages * PGSIZE)) >? STACK_LIMIT E then error
      else
        lock_acquire ;;;
        file <- call (file_reopen E file) ;;
        lock_release ;;;
        match file with
        | None => error
        | Some file =>
          let mapid := addr in
          ok <- sys_mmap_loop (Z.to_nat num_pages) file mapid 0 length addr ;;
          if ok then return_value mapid else error
        end
  end.

Definition sys_munmap (mapping : Z) : M unit :=
  ok <- supp_pt_munmap mapping ;;
  exit_on (negb ok).

(** ** [userprog/syscall.c]: the dispatcher *)

Definition MAX_ARGS : Z := 3.

(** [static uint8_t syscall_arg_num[]] *)
Definition syscall_arg_num : list Z :=
  [0; 1; 1; 1; 2; 1; 1; 1; 3; 3; 2; 1; 1; 2; 1; 1; 1; 2; 1; 1].

(** Modelled from the spec: the system-call numbers of [lib/syscall-nr.h],
    "fixed integer ids" that index the table of argument counts: the fifteen
    implemented calls in the order the spec lists them, then the five
    file-system directory calls. *)
Definition SYS_HALT : Z := 0.
Definition SYS_EXIT : Z := 1.
Definition SYS_EXEC : Z := 2.
Definition SYS_WAIT : Z := 3.
Definition SYS_CREATE : Z := 4.
Definition SYS_REMOVE : Z := 5.
Definition SYS_OPEN : Z := 6.
Definition SYS_FILESIZE : Z := 7.
Definition SYS_READ : Z := 8.
Definition SYS_WRITE : Z := 9.
Definition SYS_SEEK : Z := 10.
Definition SYS_TELL : Z := 11.
Definition SYS_CLOSE : Z := 12.
Definition SYS_MMAP : Z := 13.
Definition SYS_MUNMAP : Z := 14.
Definition SYS_CHDIR : Z := 15.
Definition SYS_MKDIR : Z := 16.
Definition SYS_READDIR : Z := 17.
Definition SYS_ISDIR : Z := 18.
Definition SYS_INUMBER : Z := 19.

(** The argument-fetching loop of [syscall_handler]: [n] words are left to
    read after [intr_esp].  The words read are returned in order. *)
Fixpoint fetch_args (n : nat) (intr_esp : Z) : M (list Z) :=
  match n with
  | O => ret []
  | S n' =>
    let intr_esp := wrap32 (intr_esp + 4) in
    ok <- ensure_valid_range intr_esp 4 ;;
    exit_on (negb ok) ;;;
    a <- load_user_word intr_esp ;;
    rest <- fetch_args n' intr_esp ;;
    ret (a :: rest)
  end.

(** The final loop of [syscall_handler], [for (i = 0; i <= arg_num; i++)]. *)
Fixpoint unpin_args (n : nat) (intr_esp : Z) : M unit :=
  match n with
  | O => ret tt
  | S n' =>
    unpin_range intr_esp 4 ;;;
    unpin_args n' (wrap32 (intr_esp + 4))
  end.

(** The [switch (syscall_num)]; [arg i] is [args[i]]. *)
Definition dispatch (syscall_num : Z) (args : list Z) : M unit :=
  let arg (i : nat) : Z := nth i args 0 in
  if syscall_num =? SYS_HALT then sys_halt
  else if syscall_num =? SYS_EXIT then sys_exit (to_int (arg 0%nat))
  else if syscall_num =? SYS_EXEC then sys_exec (arg 0%nat)
  else if syscall_num =? SYS_WAIT then sys_wait (to_int (arg 0%nat))
  else if syscall_num =? SYS_CREATE then sys_create (arg 0%nat) (arg 1%nat)
  else if syscall_num =? SYS_REMOVE then sys_remove (arg 0%nat)
  else if syscall_num =? SYS_OPEN then sys_open (arg 0%nat)
  else if syscall_num =? SYS_FILESIZE then sys_filesize (to_int (arg 0%nat))
  else if syscall_num =? SYS_READ
       then sys_read (to_int (arg 0%nat)) (arg 1%nat) (arg 2%nat)
  else if syscall_num =? SYS_WRITE
       then sys_write (to_int (arg 0%nat)) (arg 1%nat) (arg 2%nat)
  else if syscall_num =? SYS_SEEK then sys_seek (to_int (arg 0%nat)) (arg 1%nat)
  else if syscall_num =? SYS_TELL then sys_tell (to_int (arg 0%nat))
  else if syscall_num =? SYS_CLOSE then sys_close (to_int (arg 0%nat))
  else if syscall_num =? SYS_MMAP then sys_mmap (to_int (arg 0%nat)) (arg 1%nat)
  else if syscall_num =? SYS_MUNMAP then sys_munmap (arg 0%nat)
  else exit_on true.

(** [syscall_arg_num[syscall_num]] is read before [syscall_num] is compared
    with anything: a number past the end of the table reads outside the
    array. *)
Definition syscall_handler : M unit := fun s =>
  let intr_esp := esp (tf s) in
  (ok <- ensure_valid_range intr_esp 4 ;;
   exit_on (negb ok) ;;;
   syscall_num <- load_user_word intr_esp ;;
   match syscall_arg_num !! Z.to_nat syscall_num with
   | None => fun _ => Undefined "syscall_arg_num[syscall_num]: index out of bounds"
   | Some arg_num =>
     args <- fetch_args (Z.to_nat arg_num) intr_esp ;;
     dispatch syscall_num args ;;;
     (fun s' => unpin_args (S (Z.to_nat arg_num)) (esp (tf s')) s')
   end) s.

End Kernel.

Arguments set_threads {W} _ _.
Arguments set_ftable {W} _ _.
Arguments set_user_pool {W} _ _.
Arguments set_kheap {W} _ _.
Arguments set_swap_device {W} _ _.
Arguments set_swap_slots {W} _ _.
Arguments set_num_swap_slots {W} _ _.
Arguments set_mem {W} _ _.
Arguments set_filesys_lock {W} _ _.
Arguments set_tf {W} _ _.
Arguments set_klog {W} _ _.
Arguments set_world {W} _ _.

(** ** A small concrete machine

    A file system with files of a given length whose byte at offset [o] is
    [o mod 251], a keyboard with a queue of keys and a console: enough to run
    the kernel functions on concrete states. *)

Record toy_world : Type := mk_toy {
  toy_fds : gmap Z Z;            (* descriptor -> file *)
  toy_len : gmap Z Z;            (* file -> length *)
  toy_pos : gmap Z Z;            (* file -> position *)
  toy_keys : list Z;
  toy_console : list Z
}.

Definition toy_bytes (ofs : Z) (n : Z) : list Z :=
  map (fun o => o mod 251) (seqZ ofs n).

Definition toy_read (file size : Z) (w : toy_world) : list Z * toy_world :=
  let len := default 0 (toy_len w !! file) in
  let pos := default 0 (toy_pos w !! file) in
  let n := Z.max 0 (Z.min size (len - pos)) in
  (toy_bytes pos n,
   mk_toy (toy_fds w) (toy_len w) (<[file := pos + n]> (toy_pos w)) (toy_keys w)
          (toy_console w)).

Definition toy_read_at (file size ofs : Z) (w : toy_world) : list Z * toy_world :=
  let len := default 0 (toy_len w !! file) in
  (toy_bytes ofs (Z.max 0 (Z.min size (len - ofs))), w).

Definition toy_getc (w : toy_world) : Z * toy_world :=
  match toy_keys w with
  | [] => (0, w)
  | k :: rest => (k, mk_toy (toy_fds w) (toy_len w) (toy_pos w) rest (toy_console w))
  end.

Definition toy_putbuf (bs : list Z) (w : toy_world) : toy_world :=
  mk_toy (toy_fds w) (toy_len w) (toy_pos w) (toy_keys w) (toy_console w ++ bs).

Definition toy_close (fd : Z) (w : toy_world) : bool * toy_world :=
  match toy_fds w !! fd with
  | Some _ =>
    (true, mk_toy (delete fd (toy_fds w)) (toy_len w) (toy_pos w) (toy_keys w)
                  (toy_console w))
  | None => (false, w)
  end.

(** The stack may grow down to 8 MB below the kernel base. *)
Definition toy_externals : externals toy_world :=
  mk_externals toy_world
    (PHYS_BASE - 8 * 1024 * 1024)
    (fun _ _ w => (-1, w))
    (fun _ w => (-1, w))
    (fun _ _ _ w => (false, w))
    (fun _ _ w => (false, w))
    (fun _ _ w => (-1, w))
    (fun fd w => toy_fds w !! fd)
    toy_close
    (fun file w => default 0 (toy_len w !! file))
    toy_read
    (fun _ _ w => (0, w))
    toy_read_at
    (fun _ _ _ w => w)
    (fun file pos w =>
       mk_toy (toy_fds w) (toy_len w) (<[file := pos]> (toy_pos w)) (toy_keys w)
              (toy_console w))
    (fun file w => default 0 (toy_pos w !! file))
    (fun file w => (Some file, w))
    (fun _ w => w)
    toy_getc
    toy_putbuf.

(** The same machine with a file system that takes at most 16 bytes in one
    [file_write], at the position of the file, and lets the file grow. *)
Definition toy_write (file : Z) (data : list Z) (w : toy_world) : Z * toy_world :=
  let len := default 0 (toy_len w !! file) in
  let pos := default 0 (toy_pos w !! file) in
  let n := Z.min 16 (Z.of_nat (length data)) in
  (n,
   mk_toy (toy_fds w) (<[file := Z.max len (pos + n)]> (toy_len w))
          (<[file := pos + n]> (toy_pos w)) (toy_keys w) (toy_console w)).

Definition writing_externals : externals toy_world :=
  mk_externals toy_world
    (STACK_LIMIT toy_externals)
    (process_execute toy_externals)
    (process_wait toy_externals)
    (filesys_create toy_externals)
    (filesys_remove toy_externals)
    (fd_table_open toy_externals)
    (fd_table_get_file toy_externals)
    (fd_table_close toy_externals)
    (file_length toy_externals)
    (file_read toy_externals)
    toy_write
    (file_read_at toy_externals)
    (file_write_at toy_externals)
    (file_seek toy_externals)
    (file_tell toy_externals)
    (file_reopen toy_externals)
    (file_close toy_externals)
    (input_getc toy_externals)
    (putbuf toy_externals).

Definition toy_world0 : toy_world :=
  mk_toy {[ 3 := 100 ]} {[ 100 := 10 ]} ∅ [104; 105; 33] [].

(** A resident, clean, writable page descriptor. *)
Definition resident_pte (up kp : Z) : supp_pte :=
  mk_supp_pte up InFrame kp 0 None 0 0 true None false.

(** A boot-time state: no thread but number 1, an empty frame table, a swap
    device of 32 sectors that [swap_init] has not seen yet. *)
Definition boot_state : kernel toy_world :=
  mk_kernel {[ 1 := empty_thread ]} 1 [] [] 8%nat (mk_block 0 ∅) [] 0 ∅ None
            (mk_intr_frame 0xbffffe00 0) [] toy_world0.

(** Two code pages of thread 1 are resident in the only two user frames; the
    swap area has four free slots. *)
Definition code_page : Z := 0x08048000.
Definition frame0 : Z := 0xc0271000.
Definition frame1 : Z := 0xc0272000.

Definition two_page_thread : thread :=
  mk_thread
    {[ code_page := mk_pde frame0 true false false;
       code_page + PGSIZE := mk_pde frame1 true false false ]}
    {[ code_page := resident_pte code_page frame0;
       code_page + PGSIZE := resident_pte (code_page + PGSIZE) frame1 ]}
    0.

Definition two_page_state : kernel toy_world :=
  mk_kernel {[ 1 := two_page_thread ]} 1
            [mk_frame frame0 code_page 1 false; mk_frame frame1 (code_page + PGSIZE) 1 false]
            [] 8%nat (mk_block 32 ∅) (replicate 4 false) 4 ∅ None
            (mk_intr_frame 0xbffffe00 0) [] toy_world0.

(** The page [code_page] of thread 1 sits in the only user frame, whose
    frame-table entry is flagged pinned; the page after it was never loaded;
    the user pool is exhausted. *)
Definition pinned_thread : thread :=
  mk_thread
    {[ code_page := mk_pde frame0 true false false ]}
    {[ code_page := resident_pte code_page frame0;
       code_page + PGSIZE :=
         mk_supp_pte (code_page + PGSIZE) NotPresent 0 0 None 0 0 true None false ]}
    0.

Definition pinned_state : kernel toy_world :=
  mk_kernel {[ 1 := pinned_thread ]} 1
            [mk_frame frame0 code_page 1 true]
            [] 8%nat (mk_block 32 ∅) (replicate 4 false) 4 ∅ None
            (mk_intr_frame 0xbffffe00 0) [] toy_world0.

(** A clean, resident page of a mapping of file 100 is the only frame. *)
Definition mapped_page : Z := 0x10000000.

Definition mapped_pte : supp_pte :=
  mk_supp_pte mapped_page InFrame frame0 0 (Some 100) 0 10 true (Some mapped_page) false.

Definition mapped_state : kernel toy_world :=
  mk_kernel
    {[ 1 := mk_thread {[ mapped_page := mk_pde frame0 true false false ]}
                      {[ mapped_page := mapped_pte ]} 0 ]}
    1 [mk_frame frame0 mapped_page 1 false]
    [] 8%nat (mk_block 32 ∅) (replicate 4 false) 4 ∅ None
    (mk_intr_frame 0xbffffe00 0) [] toy_world0.

(** One free user page, and a kernel heap that is used up. *)
Definition heap_exhausted_state : kernel toy_world :=
  mk_kernel {[ 1 := empty_thread ]} 1 [] [frame0] 0%nat (mk_block 32 ∅)
            (replicate 4 false) 4 ∅ None (mk_intr_frame 0xbffffe00 0) [] toy_world0.

(** The user stack page is resident; the word at [esp] is [num], the word
    after it [arg]. *)
Definition stack_page : Z := 0xbffff000.

Definition syscall_state (num arg : Z) : kernel toy_world :=
  mk_kernel
    {[ 1 := mk_thread {[ stack_page := mk_pde frame0 true false false ]}
                      {[ stack_page := resident_pte stack_page frame0 ]} 0 ]}
    1 [mk_frame frame0 stack_page 1 false]
    [] 8%nat (mk_block 32 ∅) (replicate 4 false) 4
    (store_bytes ∅ (frame0 + 0xe00) [num; 0; 0; 0; arg; 0; 0; 0]) None
    (mk_intr_frame 0xbffffe00 0) [] toy_world0.

(** Descriptor 3 is open on a file of [2 ^ 31 - 1] bytes; nothing is mapped. *)
Definition huge_file_state : kernel toy_world :=
  mk_kernel {[ 1 := empty_thread ]} 1 [] [] 8%nat (mk_block 32 ∅)
            (replicate 4 false) 4 ∅ None (mk_intr_frame 0xbffffe00 0) []
            (mk_toy {[ 3 := 100 ]} {[ 100 := 2 ^ 31 - 1 ]} ∅ [] []).


(** ** Predicates used in the statements *)

(** [idx] is the first free slot of the bitmap [b]. *)
Definition first_free (b : bitmap) (idx : Z) : Prop :=
  0 <= idx /\ b !! Z.to_nat idx = Some false
  /\ forall j : nat, (j < Z.to_nat idx)%nat -> b !! j = Some true.


(** The accessed bit of the page a frame holds, as [frame_evict] reads it. *)
Definition frame_accessed {W : Type} (s : kernel W) (fr : frame) : bool :=
  match threads s !! f_t fr with
  | Some t => pagedir_is_accessed (pagedir t) (f_upage fr)
  | None => false
  end.

(** Every frame of the frame table belongs to a thread whose supplementary
    page table describes the page the frame holds (invariant 3 of the data
    model, as far as eviction relies on it). *)
Definition frames_described {W : Type} (s : kernel W) : Prop :=
  forall fr, fr ∈ ftable s ->
    exists t, threads s !! f_t fr = Some t
              /\ is_Some (supp_pt t !! pg_round_down (f_upage fr)).


(** Every byte of the user buffer [[buf, buf + len)] is resident for the
    running thread, and no two of its bytes share a byte of a frame. *)
Definition buffer_resident {W : Type} (s : kernel W) (buf len : Z) : Prop :=
  (forall i, 0 <= i < len -> is_Some (translate s (buf + i)))
  /\ (forall i j, 0 <= i < len -> 0 <= j < len ->
        translate s (buf + i) = translate s (buf + j) -> i = j).

(** The calls [(size, got)] of a loop that reads "until [len] bytes have been
    read or a read returns zero bytes", [read_bytes] being read already:
    each call asks for what is still missing, only the last one may deliver
    nothing, and without a zero-byte read the loop ends with all [len] bytes
    read. *)
Fixpoint read_chain (len read_bytes : Z) (reads : list (Z * Z)) : Prop :=
  match reads with
  | [] => read_bytes = len
  | (size, got) :: rest =>
    read_bytes < len /\ size = len - read_bytes /\ 0 <= got <= size
    /\ (if got =? 0 then rest = [] else read_chain len (read_bytes + got) rest)
  end.


(** The calls of [file_write] of a loop that writes until all of [bytes] is
    written or a write takes nothing: how many bytes each call takes, in
    order, and the state of the collaborators after the last call.  Each
    call is handed the bytes that are not written yet; a call that takes
    nothing is the last one. *)
Inductive write_run {W : Type} (E : externals W) (file : Z)
  : list Z -> W -> list Z -> W -> Prop :=
| write_run_done (w : W) : write_run E file [] w [] w
| write_run_zero (bytes : list Z) (w w1 : W) :
    bytes <> [] ->
    file_write E file bytes w = (0, w1) ->
    write_run E file bytes w [0] w1
| write_run_more (bytes : list Z) (w w1 w2 : W) (n : Z) (rest : list Z) :
    bytes <> [] ->
    file_write E file bytes w = (n, w1) ->
    n <> 0 ->
    write_run E file (drop (Z.to_nat n) bytes) w1 rest w2 ->
    write_run E file bytes w (n :: rest) w2.

(** [key] is one of the pages that the byte range [[ptr, ptr + len)] touches,
    as the page-stepping loops of the validation visit them: a page-aligned
    address from the page of [ptr] on, below the end of the range. *)
Definition range_page (ptr len key : Z) : Prop :=
  key mod PGSIZE = 0 /\ pg_round_down ptr <= key < ptr + len.

(** A check of [buffer_resident] that can be run. *)
Definition buffer_resident_b {W : Type} (s : kernel W) (buf len : Z) : bool :=
  forallb (fun i => match translate s (buf + i) with Some _ => true | None => false end)
          (seqZ 0 len)
  && forallb (fun i =>
                forallb (fun j =>
                           (i =? j)
                           || negb (bool_decide (translate s (buf + i) = translate s (buf + j))))
                        (seqZ 0 len))
             (seqZ 0 len).

(** [two_page_state] once both of its pages are pinned. *)
Definition two_page_pinned_state : kernel toy_world :=
  set_threads
    {[ 1 := thread_set_supp_pt
              {[ code_page := pte_set_pinned true (resident_pte code_page frame0);
                 code_page + PGSIZE :=
                   pte_set_pinned true (resident_pte (code_page + PGSIZE) frame1) ]}
              two_page_thread ]}
    two_page_state.

(** ** Compositions used in the statements *)

(** [swap_write_page] called for each page of a list in turn; the slots
    returned, in order. *)
Fixpoint swap_write_pages {W : Type} (E : externals W) (pages : list Z)
  : kernel W -> outcome (kernel W) (list Z) :=
  match pages with
  | [] => ret []
  | page :: rest =>
    slot <- swap_write_page E page ;;
    slots <- swap_write_pages E rest ;;
    ret (slot :: slots)
  end.

(** The page a frame holds: the owning thread and the user page. *)
Definition frame_page (fr : frame) : Z * Z := (f_t fr, f_upage fr).

(** [n] rounds of a loop body that goes on ([inl]) or leaves the loop with a
    result ([inr]): what [iterate] runs, counted one by one. *)
Fixpoint rounds {St X R : Type} (n : nat) (body : X -> St -> outcome St (X + R)) (x : X)
  : St -> outcome St (X + R) := fun s =>
  match n with
  | O => Ret (inl x) s
  | S n' =>
    match body x s with
    | Ret (inl x') s' => rounds n' body x' s'
    | o => o
    end
  end.

(** The [n] bytes from [str] on are not 0 and the byte after them is: a C
    string of length [n], as the running thread sees it. *)
Definition c_string {W : Type} (s : kernel W) (str n : Z) : Prop :=
  (forall i, 0 <= i < n -> exists c, user_view s (str + i) = Some c /\ c <> 0)
  /\ user_view s (str + n) = Some 0.

(** ** More states of the concrete machine *)

(** [two_page_state] after the page in [frame0] went to swap, and after the
    page in [frame1] followed it. *)
Definition one_swapped_state : kernel toy_world :=
  default two_page_state (state_of (swap_write_page toy_externals frame0 two_page_state)).

Definition two_swapped_state : kernel toy_world :=
  default one_swapped_state (state_of (swap_write_page toy_externals frame1 one_swapped_state)).

(** [two_page_state] with the accessed bit of the first page set, and with
    the accessed bits of both pages set. *)
Definition first_accessed_state : kernel toy_world :=
  set_thread 1
    (thread_set_pagedir (pagedir_set_accessed (pagedir two_page_thread) code_page true)
                        two_page_thread)
    two_page_state.

Definition all_accessed_state : kernel toy_world :=
  set_thread 1
    (thread_set_pagedir
       (pagedir_set_accessed (pagedir_set_accessed (pagedir two_page_thread) code_page true)
                             (code_page + PGSIZE) true)
       two_page_thread)
    two_page_state.

(** [boot_state] with one free page in the user pool. *)
Definition one_free_page_state : kernel toy_world := set_user_pool [frame0] boot_state.
(** * Properties *)

(** ** Runs on concrete states *)

(** C1 (the code breaks it).  The claim: a frame whose page is pinned is never
    chosen by eviction, in particular not between a successful
    [ensure_valid_range] and the matching [unpin_range].  [frame_evict] never
    reads a pinned flag.  With the pinned frame of [code_page] the only frame
    and the user pool exhausted, [frame_evict] returns that very frame; and
    validating the two pages from [code_page] succeeds while the load of the
    second page swaps the first one out: it ends pinned, in swap, and
    unmapped. *)
Theorem frame_evict_selects_pinned_frame :
  result_of (frame_evict toy_externals pinned_state) = Some (mk_frame frame0 code_page 1 true)
  /\ (let r := ensure_valid_range toy_externals code_page (2 * PGSIZE) pinned_state in
      result_of r = Some true
      /\ (s ← state_of r; p ← cur_supp_pt s !! code_page; Some (pinned p, loc p))
         = Some (true, SWAP)
      /\ (s ← state_of r; Some (cur_pagedir s !! code_page)) = Some None).
Proof. vm_compute. repeat split. Qed.

(** C3 (the code breaks it).  The claim: when validation fails, every page
    pinned so far is unpinned before the process exits with -1.
    [ensure_valid_range] counts the validated pages in [pos] and hands that
    count to [unpin_range] as a length in bytes.  Reading three pages from
    [code_page], of which the third is not mapped, exits with status -1
    while the second page is still pinned: [unpin_range (ptr, 2)] reaches the
    first page only. *)
Theorem failed_validation_leaves_page_pinned :
  let r := sys_read toy_externals STDIN_FILENO code_page (3 * PGSIZE) two_page_state in
  exited r = true
  /\ (s ← state_of r; Some (exit_status (thread_current s))) = Some (-1)
  /\ (s ← state_of r; p ← cur_supp_pt s !! code_page; Some (pinned p)) = Some false
  /\ (s ← state_of r; p ← cur_supp_pt s !! (code_page + PGSIZE); Some (pinned p))
     = Some true.
Proof. vm_compute. repeat split. Qed.

(** C5 (the code breaks it).  The claim: [swap_load_page] returns false if
    and only if the slot index is out of range or the slot is not in use.
    The range test is [slot_index > num_swap_slots]: the index
    [num_swap_slots], one past the last slot, passes it and is looked up in
    the bitmap, outside its bits.  With four slots, slot 4 does not make the
    function return false. *)
Theorem swap_load_page_accepts_slot_count :
  num_swap_slots two_page_state = 4
  /\ length (swap_slots two_page_state) = 4%nat
  /\ swap_load_page 4 frame0 two_page_state = Panic "bitmap_test: idx < b->bit_cnt"
  /\ result_of (swap_load_page 4 frame0 two_page_state) <> Some false.
Proof. vm_compute. repeat split. discriminate. Qed.

(** C6 (the code breaks it).  The claim: [frame_alloc] never returns an
    error; when the kernel is out of memory for frame metadata it panics.
    With a free user page and an exhausted kernel heap [frame_alloc] returns
    [NULL]: no frame is registered, and the page taken from the pool is
    lost. *)
Theorem frame_alloc_returns_NULL :
  let r := frame_alloc toy_externals code_page heap_exhausted_state in
  result_of r = Some NULL
  /\ (s ← state_of r; Some (ftable s, user_pool s)) = Some ([], []).
Proof. vm_compute. repeat split. Qed.

(** C9 (the code breaks it).  The claim: every system-call number that is
    not one of the fifteen implemented ones, also one outside the table of
    argument counts, ends the process with status -1.  The handler reads
    [syscall_arg_num[syscall_num]] before it looks at the number: number 20
    indexes the twenty-entry table out of bounds, and the run is undefined
    from there, while the directory call 15 does exit with -1. *)
Theorem syscall_number_past_table_is_undefined :
  length syscall_arg_num = 20%nat
  /\ syscall_handler toy_externals (syscall_state 20 0)
     = Undefined "syscall_arg_num[syscall_num]: index out of bounds"
  /\ (let r := syscall_handler toy_externals (syscall_state SYS_CHDIR 0) in
      exited r = true
      /\ (s ← state_of r; Some (exit_status (thread_current s))) = Some (-1)).
Proof. vm_compute. repeat split. Qed.

(** C2, counterexample.  A clean page of a file mapping is the victim: its
    descriptor is file-backed, and after the eviction it is in swap slot 0,
    which is now in use, not [InFile]. *)
Lemma file_backed_victim_goes_to_swap :
  file_ref mapped_pte = Some 100
  /\ (let r := frame_evict toy_externals mapped_state in
      result_of r = Some (mk_frame frame0 mapped_page 1 false)
      /\ (s ← state_of r; p ← cur_supp_pt s !! mapped_page;
          Some (loc p, swap_slot_index p)) = Some (SWAP, 0)
      /\ (s ← state_of r; p ← cur_supp_pt s !! mapped_page; Some (loc p))
         <> Some InFile
      /\ (s ← state_of r; Some (swap_slots s)) = Some [true; false; false; false]).
Proof. vm_compute. repeat split. discriminate. Qed.

(** C10, counterexample.  A pointer one byte into a page that is not mapped:
    [ensure_valid_range] with length 0 validates that page and returns
    false. *)
Lemma ensure_valid_range_zero_length_fails :
  ensure_valid_range toy_externals (code_page + 2 * PGSIZE + 1) 0 two_page_state
  = Ret false two_page_state.
Proof. vm_compute. reflexivity. Qed.

(** ** The swap manager *)

Lemma bitmap_scan_from_Some (b : list bool) (i : Z) (v : bool) (idx : Z) :
  bitmap_scan_from b i v = Some idx ->
  exists n : nat, idx = i + Z.of_nat n /\ b !! n = Some v
                  /\ forall j : nat, (j < n)%nat -> b !! j = Some (negb v).
Proof.
  revert i. induction b as [|x rest IH]; intros i H; simpl in H; [discriminate|].
  destruct (eqb x v) eqn:Hx.
  - injection H as <-. exists 0%nat. apply eqb_prop in Hx. subst x.
    split; [lia|]. split; [reflexivity|]. intros j Hj. lia.
  - apply IH in H as (n & -> & Hn & Hlt). exists (S n).
    split; [lia|]. split; [exact Hn|].
    intros [|j] Hj; simpl.
    + f_equal. destruct x, v; simpl in *; congruence.
    + apply Hlt. lia.
Qed.

Lemma bitmap_scan_from_None (b : list bool) (i : Z) (v : bool) :
  bitmap_scan_from b i v = None <-> forall j : nat, b !! j <> Some v.
Proof.
  revert i. induction b as [|x rest IH]; intros i; simpl.
  - split; [intros _ j; rewrite lookup_nil; discriminate | reflexivity].
  - destruct (eqb x v) eqn:Hx.
    + apply eqb_prop in Hx. subst x. split; [discriminate|].
      intros H. exfalso. apply (H 0%nat). reflexivity.
    + rewrite IH. split.
      * intros H [|j]; simpl; [|apply H].
        intros [= ->]. rewrite eqb_reflx in Hx. discriminate.
      * intros H j. apply (H (S j)).
Qed.

Lemma foldl_block_write_size (m : gmap Z Z) (f g : Z -> Z) (l : list Z) (d : block) :
  blk_size (foldl (fun d i => block_write d (f i) m (g i)) d l) = blk_size d.
Proof. revert d. induction l as [|i l IH]; intros d; simpl; [reflexivity|]. rewrite IH. reflexivity. Qed.

Lemma foldl_block_write_other (m : gmap Z Z) (f g : Z -> Z) (l : list Z) (d : block) (x : Z) :
  (forall i, i ∈ l -> f i <> x) ->
  blk_data (foldl (fun d i => block_write d (f i) m (g i)) d l) !! x = blk_data d !! x.
Proof.
  revert d. induction l as [|i l IH]; intros d H; simpl; [reflexivity|].
  rewrite IH.
  - simpl. apply lookup_insert_ne. apply H. left.
  - intros j Hj. apply H. right. exact Hj.
Qed.

Lemma foldl_block_write_at (m : gmap Z Z) (f g : Z -> Z) (l : list Z) (d : block) (i : Z) :
  NoDup l -> (forall a b, a ∈ l -> b ∈ l -> f a = f b -> a = b) -> i ∈ l ->
  blk_data (foldl (fun d i => block_write d (f i) m (g i)) d l) !! f i
  = Some (load_bytes m (g i) (Z.to_nat BLOCK_SECTOR_SIZE)).
Proof.
  revert d. induction l as [|j l IH]; intros d Hnd Hinj Hi; [inversion Hi|].
  simpl. apply NoDup_cons in Hnd as [Hj Hnd].
  apply elem_of_cons in Hi as [->|Hi].
  - rewrite foldl_block_write_other.
    + simpl. apply lookup_insert_eq.
    + intros a Ha Heq. apply Hj. rewrite (Hinj j a); [exact Ha|left|right; exact Ha|congruence].
  - apply IH; [exact Hnd| |exact Hi].
    intros a b Ha Hb. apply Hinj; right; assumption.
Qed.

Lemma bitmap_scan_first_free (b : bitmap) (idx : Z) :
  first_free b idx -> bitmap_scan_from b 0 false = Some idx.
Proof.
  intros (H0 & Hidx & Hlt).
  destruct (bitmap_scan_from b 0 false) as [i|] eqn:Hs.
  - apply bitmap_scan_from_Some in Hs as (n & -> & Hn & Hbefore). f_equal.
    destruct (Nat.lt_trichotomy n (Z.to_nat idx)) as [Hc|[Hc|Hc]].
    + rewrite (Hlt n Hc) in Hn. discriminate.
    + lia.
    + rewrite (Hbefore _ Hc) in Hidx. discriminate.
  - exfalso. rewrite bitmap_scan_from_None in Hs. exact (Hs _ Hidx).
Qed.

Lemma sectors_per_page_eq : sectors_per_page = 8.
Proof. reflexivity. Qed.

Section SwapFacts.
Context {W : Type} (E : externals W).

Lemma swap_init_ok (dev : block) (s0 : kernel W) :
  kheap s0 <> 0%nat ->
  exists s1, swap_init (Some dev) s0 = Ret tt s1
    /\ num_swap_slots s1 = block_size dev / sectors_per_page
    /\ swap_slots s1 = replicate (Z.to_nat (block_size dev / sectors_per_page)) false.
Proof.
  intros Hheap. unfold swap_init, malloc. simpl.
  destruct (kheap s0) as [|n] eqn:Hk; [congruence|]. simpl.
  eexists. split; [reflexivity|]. simpl. split; [reflexivity|].
  unfold bitmap_set_all, bitmap_create. rewrite length_replicate. reflexivity.
Qed.

Lemma swap_write_page_first_free (s : kernel W) (page idx : Z) :
  Z.of_nat (length (swap_slots s)) * sectors_per_page <= 2 ^ 32 ->
  first_free (swap_slots s) idx ->
  exists s', swap_write_page E page s = Ret idx s'
    /\ swap_slots s' = <[Z.to_nat idx := true]> (swap_slots s)
    /\ (forall k, 0 <= k < sectors_per_page ->
          blk_data (swap_device s') !! (idx * sectors_per_page + k)
          = Some (load_bytes (mem s) (page + k * BLOCK_SECTOR_SIZE)
                             (Z.to_nat BLOCK_SECTOR_SIZE)))
    /\ (forall x, ~ (idx * sectors_per_page <= x < (idx + 1) * sectors_per_page) ->
          blk_data (swap_device s') !! x = blk_data (swap_device s) !! x)
    /\ threads s' = threads s /\ ftable s' = ftable s /\ mem s' = mem s
    /\ world s' = putbuf E (printf_line "free_slot_index " idx) (world s)
    /\ klog s' = klog s ++ [EvPutbuf (printf_line "free_slot_index " idx)]
    /\ cur s' = cur s.
Proof.
  intros Hsize Hff. pose proof Hff as (H0 & Hidx & _).
  apply bitmap_scan_first_free in Hff.
  assert (Hlen : idx < Z.of_nat (length (swap_slots s))).
  { apply lookup_lt_Some in Hidx. lia. }
  rewrite sectors_per_page_eq in Hsize.
  unfold swap_write_page, bitmap_scan_and_flip. rewrite Hff. simpl negb.
  assert (Herr : (idx =? BITMAP_ERROR) = false).
  { apply Z.eqb_neq. unfold BITMAP_ERROR. lia. }
  cbv zeta. rewrite Herr. unfold bind, printf_d. eexists. split; [reflexivity|].
  unfold log, set_klog, set_world, set_swap_device, set_swap_slots.
  cbn [swap_slots swap_device mem threads ftable world klog cur].
  split; [reflexivity|].
  set (f := fun i => wrap32 (idx * sectors_per_page + i)).
  set (g := fun i => page + i * BLOCK_SECTOR_SIZE).
  assert (Hf : forall i, 0 <= i < 8 -> f i = idx * sectors_per_page + i).
  { intros i Hi. unfold f, wrap32. rewrite sectors_per_page_eq.
    apply Z.mod_small. lia. }
  split; [|split; [|repeat split]].
  - intros k Hk. rewrite sectors_per_page_eq in Hk.
    rewrite <- (Hf k Hk).
    apply (foldl_block_write_at (mem s) f g).
    + apply NoDup_seqZ.
    + intros a b Ha Hb. apply elem_of_seqZ in Ha, Hb.
      rewrite sectors_per_page_eq in Ha, Hb.
      rewrite (Hf a), (Hf b) by lia. lia.
    + apply elem_of_seqZ. rewrite sectors_per_page_eq. lia.
  - intros x Hx. apply (foldl_block_write_other (mem s) f g).
    intros i Hi. apply elem_of_seqZ in Hi. rewrite sectors_per_page_eq in Hi.
    rewrite (Hf i) by lia. rewrite sectors_per_page_eq in *. lia.
Qed.

Lemma swap_write_page_full (s : kernel W) (page : Z) :
  (forall j : nat, swap_slots s !! j <> Some false) ->
  swap_write_page E page s = Panic "swap is full".
Proof.
  intros Hfull. apply bitmap_scan_from_None with (i := 0) in Hfull.
  unfold swap_write_page, bitmap_scan_and_flip. rewrite Hfull. reflexivity.
Qed.

(** C8.  [swap_init] fixes the number of slots to
    [block_size (swap_device) / sectors_per_page], all of them free.
    [swap_write_page] takes the first free slot of the bitmap, marks it used,
    writes the [sectors_per_page] sectors of the page, sector [k] of the page
    to device sector [slot * sectors_per_page + k], leaves the other sectors
    alone and returns the slot; with no free slot it panics.  ([kheap s0] not
    zero: the bitmap can be allocated; the bound on the bitmap: its sectors
    have 32-bit numbers, as after [swap_init].) *)
Theorem swap_init_and_write_page (dev : block) (s0 s : kernel W) (page : Z) :
  kheap s0 <> 0%nat ->
  Z.of_nat (length (swap_slots s)) * sectors_per_page <= 2 ^ 32 ->
  (exists s1, swap_init (Some dev) s0 = Ret tt s1
      /\ num_swap_slots s1 = block_size dev / sectors_per_page
      /\ swap_slots s1 = replicate (Z.to_nat (block_size dev / sectors_per_page)) false)
  /\ (forall idx, first_free (swap_slots s) idx ->
        exists s', swap_write_page E page s = Ret idx s'
          /\ swap_slots s' = <[Z.to_nat idx := true]> (swap_slots s)
          /\ (forall k, 0 <= k < sectors_per_page ->
                blk_data (swap_device s') !! (idx * sectors_per_page + k)
                = Some (load_bytes (mem s) (page + k * BLOCK_SECTOR_SIZE)
                                   (Z.to_nat BLOCK_SECTOR_SIZE)))
          /\ (forall x, ~ (idx * sectors_per_page <= x < (idx + 1) * sectors_per_page) ->
                blk_data (swap_device s') !! x = blk_data (swap_device s) !! x))
  /\ ((forall j : nat, swap_slots s !! j <> Some false) ->
      swap_write_page E page s = Panic "swap is full").
Proof.
  intros Hheap Hsize. split; [|split].
  - apply swap_init_ok. exact Hheap.
  - intros idx Hff.
    destruct (swap_write_page_first_free s page idx Hsize Hff)
      as (s' & Hw & Hslots & Hdata & Hother & _).
    exists s'. repeat split; assumption.
  - apply swap_write_page_full.
Qed.
End SwapFacts.

(** ** Validation of an empty range *)

Lemma pg_ofs_mod (va : Z) : pg_ofs va = va mod PGSIZE.
Proof.
  unfold pg_ofs, PGMASK, PGSIZE, PGBITS.
  change (2 ^ 12 - 1) with (Z.ones 12). apply Z.land_ones. lia.
Qed.

Lemma pg_round_down_spec (va : Z) :
  0 <= va < 2 ^ 32 -> pg_round_down va = va - va mod PGSIZE.
Proof.
  intros Hva. unfold pg_round_down, PGMASK, PGSIZE, PGBITS.
  change (Z.lxor (2 ^ 32 - 1) (2 ^ 12 - 1)) with (Z.ldiff (Z.ones 32) (Z.ones 12)).
  assert (H : Z.land va (Z.ldiff (Z.ones 32) (Z.ones 12))
              = Z.ldiff (Z.land va (Z.ones 32)) (Z.ones 12)).
  { apply Z.bits_inj'. intros n Hn.
    rewrite Z.land_spec, !Z.ldiff_spec, Z.land_spec. apply andb_assoc. }
  rewrite H, Z.land_ones by lia. rewrite (Z.mod_small va) by lia.
  rewrite Z.ldiff_ones_r by lia.
  rewrite Z.shiftr_div_pow2, Z.shiftl_mul_pow2 by lia.
  pose proof (Z.div_mod va (2 ^ 12)). lia.
Qed.

Lemma PGSIZE_eq : PGSIZE = 4096.
Proof. reflexivity. Qed.

Lemma pg_round_down_aligned (va : Z) :
  0 <= va < 2 ^ 32 -> pg_ofs va = 0 -> pg_round_down va = va.
Proof.
  intros Hva Hofs. rewrite pg_round_down_spec by exact Hva.
  rewrite pg_ofs_mod in Hofs. lia.
Qed.

Lemma pg_round_down_bounds (va : Z) :
  0 <= va < 2 ^ 32 ->
  0 <= pg_round_down va <= va /\ va < pg_round_down va + PGSIZE
  /\ pg_round_down va mod PGSIZE = 0.
Proof.
  intros Hva. rewrite pg_round_down_spec by exact Hva. rewrite PGSIZE_eq.
  pose proof (Z.mod_pos_bound va 4096). pose proof (Z.div_mod va 4096).
  split; [lia|]. split; [lia|].
  replace (va - va mod 4096) with (va / 4096 * 4096) by lia. apply Z.mod_mul. lia.
Qed.

Lemma page_fuel_S : page_fuel = S (Z.to_nat (2 ^ 20)).
Proof. unfold page_fuel. rewrite <- Z2Nat.inj_succ by lia. reflexivity. Qed.

Section ZeroLengthFacts.
Context {W : Type} (E : externals W).

Lemma ensure_valid_ptr_true_user (ptr : Z) (s s' : kernel W) :
  ensure_valid_ptr E ptr s = Ret true s' -> ptr <> NULL /\ ptr < PHYS_BASE.
Proof.
  unfold ensure_valid_ptr. destruct (ptr =? NULL) eqn:Hn; simpl; [discriminate|].
  unfold is_user_vaddr. destruct (ptr <? PHYS_BASE) eqn:Hu; simpl; [|discriminate].
  intros _. split; lia.
Qed.

Lemma ensure_valid_range_loop_aligned_zero (fuel : nat) (p pos : Z) (s : kernel W) :
  0 <= p < 2 ^ 32 -> ensure_valid_range_loop E fuel p 0 p pos s = Ret true s.
Proof.
  intros Hp.
  assert (Hc : (p <? wrap32 (p + 0)) = false).
  { rewrite Z.add_0_r. unfold wrap32. rewrite Z.mod_small by exact Hp. apply Z.ltb_irrefl. }
  destruct fuel; cbn [ensure_valid_range_loop]; rewrite Hc; reflexivity.
Qed.

Lemma ensure_valid_range_aligned_zero (p : Z) (s : kernel W) :
  0 <= p < 2 ^ 32 -> pg_ofs p = 0 -> ensure_valid_range E p 0 s = Ret true s.
Proof.
  intros Hp Hofs. unfold ensure_valid_range.
  rewrite pg_round_down_aligned by assumption.
  apply ensure_valid_range_loop_aligned_zero. exact Hp.
Qed.

Lemma ensure_valid_range_loop_unaligned_zero (fuel : nat) (p : Z) (s : kernel W) :
  0 <= p < 2 ^ 32 -> pg_ofs p <> 0 ->
  ensure_valid_range_loop E (S fuel) p 0 (pg_round_down p) 0 s
  = ensure_valid_ptr E (pg_round_down p) s.
Proof.
  intros Hp Hofs. cbn [ensure_valid_range_loop].
  pose proof (pg_round_down_bounds p Hp) as (Hlo & Hhi & Hal).
  rewrite pg_ofs_mod in Hofs. rewrite pg_round_down_spec in * by exact Hp.
  pose proof (Z.mod_pos_bound p PGSIZE) as Hr.
  set (r := p mod PGSIZE) in *. rewrite PGSIZE_eq in *.
  assert (Hend : wrap32 (p + 0) = p).
  { rewrite Z.add_0_r. unfold wrap32. apply Z.mod_small. exact Hp. }
  rewrite Hend.
  assert (Hlt : (p - r <? p) = true) by (apply Z.ltb_lt; lia).
  rewrite Hlt. unfold bind.
  destruct (ensure_valid_ptr E (p - r) s) as [[|] s'| | | | | |] eqn:Hv;
    try reflexivity.
  apply ensure_valid_ptr_true_user in Hv as [_ Hu].
  cbn [negb].
  assert (Hge : (wrap32 (p - r + 4096) <? p) = false).
  { unfold wrap32. unfold PHYS_BASE in Hu. rewrite Z.mod_small by lia.
    apply Z.ltb_ge. lia. }
  destruct fuel; cbn [ensure_valid_range_loop]; rewrite Hend, Hge; reflexivity.
Qed.

Lemma ensure_valid_range_unaligned_zero (p : Z) (s : kernel W) :
  0 <= p < 2 ^ 32 -> pg_ofs p <> 0 ->
  ensure_valid_range E p 0 s = ensure_valid_ptr E (pg_round_down p) s.
Proof.
  intros Hp Hofs. unfold ensure_valid_range. rewrite page_fuel_S.
  apply ensure_valid_range_loop_unaligned_zero; assumption.
Qed.

Lemma lock_acquire_free (s : kernel W) :
  filesys_lock s <> Some (cur s) ->
  lock_acquire s = Ret tt (log (EvLockAcquire (cur s)) (set_filesys_lock (Some (cur s)) s)).
Proof.
  intros H. unfold lock_acquire.
  destruct (decide (filesys_lock s = Some (cur s))); [contradiction|reflexivity].
Qed.

Lemma lock_release_held (s : kernel W) :
  filesys_lock s = Some (cur s) ->
  lock_release s = Ret tt (log (EvLockRelease (cur s)) (set_filesys_lock None s)).
Proof.
  intros H. unfold lock_release, lock_held_by_current_thread.
  rewrite bool_decide_eq_true_2 by exact H. reflexivity.
Qed.

(** C10 (amended).  For a page-aligned pointer [p], [ensure_valid_range]
    with length 0 returns true and leaves the state as it is: no page is
    validated or pinned.  So a read of length 0 from [STDIN_FILENO] or from an
    open file, and a write of length 0 to [STDOUT_FILENO] or to an open file,
    into such a buffer return 0 whatever is mapped at [p], and leave every
    page table as it was.  For a pointer that is not page-aligned the call is
    the validation of the one page that contains [p] ([ensure_valid_ptr]): it
    pins that page and returns what that validation returns. *)
Theorem zero_length_validation (s : kernel W) (p : Z) :
  0 <= p < 2 ^ 32 ->
  (pg_ofs p = 0 ->
     ensure_valid_range E p 0 s = Ret true s
     /\ sys_read E STDIN_FILENO p 0 s = Ret tt (set_eax 0 s)
     /\ (exists s', sys_write E STDOUT_FILENO p 0 s = Ret tt s'
           /\ eax (tf s') = 0 /\ threads s' = threads s)
     /\ (forall fd file,
           fd <> STDIN_FILENO -> fd <> STDOUT_FILENO ->
           fd_table_get_file E fd (world s) = Some file ->
           filesys_lock s <> Some (cur s) ->
           (exists s', sys_read E fd p 0 s = Ret tt s'
              /\ eax (tf s') = 0 /\ threads s' = threads s)
           /\ (exists s', sys_write E fd p 0 s = Ret tt s'
                 /\ eax (tf s') = 0 /\ threads s' = threads s)))
  /\ (pg_ofs p <> 0 ->
        ensure_valid_range E p 0 s = ensure_valid_ptr E (pg_round_down p) s).
Proof.
  intros Hp. split.
  - intros Hofs.
    pose proof (ensure_valid_range_aligned_zero p) as Hv.
    split; [apply Hv; assumption|]. split; [|split].
    + unfold sys_read, bind. cbn [Z.eqb STDIN_FILENO STDOUT_FILENO exit_on ret].
      rewrite Hv by assumption. reflexivity.
    + unfold sys_write, bind. rewrite Hv by assumption.
      cbn. eexists. split; [reflexivity|]. split; reflexivity.
    + intros fd file Hin Hout Hfile Hlock.
      assert (Hin' : (fd =? STDIN_FILENO) = false) by (apply Z.eqb_neq; exact Hin).
      assert (Hout' : (fd =? STDOUT_FILENO) = false) by (apply Z.eqb_neq; exact Hout).
      split.
      * unfold sys_read, bind. rewrite Hout'. cbn [exit_on ret].
        rewrite Hv by assumption. cbn [negb exit_on ret]. rewrite Hin'.
        rewrite lock_acquire_free by exact Hlock.
        unfold query. cbn [world log set_klog set_filesys_lock]. rewrite Hfile.
        cbn -[lock_release]. rewrite lock_release_held by reflexivity.
        cbn. eexists. split; [reflexivity|]. split; reflexivity.
      * unfold sys_write, bind. rewrite Hv by assumption. cbn [negb exit_on ret].
        rewrite Hout'.
        rewrite lock_acquire_free by exact Hlock.
        unfold query. cbn [world log set_klog set_filesys_lock]. rewrite Hfile.
        cbn -[lock_release]. rewrite lock_release_held by reflexivity.
        cbn. eexists. split; [reflexivity|]. split; reflexivity.
  - apply ensure_valid_range_unaligned_zero. exact Hp.
Qed.
End ZeroLengthFacts.


(** ** Eviction *)

Lemma filter_length_mono {A : Type} (f g : A -> bool) (l : list A) :
  (forall x, f x = true -> g x = true) ->
  (length (List.filter f l) <= length (List.filter g l))%nat.
Proof.
  intros Hfg. induction l as [|x l IH]; simpl; [lia|].
  destruct (f x) eqn:Hf.
  - rewrite (Hfg x Hf). simpl. lia.
  - destruct (g x); simpl; lia.
Qed.

Section FrameFacts.
Context {W : Type} (E : externals W).

Lemma pagedir_cleared_accessed (pd : gmap Z pde) (up up' : Z) :
  pagedir_is_accessed (pagedir_set_accessed pd up false) up'
  = if decide (up = up') then false else pagedir_is_accessed pd up'.
Proof.
  unfold pagedir_is_accessed, pagedir_set_accessed.
  destruct (pd !! up) as [e|] eqn:He.
  - destruct (decide (up = up')) as [<-|Hne].
    + rewrite lookup_insert_eq. reflexivity.
    + rewrite lookup_insert_ne by exact Hne. reflexivity.
  - destruct (decide (up = up')) as [<-|Hne]; [rewrite He|]; reflexivity.
Qed.

(** The state after the clock hand passed an accessed frame. *)
Lemma frame_accessed_after_pass (s : kernel W) (fr g : frame) (t : thread) (l : list frame) :
  threads s !! f_t fr = Some t ->
  frame_accessed
    (set_ftable l
       (set_thread (f_t fr)
          (thread_set_pagedir (pagedir_set_accessed (pagedir t) (f_upage fr) false) t) s)) g
  = if decide (f_t fr = f_t g /\ f_upage fr = f_upage g) then false
    else frame_accessed s g.
Proof.
  intros Ht. unfold frame_accessed, set_thread, set_ftable, set_threads. cbn [threads].
  destruct (decide (f_t fr = f_t g)) as [Heq|Hne].
  - rewrite <- Heq, lookup_insert_eq, Ht. cbn [pagedir thread_set_pagedir].
    rewrite pagedir_cleared_accessed.
    destruct (decide (f_upage fr = f_upage g)) as [Hu|Hu].
    + rewrite decide_True by (split; [reflexivity|exact Hu]). reflexivity.
    + rewrite decide_False by (intros [_ ?]; contradiction). reflexivity.
  - rewrite lookup_insert_ne by exact Hne.
    rewrite decide_False by (intros [? _]; contradiction). reflexivity.
Qed.

Lemma frame_evict_loop_total (fuel : nat) (s : kernel W) :
  ftable s <> [] ->
  frames_described s ->
  (length (List.filter (frame_accessed s) (ftable s)) < fuel)%nat ->
  exists fr s1,
    frame_evict_loop fuel s = Ret fr s1
    /\ fr ∈ ftable s
    /\ (forall tid, supp_pt <$> threads s1 !! tid = supp_pt <$> threads s !! tid)
    /\ swap_slots s1 = swap_slots s /\ swap_device s1 = swap_device s
    /\ mem s1 = mem s /\ world s1 = world s /\ klog s1 = klog s.
Proof.
  revert s. induction fuel as [|fuel IH]; intros s Hne Hdesc Hcount; [lia|].
  cbn [frame_evict_loop].
  destruct (ftable s) as [|fr rest] eqn:Hft; [congruence|].
  destruct (Hdesc fr) as (t & Ht & Hpte); [rewrite Hft; left|].
  rewrite Ht.
  destruct (pagedir_is_accessed (pagedir t) (f_upage fr)) eqn:Hacc.
  - set (s2 := set_ftable (rest ++ [fr]) _).
    assert (Hsupp : forall tid, supp_pt <$> threads s2 !! tid = supp_pt <$> threads s !! tid).
    { intros tid. unfold s2, set_ftable, set_thread, set_threads. cbn [threads].
      destruct (decide (f_t fr = tid)) as [<-|Hn].
      - rewrite lookup_insert_eq, Ht. reflexivity.
      - rewrite lookup_insert_ne by exact Hn. reflexivity. }
    destruct (IH s2) as (v & s1 & Hloop & Hin & Hs & Hrest).
    + unfold s2. cbn [ftable set_ftable]. intros Habs. apply app_eq_nil in Habs as [_ ?].
      discriminate.
    + intros g Hg. unfold s2 in Hg. cbn [ftable set_ftable] in Hg.
      destruct (Hdesc g) as (tg & Htg & Hptg).
      { rewrite Hft. apply elem_of_app in Hg as [Hg|Hg].
        - right. exact Hg.
        - apply list_elem_of_singleton in Hg. subst g. left. }
      pose proof (Hsupp (f_t g)) as Hsg. rewrite Htg in Hsg.
      destruct (threads s2 !! f_t g) as [tg'|] eqn:Htg'; [|discriminate].
      injection Hsg as Hsg. exists tg'. split; [reflexivity|]. rewrite Hsg. exact Hptg.
    + unfold s2 at 2. cbn [ftable set_ftable].
      rewrite List.filter_app, length_app. cbn [List.filter].
      assert (Hfr : frame_accessed s2 fr = false).
      { unfold s2. rewrite (frame_accessed_after_pass s fr fr t _ Ht).
        rewrite decide_True by (split; reflexivity). reflexivity. }
      rewrite Hfr. cbn [length].
      assert (Hfr0 : frame_accessed s fr = true).
      { unfold frame_accessed. rewrite Ht. exact Hacc. }
      cbn [List.filter] in Hcount. rewrite Hfr0 in Hcount. cbn [length] in Hcount.
      pose proof (filter_length_mono (frame_accessed s2) (frame_accessed s) rest) as Hm.
      assert (Himp : forall x, frame_accessed s2 x = true -> frame_accessed s x = true).
      { intros x. unfold s2. rewrite (frame_accessed_after_pass s fr x t _ Ht).
        destruct (decide _); [discriminate|trivial]. }
      specialize (Hm Himp). lia.
    + exists v, s1. split; [exact Hloop|]. split.
      { unfold s2 in Hin. cbn [ftable set_ftable] in Hin.
        apply elem_of_app in Hin as [Hin|Hin].
        - right. exact Hin.
        - apply list_elem_of_singleton in Hin. subst v. left. }
      destruct Hrest as (H1 & H2 & H3 & H4 & H5).
      split; [intros tid; rewrite Hs; apply Hsupp|].
      repeat split; assumption.
  - eexists _, _. split; [reflexivity|]. split; [left|]. split.
    + intros tid. unfold set_ftable, set_thread, set_threads. cbn [threads].
      destruct (decide (f_t fr = tid)) as [<-|Hn].
      * rewrite lookup_insert_eq, Ht. reflexivity.
      * rewrite lookup_insert_ne by exact Hn. reflexivity.
    + repeat split; reflexivity.
Qed.

Lemma filter_length_le {A : Type} (f : A -> bool) (l : list A) :
  (length (List.filter f l) <= length l)%nat.
Proof. induction l as [|x l IH]; simpl; [lia|]. destruct (f x); simpl; lia. Qed.

(** C2 (amended).  When eviction selects a victim, whatever backs its
    descriptor (a file, zeros or an earlier swap slot) and whatever its dirty
    bit, the page is written to a newly allocated swap slot, the first free
    one, and the descriptor goes to [SWAP] with that slot, keeping its file
    reference; no victim goes to [InFile], and the file system is not touched:
    the one call into a collaborator is the console write of the line that
    [swap_write_page] prints with the number of the slot.  The frame table is
    not empty, its frames are described, and a swap slot is free. *)
Theorem eviction_always_swaps (s : kernel W) (slot : Z) :
  ftable s <> [] ->
  frames_described s ->
  first_free (swap_slots s) slot ->
  Z.of_nat (length (swap_slots s)) * sectors_per_page <= 2 ^ 32 ->
  exists fr s' t old t' pte,
    frame_evict E s = Ret fr s'
    /\ fr ∈ ftable s
    /\ threads s !! f_t fr = Some t
    /\ supp_pt t !! pg_round_down (f_upage fr) = Some old
    /\ threads s' !! f_t fr = Some t'
    /\ supp_pt t' !! pg_round_down (f_upage fr) = Some pte
    /\ loc pte = SWAP /\ loc pte <> InFile
    /\ swap_slot_index pte = slot
    /\ file_ref pte = file_ref old
    /\ swap_slots s' = <[Z.to_nat slot := true]> (swap_slots s)
    /\ (forall k, 0 <= k < sectors_per_page ->
          blk_data (swap_device s') !! (slot * sectors_per_page + k)
          = Some (load_bytes (mem s) (f_kpage fr + k * BLOCK_SECTOR_SIZE)
                             (Z.to_nat BLOCK_SECTOR_SIZE)))
    /\ world s' = putbuf E (printf_line "free_slot_index " slot) (world s)
    /\ klog s' = klog s ++ [EvPutbuf (printf_line "free_slot_index " slot)].
Proof.
  intros Hne Hdesc Hff Hsize.
  destruct (frame_evict_loop_total (S (length (ftable s))) s Hne Hdesc)
    as (fr & s1 & Hloop & Hin & Hs & Hslots & Hdev & Hmem & Hworld & Hlog).
  { pose proof (filter_length_le (frame_accessed s) (ftable s)). lia. }
  destruct (Hdesc fr Hin) as (t & Ht & [old Hold]).
  pose proof (Hs (f_t fr)) as Hs1. rewrite Ht in Hs1.
  destruct (threads s1 !! f_t fr) as [t1|] eqn:Ht1; [|discriminate].
  injection Hs1 as Hs1.
  destruct (swap_write_page_first_free E s1 (f_kpage fr) slot)
    as (s2 & Hw & Hslots2 & Hdata & _ & Hthr2 & _ & Hmem2 & Hworld2 & Hlog2 & _).
  { rewrite Hslots. exact Hsize. }
  { rewrite Hslots. exact Hff. }
  unfold frame_evict, bind. rewrite Hloop, Ht1.
  unfold supp_pte_lookup. rewrite Hs1, Hold, Hw.
  eexists fr, _, t, old, _, (pte_set_swapped slot old).
  split; [reflexivity|]. split; [exact Hin|]. split; [exact Ht|]. split; [exact Hold|].
  unfold set_mem, set_thread, set_threads.
  cbn [threads swap_slots swap_device world klog mem].
  split; [apply lookup_insert_eq|].
  cbn [supp_pt thread_set_supp_pt].
  split; [apply lookup_insert_eq|].
  split; [reflexivity|]. split; [discriminate|]. split; [reflexivity|].
  split; [reflexivity|].
  split; [rewrite Hslots2, Hslots; reflexivity|].
  split; [intros k Hk; rewrite (Hdata k Hk), Hmem; reflexivity|].
  split; congruence.
Qed.
End FrameFacts.


(** ** Unpinning leaves everything but the pinned flags alone *)

Section GateFacts.
Context {W : Type} (E : externals W).

Lemma thread_current_set_thread (s : kernel W) (t : thread) :
  thread_current (set_thread (cur s) t s) = t.
Proof.
  unfold thread_current, set_thread, set_threads. cbn [threads cur].
  rewrite lookup_insert_eq. reflexivity.
Qed.

Lemma unpin_ptr_frame (ptr : Z) (s : kernel W) :
  exists b s', unpin_ptr ptr s = Ret b s'
    /\ tf s' = tf s /\ world s' = world s /\ klog s' = klog s /\ mem s' = mem s
    /\ filesys_lock s' = filesys_lock s /\ cur s' = cur s
    /\ cur_pagedir s' = cur_pagedir s.
Proof.
  unfold unpin_ptr. destruct (supp_pt_lookup (cur_supp_pt s) ptr).
  - eexists _, _. split; [reflexivity|].
    unfold set_pinned, set_cur_supp_pt, cur_pagedir.
    rewrite thread_current_set_thread. repeat split; reflexivity.
  - exists false, s. repeat split; reflexivity.
Qed.

Lemma unpin_range_loop_frame (fuel : nat) (end_ptr curr_page : Z) (s : kernel W) :
  0 <= curr_page -> end_ptr <= PHYS_BASE ->
  end_ptr - curr_page <= Z.of_nat fuel * PGSIZE ->
  exists b s', unpin_range_loop fuel end_ptr curr_page s = Ret b s'
    /\ tf s' = tf s /\ world s' = world s /\ klog s' = klog s /\ mem s' = mem s
    /\ filesys_lock s' = filesys_lock s /\ cur s' = cur s
    /\ cur_pagedir s' = cur_pagedir s.
Proof.
  revert curr_page s.
  induction fuel as [|fuel IH]; intros curr_page s Hcurr Hend Hfuel.
  - cbn [unpin_range_loop].
    assert (Hc : (curr_page <? end_ptr) = false) by (apply Z.ltb_ge; lia).
    rewrite Hc. exists true, s. repeat split; reflexivity.
  - cbn [unpin_range_loop].
    destruct (curr_page <? end_ptr) eqn:Hc; [|exists true, s; repeat split; reflexivity].
    apply Z.ltb_lt in Hc. unfold bind.
    destruct (unpin_ptr_frame curr_page s) as (b & s1 & Hu & H1 & H2 & H3 & H4 & H5 & H6 & H7).
    rewrite Hu. destruct b; cbn [negb].
    + assert (Hw : wrap32 (curr_page + PGSIZE) = curr_page + PGSIZE).
      { unfold wrap32, PGSIZE, PGBITS, PHYS_BASE in *. apply Z.mod_small. lia. }
      rewrite Hw.
      destruct (IH (curr_page + PGSIZE) s1) as (b' & s' & Hl & K1 & K2 & K3 & K4 & K5 & K6 & K7).
      * unfold PGSIZE, PGBITS. lia.
      * exact Hend.
      * unfold PGSIZE, PGBITS in *. lia.
      * exists b', s'. split; [exact Hl|]. repeat split; congruence.
    + exists false, s1. split; [reflexivity|]. repeat split; assumption.
Qed.

Lemma unpin_range_frame (ptr len : Z) (s : kernel W) :
  0 <= ptr -> 0 <= len -> ptr + len <= PHYS_BASE ->
  exists b s', unpin_range ptr len s = Ret b s'
    /\ tf s' = tf s /\ world s' = world s /\ klog s' = klog s /\ mem s' = mem s
    /\ filesys_lock s' = filesys_lock s /\ cur s' = cur s
    /\ cur_pagedir s' = cur_pagedir s.
Proof.
  intros Hptr Hlen Hend. unfold unpin_range.
  destruct (len =? 0); [exists true, s; repeat split; reflexivity|].
  assert (Hw : wrap32 (ptr + len) = ptr + len).
  { unfold wrap32, PHYS_BASE in *. apply Z.mod_small. lia. }
  rewrite Hw.
  assert (Hp : 0 <= ptr < 2 ^ 32) by (unfold PHYS_BASE in *; lia).
  pose proof (pg_round_down_bounds ptr Hp) as (Hlo & _).
  apply unpin_range_loop_frame; [lia|exact Hend|].
  unfold page_fuel. rewrite Z2Nat.id by lia.
  unfold PGSIZE, PGBITS, PHYS_BASE in *. lia.
Qed.
End GateFacts.

(** ** [sys_read] *)

Section ReadFacts.
Context {W : Type} (E : externals W).

Lemma translate_frame (s s' : kernel W) (a : Z) :
  cur_pagedir s' = cur_pagedir s -> translate s' a = translate s a.
Proof. intros H. unfold translate. rewrite H. reflexivity. Qed.








Lemma buffer_resident_b_sound (s : kernel W) (buf len : Z) :
  buffer_resident_b s buf len = true -> buffer_resident s buf len.
Proof.
  unfold buffer_resident_b. intros H. apply andb_prop in H as [H1 H2]. split.
  - intros i Hi. rewrite forallb_forall in H1. specialize (H1 i).
    destruct (translate s (buf + i)); [eexists; reflexivity|].
    assert (false = true); [|discriminate]. apply H1.
    apply list_elem_of_In, elem_of_seqZ. lia.
  - intros i j Hi Hj Heq. rewrite forallb_forall in H2.
    assert (Hi' : In i (seqZ 0 len)) by (apply list_elem_of_In, elem_of_seqZ; lia).
    assert (Hj' : In j (seqZ 0 len)) by (apply list_elem_of_In, elem_of_seqZ; lia).
    specialize (H2 i Hi'). rewrite forallb_forall in H2. specialize (H2 j Hj').
    apply orb_prop in H2 as [H2|H2]; [apply Z.eqb_eq; exact H2|].
    rewrite bool_decide_eq_true_2 in H2 by exact Heq. discriminate.
Qed.
End ReadFacts.


(** ** [sys_mmap] *)

Section MmapFacts.
Context {W : Type} (E : externals W).

Lemma cur_supp_pt_set (spt : gmap Z supp_pte) (s : kernel W) :
  cur_supp_pt (set_cur_supp_pt spt s) = spt.
Proof.
  unfold cur_supp_pt, set_cur_supp_pt. rewrite thread_current_set_thread. reflexivity.
Qed.

Lemma pg_round_down_page (p : Z) :
  0 <= p < 2 ^ 32 -> p mod PGSIZE = 0 -> pg_round_down p = p.
Proof. intros Hp Hal. rewrite pg_round_down_spec by exact Hp. lia. Qed.

Lemma alloc_file_fresh (up file ofs bytes mapid : Z) (w : bool) (s : kernel W) :
  0 <= up < 2 ^ 32 -> up mod PGSIZE = 0 ->
  cur_supp_pt s !! up = None ->
  supp_pt_page_alloc_file up file ofs bytes mapid w s
  = Ret true (set_cur_supp_pt
                (<[up := mk_supp_pte up InFile 0 0 (Some file) ofs bytes w (Some mapid) false]>
                   (cur_supp_pt s)) s).
Proof.
  intros Hup Hal Hfresh. unfold supp_pt_page_alloc_file.
  rewrite pg_round_down_page by assumption. rewrite Hfresh. reflexivity.
Qed.

Lemma alloc_file_present (up file ofs bytes mapid : Z) (w : bool) (s : kernel W) :
  0 <= up < 2 ^ 32 -> up mod PGSIZE = 0 ->
  is_Some (cur_supp_pt s !! up) ->
  supp_pt_page_alloc_file up file ofs bytes mapid w s = Ret false s.
Proof.
  intros Hup Hal [d Hd]. unfold supp_pt_page_alloc_file.
  rewrite pg_round_down_page by assumption. rewrite Hd. reflexivity.
Qed.

(** The descriptor that iteration [k] of the loop installs when the loop
    starts with counter [i] and [length] bytes left. *)
Lemma sys_mmap_loop_fresh (file mapid : Z) (n : nat) (i length curr : Z) (s : kernel W) :
  0 <= curr -> curr mod PGSIZE = 0 -> curr + Z.of_nat n * PGSIZE <= 2 ^ 32 ->
  (Z.of_nat n - 1) * PGSIZE < length ->
  (forall k, 0 <= k < Z.of_nat n -> cur_supp_pt s !! (curr + k * PGSIZE) = None) ->
  exists s',
    sys_mmap_loop E n file mapid i length curr s = Ret true s'
    /\ tf s' = tf s /\ cur s' = cur s /\ world s' = world s /\ klog s' = klog s
    /\ filesys_lock s' = filesys_lock s
    /\ (forall k, 0 <= k < Z.of_nat n ->
          cur_supp_pt s' !! (curr + k * PGSIZE)
          = Some (mk_supp_pte (curr + k * PGSIZE) InFile 0 0 (Some file)
                              (wrap32 ((i + k) * PGSIZE))
                              (if length - k * PGSIZE >? PGSIZE then PGSIZE
                               else length - k * PGSIZE)
                              true (Some mapid) false))
    /\ (forall p, (forall k, 0 <= k < Z.of_nat n -> p <> curr + k * PGSIZE) ->
          cur_supp_pt s' !! p = cur_supp_pt s !! p).
Proof.
  revert i length curr s.
  induction n as [|n IH]; intros i length curr s Hcurr Hal Hend Hlen Hfresh.
  - exists s. split; [reflexivity|]. repeat split; try reflexivity. intros k Hk. lia.
  - cbn [sys_mmap_loop]. unfold bind.
    assert (Hpg : PGSIZE = 4096) by reflexivity.
    rewrite alloc_file_fresh; [|lia|exact Hal|].
    2:{ specialize (Hfresh 0). rewrite Z.mul_0_l, Z.add_0_r in Hfresh. apply Hfresh. lia. }
    cbn [negb].
    set (d := mk_supp_pte curr InFile 0 0 (Some file) (wrap32 (i * PGSIZE)) _ true
                          (Some mapid) false).
    set (s1 := set_cur_supp_pt (<[curr := d]> (cur_supp_pt s)) s).
    assert (Hs1 : cur_supp_pt s1 = <[curr := d]> (cur_supp_pt s)) by apply cur_supp_pt_set.
    destruct n as [|n].
    + exists s1. split; [reflexivity|]. split; [reflexivity|]. split; [reflexivity|].
      split; [reflexivity|]. split; [reflexivity|]. split; [reflexivity|]. split.
      * intros k Hk. assert (k = 0) by lia. subst k.
        rewrite Z.mul_0_l, !Z.add_0_r, Z.sub_0_r, Hs1, lookup_insert_eq. reflexivity.
      * intros p Hp. rewrite Hs1. apply lookup_insert_ne.
        specialize (Hp 0). rewrite Z.mul_0_l, Z.add_0_r in Hp. intros ->. apply Hp; [lia|reflexivity].
    + assert (Hw : wrap32 (curr + PGSIZE) = curr + PGSIZE).
      { unfold wrap32. apply Z.mod_small. lia. }
      rewrite Hw.
      assert (Hgt : (length >? PGSIZE) = true) by (rewrite Z.gtb_ltb; apply Z.ltb_lt; lia).
      rewrite Hgt.
      destruct (IH (i + 1) (length - PGSIZE) (curr + PGSIZE) s1)
        as (s' & Hrun & H1 & H2 & H3 & H4 & H5 & H6 & H7).
      * lia.
      * rewrite Z.add_mod, Hal, Z.mod_same, Z.add_0_l, Z.mod_0_l by lia. reflexivity.
      * lia.
      * lia.
      * intros k Hk. rewrite Hs1, lookup_insert_ne by lia.
        replace (curr + PGSIZE + k * PGSIZE) with (curr + (k + 1) * PGSIZE) by lia.
        apply Hfresh. lia.
      * exists s'. split; [exact Hrun|]. split; [exact H1|]. split; [exact H2|].
        split; [exact H3|]. split; [exact H4|]. split; [exact H5|]. split.
        -- intros k Hk. destruct (decide (k = 0)) as [->|Hk0].
           ++ rewrite Z.mul_0_l, !Z.add_0_r, Z.sub_0_r, H7.
              ** rewrite Hs1, lookup_insert_eq. unfold d. rewrite Hgt. reflexivity.
              ** intros j Hj. lia.
           ++ specialize (H6 (k - 1)).
              replace (curr + PGSIZE + (k - 1) * PGSIZE) with (curr + k * PGSIZE) in H6 by lia.
              replace (i + 1 + (k - 1)) with (i + k) in H6 by lia.
              replace (length - PGSIZE - (k - 1) * PGSIZE) with (length - k * PGSIZE) in H6
                by lia.
              apply H6. lia.
        -- intros p Hp. rewrite H7.
           ++ rewrite Hs1. apply lookup_insert_ne. specialize (Hp 0).
              rewrite Z.mul_0_l, Z.add_0_r in Hp. intros ->. apply Hp; [lia|reflexivity].
           ++ intros j Hj. specialize (Hp (j + 1)).
              replace (curr + (j + 1) * PGSIZE) with (curr + PGSIZE + j * PGSIZE) in Hp by lia.
              apply Hp. lia.
Qed.

Lemma return_value_eax (v : Z) (s : kernel W) :
  0 <= v < 2 ^ 32 -> return_value v s = Ret tt (set_eax v s).
Proof. intros Hv. unfold return_value, wrap32. rewrite Z.mod_small by exact Hv. reflexivity. Qed.

Lemma pg_range_num_bounds (length : Z) :
  0 < length < 2 ^ 31 ->
  0 < pg_range_num length <= 2 ^ 19
  /\ (pg_range_num length - 1) * PGSIZE < length <= pg_range_num length * PGSIZE.
Proof.
  intros Hl. unfold pg_range_num, wrap32.
  assert (Hpg : PGSIZE = 4096) by reflexivity. rewrite Hpg.
  pose proof (Z.div_mod (length - 1) 4096). pose proof (Z.mod_pos_bound (length - 1) 4096).
  assert (0 <= (length - 1) / 4096 < 2 ^ 19).
  { split; [apply Z.div_pos; lia|]. apply Z.div_lt_upper_bound; lia. }
  rewrite Z.mod_small by lia. lia.
Qed.

(** [sys_mmap] when every check of the code passes and the target pages are
    free: one [InFile] descriptor per page, the last one with what is left of
    the file, and the address as the result. *)
Lemma sys_mmap_success (s : kernel W) (fd addr file file' length : Z) (w' : W) :
  fd_table_get_file E fd (world s) = Some file ->
  filesys_lock s <> Some (cur s) ->
  file_length E file (world s) = length -> 0 < length < 2 ^ 31 ->
  addr <> NULL -> pg_ofs addr = 0 -> 0 <= addr < PHYS_BASE ->
  wrap32 (addr + wrap32 (pg_range_num length * PGSIZE)) <= STACK_LIMIT E ->
  file_reopen E file (world s) = (Some file', w') ->
  addr + pg_range_num length * PGSIZE <= 2 ^ 32 ->
  (forall k, 0 <= k < pg_range_num length -> cur_supp_pt s !! (addr + k * PGSIZE) = None) ->
  exists s',
    sys_mmap E fd addr s = Ret tt s'
    /\ eax (tf s') = addr
    /\ world s' = w'
    /\ filesys_lock s' = None
    /\ (forall k, 0 <= k < pg_range_num length ->
          cur_supp_pt s' !! (addr + k * PGSIZE)
          = Some (mk_supp_pte (addr + k * PGSIZE) InFile 0 0 (Some file')
                              (k * PGSIZE)
                              (if k =? pg_range_num length - 1
                               then length - (pg_range_num length - 1) * PGSIZE
                               else PGSIZE)
                              true (Some addr) false))
    /\ (forall p, (forall k, 0 <= k < pg_range_num length -> p <> addr + k * PGSIZE) ->
          cur_supp_pt s' !! p = cur_supp_pt s !! p).
Proof.
  intros Hfile Hlock Hlen Hlength Hnull Hofs Haddr Hguard Hreopen Hnowrap Hfresh.
  pose proof (pg_range_num_bounds length Hlength) as (Hnp & Hlast).
  assert (Hpg : PGSIZE = 4096) by reflexivity.
  unfold sys_mmap, bind, query. rewrite Hfile.
  rewrite (lock_acquire_free s Hlock).
  set (s1 := log _ (set_filesys_lock _ s)). change (world s1) with (world s). rewrite Hlen.
  rewrite (lock_release_held s1) by reflexivity.
  set (s2 := log _ (set_filesys_lock None s1)).
  assert (H1 : (length <=? 0) = false) by (apply Z.leb_gt; lia). rewrite H1.
  assert (H2 : (addr =? NULL) = false) by (apply Z.eqb_neq; exact Hnull). rewrite H2.
  rewrite Hofs. cbn [Z.eqb negb orb].
  assert (H3 : is_user_vaddr addr = true) by (apply Z.ltb_lt; lia). rewrite H3.
  cbn [negb].
  assert (H4 : (wrap32 (addr + wrap32 (pg_range_num length * PGSIZE)) >? STACK_LIMIT E) = false).
  { rewrite Z.gtb_ltb. apply Z.ltb_ge. exact Hguard. }
  rewrite H4.
  rewrite (lock_acquire_free s2) by discriminate.
  set (s3 := log _ (set_filesys_lock _ s2)).
  unfold call. change (world s3) with (world s). rewrite Hreopen.
  set (s4 := set_world w' s3).
  rewrite (lock_release_held s4) by reflexivity.
  set (s5 := log _ (set_filesys_lock None s4)).
  destruct (sys_mmap_loop_fresh file' addr (Z.to_nat (pg_range_num length)) 0 length addr s5)
    as (s6 & Hrun & K1 & K2 & K3 & K4 & K5 & K6 & K7).
  - lia.
  - rewrite pg_ofs_mod in Hofs. exact Hofs.
  - rewrite Z2Nat.id by lia. exact Hnowrap.
  - rewrite Z2Nat.id by lia. lia.
  - intros k Hk. rewrite Z2Nat.id in Hk by lia.
    change (cur_supp_pt s5) with (cur_supp_pt s). apply Hfresh. exact Hk.
  - rewrite Hrun. rewrite return_value_eax by (unfold PHYS_BASE in *; lia).
    eexists. split; [reflexivity|]. cbn [tf set_eax set_tf eax].
    split; [reflexivity|]. split; [exact K3|].
    split; [cbn [filesys_lock set_eax set_tf]; rewrite K5; reflexivity|].
    rewrite Z2Nat.id in K6, K7 by lia.
    change (cur_supp_pt (set_eax addr s6)) with (cur_supp_pt s6). split.
    + intros k Hk. rewrite (K6 k Hk). f_equal.
      rewrite Z.add_0_l. f_equal.
      * unfold wrap32. apply Z.mod_small. lia.
      * destruct (k =? pg_range_num length - 1) eqn:Hk1.
        -- apply Z.eqb_eq in Hk1. subst k.
           assert (Hg : (length - (pg_range_num length - 1) * PGSIZE >? PGSIZE) = false)
             by (rewrite Z.gtb_ltb; apply Z.ltb_ge; lia).
           rewrite Hg. reflexivity.
        -- apply Z.eqb_neq in Hk1.
           assert (Hg : (length - k * PGSIZE >? PGSIZE) = true)
             by (rewrite Z.gtb_ltb; apply Z.ltb_lt; lia).
           rewrite Hg. reflexivity.
    + intros p Hp. rewrite (K7 p Hp). reflexivity.
Qed.

(** [sys_mmap] when a precondition fails (and the guard against the stack
    does not wrap around): [MAP_FAILED], with the page table as it was. *)
Lemma sys_mmap_rejects (s : kernel W) (fd addr : Z) :
  filesys_lock s <> Some (cur s) ->
  (forall file, fd_table_get_file E fd (world s) = Some file ->
     file_length E file (world s) <= 0
     \/ addr = NULL \/ pg_ofs addr <> 0 \/ is_user_vaddr addr = false
     \/ (0 <= addr
         /\ addr + pg_range_num (file_length E file (world s)) * PGSIZE < 2 ^ 32
         /\ addr + pg_range_num (file_length E file (world s)) * PGSIZE > STACK_LIMIT E)) ->
  exists s',
    sys_mmap E fd addr s = Ret tt s'
    /\ eax (tf s') = MAP_FAILED
    /\ cur_supp_pt s' = cur_supp_pt s /\ world s' = world s.
Proof.
  intros Hlock Hpre. unfold sys_mmap, bind, query.
  assert (Hmf : forall s0 : kernel W, return_value MAP_FAILED s0 = Ret tt (set_eax MAP_FAILED s0))
    by reflexivity.
  destruct (fd_table_get_file E fd (world s)) as [file|] eqn:Hfile.
  2:{ rewrite Hmf. eexists. split; [reflexivity|]. repeat split; reflexivity. }
  specialize (Hpre file eq_refl).
  rewrite (lock_acquire_free s Hlock).
  set (s1 := log _ (set_filesys_lock _ s)). change (world s1) with (world s).
  rewrite (lock_release_held s1) by reflexivity.
  set (s2 := log _ (set_filesys_lock None s1)).
  set (length := file_length E file (world s)) in *.
  destruct (length <=? 0) eqn:H1.
  { rewrite Hmf. eexists. split; [reflexivity|]. repeat split; reflexivity. }
  destruct ((addr =? NULL) || negb (pg_ofs addr =? 0) || negb (is_user_vaddr addr)) eqn:H2.
  { rewrite Hmf. eexists. split; [reflexivity|]. repeat split; reflexivity. }
  apply Z.leb_gt in H1.
  apply orb_false_elim in H2 as [H2 H4]. apply orb_false_elim in H2 as [H2 H3].
  apply Z.eqb_neq in H2. apply negb_false_iff in H3, H4. apply Z.eqb_eq in H3.
  destruct Hpre as [Hp|[Hp|[Hp|[Hp|(Ha & Hnw & Hgt)]]]]; try lia; try congruence.
  assert (Hnp : 0 <= pg_range_num length) by (unfold pg_range_num, wrap32; apply Z.mod_pos_bound; lia).
  assert (Hpg : PGSIZE = 4096) by reflexivity.
  assert (Hg : (wrap32 (addr + wrap32 (pg_range_num length * PGSIZE)) >? STACK_LIMIT E) = true).
  { rewrite Z.gtb_ltb. apply Z.ltb_lt. unfold wrap32 at 2.
    rewrite Z.mod_small by lia. unfold wrap32. rewrite Z.mod_small by lia. lia. }
  rewrite Hg, Hmf. eexists. split; [reflexivity|]. repeat split; reflexivity.
Qed.


Lemma page_free_unloaded (up : Z) (d : supp_pte) (s : kernel W) :
  0 <= up < 2 ^ 32 -> up mod PGSIZE = 0 ->
  cur_supp_pt s !! up = Some d -> loc d = InFile ->
  supp_pt_page_free E up s = Ret tt (set_cur_supp_pt (delete up (cur_supp_pt s)) s).
Proof.
  intros Hup Hal Hd Hloc. unfold supp_pt_page_free.
  rewrite pg_round_down_page by assumption. rewrite Hd, Hloc. reflexivity.
Qed.

Lemma sys_mmap_rollback_spec (m : nat) (curr : Z) (s : kernel W) :
  0 <= curr - Z.of_nat m * PGSIZE -> curr < 2 ^ 32 -> curr mod PGSIZE = 0 ->
  (forall j, 1 <= j <= Z.of_nat m ->
     exists d, cur_supp_pt s !! (curr - j * PGSIZE) = Some d /\ loc d = InFile) ->
  exists s',
    sys_mmap_rollback E m curr s = Ret tt s'
    /\ tf s' = tf s /\ cur s' = cur s /\ world s' = world s /\ klog s' = klog s
    /\ filesys_lock s' = filesys_lock s
    /\ (forall j, 1 <= j <= Z.of_nat m -> cur_supp_pt s' !! (curr - j * PGSIZE) = None)
    /\ (forall p, (forall j, 1 <= j <= Z.of_nat m -> p <> curr - j * PGSIZE) ->
          cur_supp_pt s' !! p = cur_supp_pt s !! p).
Proof.
  assert (Hpg : PGSIZE = 4096) by reflexivity.
  revert curr s. induction m as [|m IH]; intros curr s Hlow Hhigh Hal Hinst.
  - exists s. split; [reflexivity|]. repeat split; try reflexivity. intros j Hj. lia.
  - cbn [sys_mmap_rollback]. unfold bind.
    assert (Hw : wrap32 (curr - PGSIZE) = curr - PGSIZE).
    { unfold wrap32. apply Z.mod_small. lia. }
    rewrite Hw.
    assert (Hal' : (curr - PGSIZE) mod PGSIZE = 0).
    { replace (curr - PGSIZE) with (curr + (-1) * PGSIZE) by lia.
      rewrite Z.mod_add by lia. exact Hal. }
    destruct (Hinst 1) as (d & Hd & Hloc); [lia|]. rewrite Z.mul_1_l in Hd.
    rewrite (page_free_unloaded (curr - PGSIZE) d s) by (assumption || lia).
    set (s1 := set_cur_supp_pt _ s).
    assert (Hs1 : cur_supp_pt s1 = delete (curr - PGSIZE) (cur_supp_pt s))
      by apply cur_supp_pt_set.
    destruct (IH (curr - PGSIZE) s1) as (s' & Hrun & H1 & H2 & H3 & H4 & H5 & H6 & H7).
    + lia.
    + lia.
    + exact Hal'.
    + intros j Hj. destruct (Hinst (j + 1)) as (d' & Hd' & Hloc'); [lia|].
      exists d'. split; [|exact Hloc'].
      rewrite Hs1, lookup_delete_ne by lia.
      replace (curr - PGSIZE - j * PGSIZE) with (curr - (j + 1) * PGSIZE) by lia. exact Hd'.
    + exists s'. split; [exact Hrun|]. split; [exact H1|]. split; [exact H2|].
      split; [exact H3|]. split; [exact H4|]. split; [exact H5|]. split.
      * intros j Hj. destruct (decide (j = 1)) as [->|Hj1].
        -- rewrite Z.mul_1_l, H7; [rewrite Hs1; apply lookup_delete_eq|].
           intros k Hk. lia.
        -- specialize (H6 (j - 1)).
           replace (curr - PGSIZE - (j - 1) * PGSIZE) with (curr - j * PGSIZE) in H6 by lia.
           apply H6. lia.
      * intros p Hp. rewrite H7.
        -- rewrite Hs1. apply lookup_delete_ne. specialize (Hp 1). rewrite Z.mul_1_l in Hp.
           intros Heq. apply Hp; [lia|]. symmetry. exact Heq.
        -- intros j Hj. specialize (Hp (j + 1)).
           replace (curr - (j + 1) * PGSIZE) with (curr - PGSIZE - j * PGSIZE) in Hp by lia.
           apply Hp. lia.
Qed.


(** The loop of [sys_mmap] when page [k] of the mapping is in use: the [i]
    pages installed before the call and the [k] pages installed by it are
    removed again, and the page table is [spt0], what it was before the
    first page was installed. *)
Lemma sys_mmap_loop_rollback (file mapid base : Z) (spt0 : gmap Z supp_pte)
      (n : nat) (i length : Z) (s : kernel W) (k : Z) :
  0 <= base -> base mod PGSIZE = 0 -> 0 <= i ->
  base + (i + Z.of_nat n) * PGSIZE <= 2 ^ 32 ->
  0 <= k < Z.of_nat n ->
  (forall j, 0 <= j < k -> cur_supp_pt s !! (base + (i + j) * PGSIZE) = None) ->
  is_Some (cur_supp_pt s !! (base + (i + k) * PGSIZE)) ->
  (forall j, 0 <= j < i ->
     spt0 !! (base + j * PGSIZE) = None
     /\ exists d, cur_supp_pt s !! (base + j * PGSIZE) = Some d /\ loc d = InFile) ->
  (forall p, (forall j, 0 <= j < i -> p <> base + j * PGSIZE) ->
     cur_supp_pt s !! p = spt0 !! p) ->
  filesys_lock s <> Some (cur s) ->
  exists s',
    sys_mmap_loop E n file mapid i length (base + i * PGSIZE) s = Ret false s'
    /\ cur_supp_pt s' = spt0
    /\ world s' = file_close E file (world s)
    /\ filesys_lock s' = None /\ tf s' = tf s.
Proof.
  assert (Hpg : PGSIZE = 4096) by reflexivity.
  intros Hbase Hal. revert i length s k.
  induction n as [|n IH]; intros i length s k Hi Hend Hk Hfresh Hused Hinst Hother Hlock;
    [lia|].
  assert (Hal' : (base + i * PGSIZE) mod PGSIZE = 0).
  { rewrite Z.mod_add by lia. exact Hal. }
  cbn [sys_mmap_loop]. unfold bind.
  destruct (decide (k = 0)) as [->|Hk0].
  - rewrite Z.add_0_r in Hused.
    rewrite alloc_file_present by (assumption || lia). cbn [negb].
    destruct (sys_mmap_rollback_spec (Z.to_nat i) (base + i * PGSIZE) s)
      as (s1 & Hrun & H1 & H2 & H3 & H4 & H5 & H6 & H7).
    + rewrite Z2Nat.id by lia. lia.
    + lia.
    + exact Hal'.
    + intros j Hj. rewrite Z2Nat.id in Hj by lia.
      destruct (Hinst (i - j)) as (_ & d & Hd & Hloc); [lia|].
      exists d. split; [|exact Hloc].
      replace (base + i * PGSIZE - j * PGSIZE) with (base + (i - j) * PGSIZE) by lia.
      exact Hd.
    + rewrite Hrun.
      rewrite (lock_acquire_free s1) by (rewrite H5, H2; exact Hlock).
      set (s2 := log _ (set_filesys_lock _ s1)).
      set (s3 := set_world _ s2).
      rewrite (lock_release_held s3) by reflexivity.
      eexists. split; [reflexivity|]. split; [|split; [|split]].
      * change (cur_supp_pt s1 = spt0). apply map_eq. intros p.
        rewrite Z2Nat.id in H6, H7 by lia.
        destruct (decide ((p - base) mod PGSIZE = 0 /\ base <= p < base + i * PGSIZE))
          as [[Hm Hr]|Hn].
        -- pose proof (Z.div_mod (p - base) PGSIZE) as Hdm.
           set (q := (p - base) / PGSIZE) in *.
           assert (Hq : p = base + q * PGSIZE) by lia.
           assert (Hqr : 0 <= q < i) by lia.
           destruct (Hinst q Hqr) as (H0 & _). rewrite <- Hq in H0. rewrite H0.
           specialize (H6 (i - q)).
           replace (base + i * PGSIZE - (i - q) * PGSIZE) with p in H6 by lia.
           apply H6. lia.
        -- rewrite H7.
           ++ apply Hother. intros j Hj Heq. apply Hn. subst p. split; [|lia].
              replace (base + j * PGSIZE - base) with (j * PGSIZE) by lia.
              apply Z.mod_mul. lia.
           ++ intros j Hj Heq. apply Hn. subst p. split; [|lia].
              replace (base + i * PGSIZE - j * PGSIZE - base) with ((i - j) * PGSIZE) by lia.
              apply Z.mod_mul. lia.
      * cbn [world log set_klog set_filesys_lock set_world]. unfold s3, s2.
        cbn [world log set_klog set_filesys_lock set_world]. rewrite H3. reflexivity.
      * reflexivity.
      * cbn [tf log set_klog set_filesys_lock set_world]. exact H1.
  - assert (Hf0 : cur_supp_pt s !! (base + i * PGSIZE) = None).
    { specialize (Hfresh 0). rewrite Z.add_0_r in Hfresh. apply Hfresh. lia. }
    rewrite alloc_file_fresh by (assumption || lia). cbn [negb].
    set (d := mk_supp_pte _ InFile 0 0 _ _ _ true _ false).
    set (s1 := set_cur_supp_pt (<[base + i * PGSIZE := d]> (cur_supp_pt s)) s).
    assert (Hs1 : cur_supp_pt s1 = <[base + i * PGSIZE := d]> (cur_supp_pt s))
      by apply cur_supp_pt_set.
    assert (Hw : wrap32 (base + i * PGSIZE + PGSIZE) = base + (i + 1) * PGSIZE).
    { unfold wrap32. rewrite Z.mod_small by lia. lia. }
    rewrite Hw.
    destruct (IH (i + 1) (length - (if length >? PGSIZE then PGSIZE else length)) s1 (k - 1))
      as (s' & Hrun & K1 & K2 & K3 & K4).
    + lia.
    + lia.
    + lia.
    + intros j Hj. rewrite Hs1, lookup_insert_ne by lia.
      replace (i + 1 + j) with (i + (j + 1)) by lia. apply Hfresh. lia.
    + rewrite Hs1, lookup_insert_ne by lia.
      replace (i + 1 + (k - 1)) with (i + k) by lia. exact Hused.
    + intros j Hj. destruct (decide (j = i)) as [->|Hji].
      * split.
        -- rewrite <- Hother; [exact Hf0|]. intros j' Hj'. lia.
        -- exists d. rewrite Hs1, lookup_insert_eq. split; reflexivity.
      * destruct (Hinst j) as (H0 & d' & Hd' & Hloc'); [lia|].
        split; [exact H0|]. exists d'. rewrite Hs1, lookup_insert_ne by lia.
        split; [exact Hd'|exact Hloc'].
    + intros p Hp. rewrite Hs1, lookup_insert_ne.
      * apply Hother. intros j Hj. apply Hp. lia.
      * intros Heq. apply (Hp i); [lia|]. symmetry. exact Heq.
    + exact Hlock.
    + exists s'. split; [exact Hrun|]. split; [exact K1|]. split; [exact K2|].
      split; [exact K3|exact K4].
Qed.

(** [sys_mmap] when page [k] of the mapping is already described: every
    descriptor installed before it is removed, the reopened file is closed,
    and the result is [MAP_FAILED] with the page table as it was. *)
Lemma sys_mmap_rolls_back (s : kernel W) (fd addr file file' length k : Z) (w' : W) :
  fd_table_get_file E fd (world s) = Some file ->
  filesys_lock s <> Some (cur s) ->
  file_length E file (world s) = length -> 0 < length < 2 ^ 31 ->
  addr <> NULL -> pg_ofs addr = 0 -> 0 <= addr < PHYS_BASE ->
  wrap32 (addr + wrap32 (pg_range_num length * PGSIZE)) <= STACK_LIMIT E ->
  file_reopen E file (world s) = (Some file', w') ->
  addr + pg_range_num length * PGSIZE <= 2 ^ 32 ->
  0 <= k < pg_range_num length ->
  (forall j, 0 <= j < k -> cur_supp_pt s !! (addr + j * PGSIZE) = None) ->
  is_Some (cur_supp_pt s !! (addr + k * PGSIZE)) ->
  exists s',
    sys_mmap E fd addr s = Ret tt s'
    /\ eax (tf s') = MAP_FAILED
    /\ cur_supp_pt s' = cur_supp_pt s
    /\ world s' = file_close E file' w'
    /\ filesys_lock s' = None.
Proof.
  intros Hfile Hlock Hlen Hlength Hnull Hofs Haddr Hguard Hreopen Hnowrap Hk Hfresh Hused.
  pose proof (pg_range_num_bounds length Hlength) as (Hnp & Hlast).
  assert (Hpg : PGSIZE = 4096) by reflexivity.
  unfold sys_mmap, bind, query. rewrite Hfile.
  rewrite (lock_acquire_free s Hlock).
  set (s1 := log _ (set_filesys_lock _ s)). change (world s1) with (world s). rewrite Hlen.
  rewrite (lock_release_held s1) by reflexivity.
  set (s2 := log _ (set_filesys_lock None s1)).
  assert (H1 : (length <=? 0) = false) by (apply Z.leb_gt; lia). rewrite H1.
  assert (H2 : (addr =? NULL) = false) by (apply Z.eqb_neq; exact Hnull). rewrite H2.
  rewrite Hofs. cbn [Z.eqb negb orb].
  assert (H3 : is_user_vaddr addr = true) by (apply Z.ltb_lt; lia). rewrite H3.
  cbn [negb].
  assert (H4 : (wrap32 (addr + wrap32 (pg_range_num length * PGSIZE)) >? STACK_LIMIT E) = false).
  { rewrite Z.gtb_ltb. apply Z.ltb_ge. exact Hguard. }
  rewrite H4.
  rewrite (lock_acquire_free s2) by discriminate.
  set (s3 := log _ (set_filesys_lock _ s2)).
  unfold call. change (world s3) with (world s). rewrite Hreopen.
  set (s4 := set_world w' s3).
  rewrite (lock_release_held s4) by reflexivity.
  set (s5 := log _ (set_filesys_lock None s4)).
  destruct (sys_mmap_loop_rollback file' addr addr (cur_supp_pt s)
              (Z.to_nat (pg_range_num length)) 0 length s5 k)
    as (s6 & Hrun & K1 & K2 & K3 & K4).
  - lia.
  - rewrite pg_ofs_mod in Hofs. exact Hofs.
  - lia.
  - rewrite Z2Nat.id by lia. lia.
  - rewrite Z2Nat.id by lia. exact Hk.
  - intros j Hj. rewrite Z.add_0_l. change (cur_supp_pt s5) with (cur_supp_pt s).
    apply Hfresh. exact Hj.
  - rewrite Z.add_0_l. exact Hused.
  - intros j Hj. lia.
  - intros p _. reflexivity.
  - discriminate.
  - rewrite Z.mul_0_l, Z.add_0_r in Hrun. rewrite Hrun.
    assert (Hmf : forall s0 : kernel W,
               return_value MAP_FAILED s0 = Ret tt (set_eax MAP_FAILED s0)) by reflexivity.
    rewrite Hmf. eexists. split; [reflexivity|]. split; [reflexivity|].
    split; [exact K1|]. split; [exact K2|exact K3].
Qed.

End MmapFacts.

(** C4 (the code breaks it).  The claim: [sys_mmap] returns [MAP_FAILED]
    whenever [addr] plus the page-rounded length exceeds [STACK_LIMIT].  The
    guard adds in 32 bits.  For a file of [2 ^ 31 - 1] bytes mapped at
    [0x80000000] the sum is [2 ^ 32], far above the limit, and wraps to 0: the
    guard lets the call through, descriptors are installed up to the last page
    of the address space, and the call returns the address, not
    [MAP_FAILED].  (Without the wrap-around the three parts of the claim hold:
    [sys_mmap_rejects], [sys_mmap_success], [sys_mmap_rolls_back].) *)
Theorem sys_mmap_guard_wraps :
  0x80000000 + pg_range_num (2 ^ 31 - 1) * PGSIZE > STACK_LIMIT toy_externals
  /\ (let r := sys_mmap toy_externals 3 0x80000000 huge_file_state in
      exists s', r = Ret tt s'
        /\ eax (tf s') = 0x80000000 /\ eax (tf s') <> MAP_FAILED
        /\ is_Some (cur_supp_pt s' !! 0xfffff000)).
Proof.
  split; [vm_compute; reflexivity|].
  destruct (sys_mmap_success toy_externals huge_file_state 3 0x80000000 100 100 (2 ^ 31 - 1)
                             (world huge_file_state))
    as (s' & Hrun & Heax & _ & _ & Hpages & _).
  - reflexivity.
  - discriminate.
  - reflexivity.
  - lia.
  - discriminate.
  - reflexivity.
  - unfold PHYS_BASE. lia.
  - vm_compute. discriminate.
  - reflexivity.
  - vm_compute. discriminate.
  - intros k Hk. reflexivity.
  - exists s'. split; [exact Hrun|]. split; [exact Heax|]. split.
    + rewrite Heax. vm_compute. discriminate.
    + specialize (Hpages (pg_range_num (2 ^ 31 - 1) - 1)).
      change (0x80000000 + (pg_range_num (2 ^ 31 - 1) - 1) * PGSIZE) with 0xfffff000 in Hpages.
      rewrite Hpages; [eexists; reflexivity|]. vm_compute. split; [discriminate|reflexivity].
Qed.

(** ** Further facts about the dispatcher, the frame table and the swap manager *)

Section MoreFacts.
Context {W : Type} (E : externals W).

(** A number that is none of the fifteen implemented calls reaches the
    default case of the switch, which ends the process with status -1. *)
Lemma dispatch_unimplemented (syscall_num : Z) (args : list Z) (s : kernel W) :
  syscall_num < SYS_HALT \/ SYS_MUNMAP < syscall_num ->
  dispatch E syscall_num args s
  = Exit (set_thread (cur s) (thread_set_exit_status (-1) (thread_current s)) s).
Proof.
  intros Hnum. unfold dispatch, SYS_HALT, SYS_EXIT, SYS_EXEC, SYS_WAIT, SYS_CREATE,
    SYS_REMOVE, SYS_OPEN, SYS_FILESIZE, SYS_READ, SYS_WRITE, SYS_SEEK, SYS_TELL,
    SYS_CLOSE, SYS_MMAP, SYS_MUNMAP in *.
  repeat match goal with
         | |- context [?a =? ?b] =>
           let H := fresh in
           assert (H : (a =? b) = false) by (apply Z.eqb_neq; lia); rewrite H; clear H
         end.
  reflexivity.
Qed.

(** [frame_alloc] with a free user page and memory for the metadata: the
    page is registered for the running thread, not pinned. *)
Lemma frame_alloc_registers (up kp : Z) (rest : list Z) (s : kernel W) :
  user_pool s = kp :: rest -> kp <> NULL -> kheap s <> 0%nat ->
  exists s', frame_alloc E up s = Ret kp s'
    /\ ftable s' = ftable s ++ [mk_frame kp up (cur s) false]
    /\ user_pool s' = rest.
Proof.
  intros Hpool Hkp Hheap. unfold frame_alloc, palloc_get_page. rewrite Hpool.
  assert (Hn : (kp =? NULL) = false) by (apply Z.eqb_neq; exact Hkp). rewrite Hn.
  cbn [negb]. unfold malloc. cbn [kheap set_user_pool].
  destruct (kheap s) as [|n]; [congruence|].
  eexists. split; [reflexivity|]. split; reflexivity.
Qed.

(** [swap_load_page] away from the slot index [num_swap_slots]: false for a
    larger index and for a slot that is not in use, true for a slot in use,
    whose bit is cleared. *)
Lemma swap_load_page_result (slot page : Z) (s : kernel W) :
  (num_swap_slots s < slot -> swap_load_page slot page s = Ret false s)
  /\ (slot <= num_swap_slots s -> bitmap_test (swap_slots s) slot = Some false ->
      swap_load_page slot page s = Ret false s)
  /\ (slot <= num_swap_slots s -> bitmap_test (swap_slots s) slot = Some true ->
      exists s', swap_load_page slot page s = Ret true s'
        /\ swap_slots s' = <[Z.to_nat slot := false]> (swap_slots s)
        /\ swap_device s' = swap_device s).
Proof.
  unfold swap_load_page. split; [|split].
  - intros H. assert (Hc : (slot >? num_swap_slots s) = true)
      by (rewrite Z.gtb_ltb; apply Z.ltb_lt; exact H).
    rewrite Hc. reflexivity.
  - intros H Hbit. assert (Hc : (slot >? num_swap_slots s) = false)
      by (rewrite Z.gtb_ltb; apply Z.ltb_ge; exact H).
    rewrite Hc, Hbit. reflexivity.
  - intros H Hbit. assert (Hc : (slot >? num_swap_slots s) = false)
      by (rewrite Z.gtb_ltb; apply Z.ltb_ge; exact H).
    rewrite Hc, Hbit. cbn [swap_slots set_mem]. unfold bitmap_set.
    unfold bitmap_test in Hbit.
    destruct ((0 <=? slot) && (slot <? Z.of_nat (length (swap_slots s)))); [|discriminate].
    eexists. split; [reflexivity|]. split; reflexivity.
Qed.
End MoreFacts.

(** ** More about the swap manager *)

Lemma store_bytes_lookup (bs : list Z) (m : gmap Z Z) (a x : Z) :
  store_bytes m a bs !! x
  = if decide (a <= x < a + Z.of_nat (length bs)) then bs !! Z.to_nat (x - a) else m !! x.
Proof.
  revert m a. induction bs as [|b bs IH]; intros m a; cbn [store_bytes length].
  - rewrite decide_False by lia. reflexivity.
  - rewrite IH. destruct (decide (a + 1 <= x < a + 1 + Z.of_nat (length bs))) as [H|H].
    + rewrite decide_True by lia.
      replace (Z.to_nat (x - a)) with (S (Z.to_nat (x - (a + 1)))) by lia. reflexivity.
    + destruct (decide (x = a)) as [->|Hx].
      * rewrite decide_True by lia. rewrite lookup_insert_eq, Z.sub_diag. reflexivity.
      * rewrite decide_False by lia. apply lookup_insert_ne. congruence.
Qed.

Lemma load_bytes_length (m : gmap Z Z) (a : Z) (n : nat) : length (load_bytes m a n) = n.
Proof. revert a. induction n as [|n IH]; intros a; cbn; [reflexivity|]. rewrite IH. reflexivity. Qed.

Lemma load_bytes_lookup (m : gmap Z Z) (a : Z) (n i : nat) :
  (i < n)%nat -> load_bytes m a n !! i = Some (byte_at m (a + Z.of_nat i)).
Proof.
  revert a i. induction n as [|n IH]; intros a i Hi; [lia|].
  cbn [load_bytes]. destruct i as [|i]; cbn.
  - rewrite Z.add_0_r. reflexivity.
  - rewrite IH by lia. f_equal. f_equal. lia.
Qed.

Lemma load_bytes_ext (m m' : gmap Z Z) (a a' : Z) (n : nat) :
  (forall j, 0 <= j < Z.of_nat n -> byte_at m (a + j) = byte_at m' (a' + j)) ->
  load_bytes m a n = load_bytes m' a' n.
Proof.
  revert a a'. induction n as [|n IH]; intros a a' H; cbn [load_bytes]; [reflexivity|].
  f_equal.
  - specialize (H 0). rewrite !Z.add_0_r in H. apply H. lia.
  - apply IH. intros j Hj. specialize (H (j + 1)).
    replace (a + 1 + j) with (a + (j + 1)) by lia.
    replace (a' + 1 + j) with (a' + (j + 1)) by lia. apply H. lia.
Qed.

(** Memory after the sectors [f i] of a device were read to [g i], for the
    [i] of a list, each sector present and of full size. *)
Lemma foldl_block_read_other (d : block) (f g : Z -> Z) (l : list Z) (m : gmap Z Z) (x : Z) :
  (forall i, i ∈ l -> ~ (g i <= x < g i + BLOCK_SECTOR_SIZE)) ->
  (forall i, i ∈ l -> exists data, blk_data d !! f i = Some data
                                    /\ Z.of_nat (length data) = BLOCK_SECTOR_SIZE) ->
  foldl (fun m i => block_read d (f i) m (g i)) m l !! x = m !! x.
Proof.
  revert m. induction l as [|i l IH]; intros m Hx Hd; cbn [foldl]; [reflexivity|].
  rewrite IH.
  - unfold block_read. destruct (Hd i) as (data & Hdata & Hlen); [left|].
    rewrite Hdata. cbn [default from_option id]. rewrite store_bytes_lookup.
    rewrite decide_False; [reflexivity|]. rewrite Hlen. apply Hx. left.
  - intros j Hj. apply Hx. right. exact Hj.
  - intros j Hj. apply Hd. right. exact Hj.
Qed.

Lemma foldl_block_read_at (d : block) (f g : Z -> Z) (l : list Z) (m : gmap Z Z)
      (i : Z) (data : list Z) (x : Z) :
  i ∈ l ->
  (forall a b, a ∈ l -> b ∈ l -> a <> b ->
     g a + BLOCK_SECTOR_SIZE <= g b \/ g b + BLOCK_SECTOR_SIZE <= g a) ->
  (forall j, j ∈ l -> exists dj, blk_data d !! f j = Some dj
                                  /\ Z.of_nat (length dj) = BLOCK_SECTOR_SIZE) ->
  blk_data d !! f i = Some data ->
  g i <= x < g i + BLOCK_SECTOR_SIZE ->
  foldl (fun m i => block_read d (f i) m (g i)) m l !! x = data !! Z.to_nat (x - g i).
Proof.
  revert m. induction l as [|j l IH]; intros m Hi Hsep Hd Hdata Hx; [inversion Hi|].
  cbn [foldl].
  destruct (decide (i ∈ l)) as [Hil|Hnil].
  - apply IH; try assumption.
    + intros a b Ha Hb. apply Hsep; right; assumption.
    + intros k Hk. apply Hd. right. exact Hk.
  - apply elem_of_cons in Hi as [->|Hi]; [|contradiction].
    rewrite foldl_block_read_other.
    + unfold block_read. rewrite Hdata. cbn [default from_option id].
      rewrite store_bytes_lookup. destruct (Hd j) as (dj & Hdj & Hlen); [left|].
      rewrite Hdata in Hdj. injection Hdj as <-.
      rewrite decide_True by (rewrite Hlen; exact Hx). reflexivity.
    + intros k Hk Hin. assert (Hne : j <> k) by (intros ->; contradiction).
      destruct (Hsep j k) as [H|H]; [left|right; exact Hk|exact Hne| |]; lia.
    + intros k Hk. apply Hd. right. exact Hk.
Qed.

Section SwapMore.
Context {W : Type} (E : externals W).

(** What a successful [swap_write_page] did. *)
Lemma swap_write_page_ret (s s1 : kernel W) (page idx : Z) :
  swap_write_page E page s = Ret idx s1 ->
  first_free (swap_slots s) idx
  /\ swap_slots s1 = <[Z.to_nat idx := true]> (swap_slots s)
  /\ mem s1 = mem s /\ num_swap_slots s1 = num_swap_slots s
  /\ blk_size (swap_device s1) = blk_size (swap_device s).
Proof.
  unfold swap_write_page, bitmap_scan_and_flip.
  destruct (bitmap_scan_from (swap_slots s) 0 false) as [i|] eqn:Hscan.
  - cbv zeta. destruct (i =? BITMAP_ERROR); [discriminate|].
    intros [= <- <-].
    apply bitmap_scan_from_Some in Hscan as (n & -> & Hn & Hbefore).
    rewrite Z.add_0_l, Nat2Z.id.
    split; [|split; [reflexivity|split; [reflexivity|split; [reflexivity|]]]].
    + split; [lia|]. rewrite Nat2Z.id. split; [exact Hn|]. exact Hbefore.
    + reflexivity.
  - cbv zeta. cbn. discriminate.
Qed.

(** X1.  A page written to swap comes back: after [swap_write_page (page)]
    returned [idx], [swap_load_page (idx, page')] on the same device and
    bitmap, whatever happened to memory in between, returns true, leaves at
    [page'] the [PGSIZE] bytes that were at [page], touches no other memory
    and leaves the bitmap as it was before the write. *)
Theorem swap_round_trip (s s1 s2 : kernel W) (page page' idx : Z) :
  Z.of_nat (length (swap_slots s)) * sectors_per_page <= 2 ^ 32 ->
  Z.of_nat (length (swap_slots s)) <= num_swap_slots s2 ->
  swap_write_page E page s = Ret idx s1 ->
  swap_device s2 = swap_device s1 -> swap_slots s2 = swap_slots s1 ->
  exists s3,
    swap_load_page idx page' s2 = Ret true s3
    /\ load_bytes (mem s3) page' (Z.to_nat PGSIZE) = load_bytes (mem s) page (Z.to_nat PGSIZE)
    /\ (forall x, ~ (page' <= x < page' + PGSIZE) -> mem s3 !! x = mem s2 !! x)
    /\ swap_slots s3 = swap_slots s
    /\ swap_device s3 = swap_device s2.
Proof.
  intros Hsize Hnum Hwrite Hdev Hslots.
  destruct (swap_write_page_ret s s1 page idx Hwrite) as (Hff & Hs1 & _).
  destruct (swap_write_page_first_free E s page idx Hsize Hff)
    as (s1' & Hw' & _ & Hdata & _).
  rewrite Hwrite in Hw'. injection Hw' as <-.
  pose proof Hff as (H0 & Hidx & _).
  assert (Hlen : idx < Z.of_nat (length (swap_slots s))).
  { apply lookup_lt_Some in Hidx. lia. }
  rewrite sectors_per_page_eq in Hsize.
  unfold swap_load_page.
  assert (Hg : (idx >? num_swap_slots s2) = false) by (rewrite Z.gtb_ltb; apply Z.ltb_ge; lia).
  rewrite Hg. unfold bitmap_test, bitmap_set. cbn [swap_slots set_mem].
  rewrite Hslots, Hs1, length_insert.
  assert (Hb : (0 <=? idx) && (idx <? Z.of_nat (length (swap_slots s))) = true).
  { apply andb_true_intro. split; [apply Z.leb_le|apply Z.ltb_lt]; lia. }
  rewrite Hb, list_lookup_insert_eq by lia.
  eexists. split; [reflexivity|].
  unfold set_swap_slots, set_mem. cbn [mem swap_slots swap_device].
  set (f := fun i => wrap32 (idx * sectors_per_page + i)).
  set (g := fun i => page' + i * BLOCK_SECTOR_SIZE).
  assert (Hf : forall i, 0 <= i < 8 -> f i = idx * sectors_per_page + i).
  { intros i Hi. unfold f, wrap32. rewrite sectors_per_page_eq. apply Z.mod_small. lia. }
  assert (Hsec : forall i, i ∈ seqZ 0 sectors_per_page ->
            blk_data (swap_device s2) !! f i
            = Some (load_bytes (mem s) (page + i * BLOCK_SECTOR_SIZE)
                               (Z.to_nat BLOCK_SECTOR_SIZE))).
  { intros i Hi. apply elem_of_seqZ in Hi. rewrite sectors_per_page_eq in Hi.
    rewrite Hf by lia. rewrite Hdev. apply Hdata. rewrite sectors_per_page_eq. lia. }
  assert (Hfull : forall i, i ∈ seqZ 0 sectors_per_page ->
            exists data, blk_data (swap_device s2) !! f i = Some data
                         /\ Z.of_nat (length data) = BLOCK_SECTOR_SIZE).
  { intros i Hi. eexists. split; [apply Hsec; exact Hi|].
    rewrite load_bytes_length. reflexivity. }
  assert (Hbs : BLOCK_SECTOR_SIZE = 512) by reflexivity.
  assert (Hpg : PGSIZE = 4096) by reflexivity.
  split; [|split; [|split]].
  - apply load_bytes_ext. intros j Hj. rewrite Z2Nat.id in Hj by (rewrite Hpg; lia).
    rewrite Hpg in Hj.
    pose proof (Z.div_mod j 512) as Hdm. pose proof (Z.mod_pos_bound j 512) as Hr.
    set (i := j / 512) in *. set (r := j mod 512) in *.
    assert (Hi : 0 <= i < 8).
    { unfold i. split; [apply Z.div_pos; lia|apply Z.div_lt_upper_bound; lia]. }
    assert (Hin : i ∈ seqZ 0 sectors_per_page).
    { apply elem_of_seqZ. rewrite sectors_per_page_eq. lia. }
    unfold byte_at at 1.
    rewrite (foldl_block_read_at (swap_device s2) f g (seqZ 0 sectors_per_page) (mem s2) i
               (load_bytes (mem s) (page + i * BLOCK_SECTOR_SIZE) (Z.to_nat BLOCK_SECTOR_SIZE))).
    + unfold g. rewrite Hbs.
      replace (Z.to_nat (page' + j - (page' + i * 512))) with (Z.to_nat r) by lia.
      rewrite load_bytes_lookup by lia. cbn [default from_option id].
      f_equal. lia.
    + exact Hin.
    + intros a b Ha Hb' Hne. unfold g. rewrite Hbs. lia.
    + exact Hfull.
    + apply Hsec. exact Hin.
    + unfold g. rewrite Hbs. lia.
  - intros x Hx. apply foldl_block_read_other; [|exact Hfull].
    intros i Hi. apply elem_of_seqZ in Hi. rewrite sectors_per_page_eq in Hi.
    unfold g. rewrite Hbs. rewrite Hpg in Hx. lia.
  - rewrite list_insert_insert_eq. apply list_insert_id. exact Hidx.
  - reflexivity.
Qed.

(** X3.  Two pages written to swap one after the other get different slots,
    both marked used, and the second write leaves the sectors of the first
    page as they were written. *)
Theorem swap_slots_are_exclusive (s s1 s2 : kernel W) (p q i j : Z) :
  Z.of_nat (length (swap_slots s)) * sectors_per_page <= 2 ^ 32 ->
  swap_write_page E p s = Ret i s1 ->
  swap_write_page E q s1 = Ret j s2 ->
  i <> j
  /\ swap_slots s2 !! Z.to_nat i = Some true
  /\ swap_slots s2 !! Z.to_nat j = Some true
  /\ forall k, 0 <= k < sectors_per_page ->
       blk_data (swap_device s2) !! (i * sectors_per_page + k)
       = Some (load_bytes (mem s) (p + k * BLOCK_SECTOR_SIZE) (Z.to_nat BLOCK_SECTOR_SIZE)).
Proof.
  intros Hsize Hw1 Hw2.
  destruct (swap_write_page_ret s s1 p i Hw1) as (Hff1 & Hs1 & Hm1 & _).
  destruct (swap_write_page_ret s1 s2 q j Hw2) as (Hff2 & Hs2 & _).
  destruct (swap_write_page_first_free E s p i Hsize Hff1) as (s1' & Hw1' & _ & Hdata1 & _).
  rewrite Hw1 in Hw1'. injection Hw1' as <-.
  assert (Hsize1 : Z.of_nat (length (swap_slots s1)) * sectors_per_page <= 2 ^ 32)
    by (rewrite Hs1, length_insert; exact Hsize).
  destruct (swap_write_page_first_free E s1 q j Hsize1 Hff2) as (s2' & Hw2' & _ & _ & Hother & _).
  rewrite Hw2 in Hw2'. injection Hw2' as <-.
  destruct Hff1 as (Hi0 & Hi & _). destruct Hff2 as (Hj0 & Hj & _).
  assert (Hil : (Z.to_nat i < length (swap_slots s))%nat) by (apply lookup_lt_Some in Hi; exact Hi).
  assert (Hne : i <> j).
  { intros ->. rewrite Hs1, list_lookup_insert_eq in Hj by exact Hil. discriminate. }
  split; [exact Hne|]. split; [|split].
  - rewrite Hs2, list_lookup_insert_ne by lia. rewrite Hs1. apply list_lookup_insert_eq. exact Hil.
  - rewrite Hs2. apply list_lookup_insert_eq. apply lookup_lt_Some in Hj. exact Hj.
  - intros k Hk. rewrite Hother; [apply Hdata1; exact Hk|].
    rewrite sectors_per_page_eq in *. lia.
Qed.

Lemma swap_write_pages_fill (pages : list Z) (k : nat) (s : kernel W) :
  swap_slots s = replicate k true ++ replicate (length pages) false ->
  Z.of_nat (k + length pages) * sectors_per_page <= 2 ^ 32 ->
  exists s', swap_write_pages E pages s = Ret (seqZ (Z.of_nat k) (Z.of_nat (length pages))) s'
             /\ swap_slots s' = replicate (k + length pages) true.
Proof.
  revert k s. induction pages as [|page pages IH]; intros k s Hslots Hsize.
  - exists s. split; [reflexivity|]. rewrite Hslots. cbn [length replicate].
    rewrite app_nil_r, Nat.add_0_r. reflexivity.
  - cbn [swap_write_pages length] in *. unfold bind.
    assert (Hff : first_free (swap_slots s) (Z.of_nat k)).
    { unfold first_free. rewrite Hslots, Nat2Z.id. split; [lia|]. split.
      - rewrite lookup_app_r by (rewrite length_replicate; lia).
        rewrite length_replicate, Nat.sub_diag. reflexivity.
      - intros j Hj. rewrite lookup_app_l by (rewrite length_replicate; lia).
        apply lookup_replicate_2. exact Hj. }
    destruct (swap_write_page_first_free E s page (Z.of_nat k)) as (s1 & Hw & Hs1 & _).
    { rewrite Hslots, length_app, !length_replicate. cbn [length]. exact Hsize. }
    { exact Hff. }
    rewrite Hw.
    destruct (IH (S k) s1) as (s' & Hrun & Hs').
    + rewrite Hs1, Hslots, Nat2Z.id.
      replace k with (length (replicate k true) + 0)%nat at 1
        by (rewrite length_replicate; lia).
      rewrite insert_app_r.
      change (<[0%nat:=true]> (replicate (S (length pages)) false))
        with (true :: replicate (length pages) false).
      rewrite replicate_S_end, <- app_assoc. reflexivity.
    + replace (S k + length pages)%nat with (k + S (length pages))%nat by lia. exact Hsize.
    + rewrite Hrun. cbn [ret]. exists s'. split.
      * f_equal. rewrite (seqZ_cons (Z.of_nat k)) by lia. f_equal. f_equal; lia.
      * rewrite Hs'. f_equal. lia.
Qed.

(** X2.  The swap area holds exactly [block_size / sectors_per_page] pages:
    after [swap_init], that many calls of [swap_write_page] return the slots
    0, 1, 2, ... in order, and one more call panics with "swap is full". *)
Theorem swap_capacity (dev : block) (s0 : kernel W) (pages : list Z) (page : Z) :
  kheap s0 <> 0%nat ->
  0 <= block_size dev < 2 ^ 32 ->
  Z.of_nat (length pages) = block_size dev / sectors_per_page ->
  exists s1 s2,
    swap_init (Some dev) s0 = Ret tt s1
    /\ swap_write_pages E pages s1 = Ret (seqZ 0 (Z.of_nat (length pages))) s2
    /\ swap_write_page E page s2 = Panic "swap is full".
Proof.
  intros Hheap Hsize Hlen.
  destruct (swap_init_ok dev s0 Hheap) as (s1 & Hinit & _ & Hslots).
  destruct (swap_write_pages_fill pages 0 s1) as (s2 & Hrun & Hfull).
  - rewrite Hslots, <- Hlen, Nat2Z.id. reflexivity.
  - rewrite Nat.add_0_l, Hlen, sectors_per_page_eq.
    pose proof (Z.mul_div_le (block_size dev) 8). lia.
  - exists s1, s2. split; [exact Hinit|]. split; [exact Hrun|].
    apply swap_write_page_full. intros j Hj. rewrite Hfull in Hj.
    apply lookup_replicate in Hj as [? _]. discriminate.
Qed.

(** X4.  [swap_load_page] of a slot in use returns true, leaves the device
    alone and releases the slot: a second load of the same slot returns
    false and changes nothing. *)
Theorem swap_load_page_releases (s : kernel W) (slot page page2 : Z) :
  slot <= num_swap_slots s ->
  bitmap_test (swap_slots s) slot = Some true ->
  exists s1,
    swap_load_page slot page s = Ret true s1
    /\ swap_device s1 = swap_device s
    /\ bitmap_test (swap_slots s1) slot = Some false
    /\ swap_load_page slot page2 s1 = Ret false s1.
Proof.
  intros Hnum Hbit.
  destruct (proj2 (proj2 (swap_load_page_result slot page s)) Hnum Hbit)
    as (s1 & Hload & Hslots & Hdev).
  assert (Hn1 : num_swap_slots s1 = num_swap_slots s).
  { unfold swap_load_page in Hload.
    assert (Hc : (slot >? num_swap_slots s) = false) by (rewrite Z.gtb_ltb; apply Z.ltb_ge; lia).
    rewrite Hc, Hbit in Hload. cbn [swap_slots set_mem] in Hload.
    destruct (bitmap_set (swap_slots s) slot false); [|discriminate].
    injection Hload as <-. reflexivity. }
  assert (Hbit1 : bitmap_test (swap_slots s1) slot = Some false).
  { unfold bitmap_test in *. rewrite Hslots, length_insert.
    destruct ((0 <=? slot) && (slot <? Z.of_nat (length (swap_slots s)))) eqn:Hb;
      [|discriminate].
    apply list_lookup_insert_eq. apply lookup_lt_Some in Hbit. exact Hbit. }
  exists s1. split; [exact Hload|]. split; [exact Hdev|]. split; [exact Hbit1|].
  apply (proj1 (proj2 (swap_load_page_result slot page2 s1))); [lia|exact Hbit1].
Qed.
End SwapMore.

(** ** More about the frame table *)

Section ClockFacts.
Context {W : Type} (E : externals W).

Lemma frame_accessed_other_page (s : kernel W) (fr g : frame) (t : thread) (l : list frame) :
  threads s !! f_t fr = Some t ->
  frame_page fr <> frame_page g ->
  frame_accessed
    (set_ftable l
       (set_thread (f_t fr)
          (thread_set_pagedir (pagedir_set_accessed (pagedir t) (f_upage fr) false) t) s)) g
  = frame_accessed s g.
Proof.
  intros Ht Hne. rewrite (frame_accessed_after_pass s fr g t l Ht).
  rewrite decide_False; [reflexivity|].
  intros [H1 H2]. apply Hne. unfold frame_page. rewrite H1, H2. reflexivity.
Qed.

(** The clock hand passes the accessed frames at the front of the table. *)
Lemma frame_evict_loop_pass (passed later : list frame) (fuel : nat) (s : kernel W) :
  ftable s = passed ++ later ->
  NoDup (map frame_page (passed ++ later)) ->
  (forall g, g ∈ passed -> frame_accessed s g = true) ->
  exists s',
    frame_evict_loop (length passed + fuel) s = frame_evict_loop fuel s'
    /\ ftable s' = later ++ passed
    /\ (forall g, g ∈ passed -> frame_accessed s' g = false)
    /\ (forall g, g ∈ later -> frame_accessed s' g = frame_accessed s g)
    /\ (forall tid, supp_pt <$> threads s' !! tid = supp_pt <$> threads s !! tid)
    /\ swap_slots s' = swap_slots s /\ swap_device s' = swap_device s
    /\ num_swap_slots s' = num_swap_slots s
    /\ mem s' = mem s /\ world s' = world s /\ klog s' = klog s.
Proof.
  revert later s. induction passed as [|g passed IH]; intros later s Hft Hnd Hacc.
  - exists s. split; [reflexivity|]. rewrite app_nil_r. split; [exact Hft|].
    split; [intros g Hg; inversion Hg|]. repeat split; reflexivity.
  - cbn [length Nat.add frame_evict_loop]. rewrite Hft. cbn [app].
    assert (Hg : frame_accessed s g = true) by (apply Hacc; left).
    unfold frame_accessed in Hg.
    destruct (threads s !! f_t g) as [t|] eqn:Ht; [|discriminate].
    rewrite Hg.
    set (s2 := set_ftable _ _).
    cbn [map app] in Hnd. apply NoDup_cons in Hnd as [Hnot Hnd].
    assert (Hother : forall h, h ∈ passed ++ later -> frame_page g <> frame_page h).
    { intros h Hh Heq. apply Hnot. rewrite Heq. apply list_elem_of_fmap_2. exact Hh. }
    destruct (IH (later ++ [g]) s2) as (s' & Hrun & Hft' & Hcl & Hsame & Hs & Hrest).
    + unfold s2. cbn [ftable set_ftable]. rewrite app_assoc. reflexivity.
    + rewrite app_assoc, map_app. cbn [map].
      apply NoDup_app. split; [exact Hnd|]. split.
      * intros x Hx Hx'. apply list_elem_of_singleton in Hx'. subst x. contradiction.
      * apply NoDup_singleton.
    + intros h Hh. unfold s2. rewrite (frame_accessed_other_page s g h t _ Ht).
      * apply Hacc. right. exact Hh.
      * apply Hother. apply elem_of_app. left. exact Hh.
    + exists s'. split; [exact Hrun|]. split; [rewrite Hft', <- app_assoc; reflexivity|].
      split; [|split; [|split]].
      * intros h Hh. apply elem_of_cons in Hh as [->|Hh]; [|apply Hcl; exact Hh].
        rewrite Hsame by (apply elem_of_app; right; left).
        unfold s2. rewrite (frame_accessed_after_pass s g g t _ Ht).
        rewrite decide_True by (split; reflexivity). reflexivity.
      * intros h Hh. rewrite Hsame by (apply elem_of_app; left; exact Hh).
        unfold s2. apply (frame_accessed_other_page s g h t _ Ht).
        apply Hother. apply elem_of_app. right. exact Hh.
      * intros tid. rewrite Hs. unfold s2, set_ftable, set_thread, set_threads.
        cbn [threads]. destruct (decide (f_t g = tid)) as [<-|Hn].
        -- rewrite lookup_insert_eq, Ht. reflexivity.
        -- rewrite lookup_insert_ne by exact Hn. reflexivity.
      * destruct Hrest as (H1 & H2 & H3 & H4 & H5 & H6). repeat split; assumption.
Qed.

(** A frame whose accessed bit is clear at the front of the table is the
    victim; its mapping is cleared. *)
Lemma frame_evict_loop_front (fuel : nat) (fr : frame) (rest : list frame) (t : thread)
      (s : kernel W) :
  ftable s = fr :: rest -> threads s !! f_t fr = Some t ->
  frame_accessed s fr = false ->
  frame_evict_loop (S fuel) s
  = Ret fr (set_ftable rest
              (set_thread (f_t fr)
                 (thread_set_pagedir (pagedir_clear_page (pagedir t) (f_upage fr)) t) s)).
Proof.
  intros Hft Ht Hacc. cbn [frame_evict_loop]. rewrite Hft, Ht.
  unfold frame_accessed in Hacc. rewrite Ht in Hacc. rewrite Hacc. reflexivity.
Qed.

Lemma frame_accessed_after_clear (s : kernel W) (fr g : frame) (t : thread) (l : list frame) :
  threads s !! f_t fr = Some t ->
  frame_page fr <> frame_page g ->
  frame_accessed
    (set_ftable l
       (set_thread (f_t fr)
          (thread_set_pagedir (pagedir_clear_page (pagedir t) (f_upage fr)) t) s)) g
  = frame_accessed s g.
Proof.
  intros Ht Hne. unfold frame_accessed, set_ftable, set_thread, set_threads. cbn [threads].
  destruct (decide (f_t fr = f_t g)) as [Heq|Hn].
  - rewrite <- Heq, lookup_insert_eq, Ht. cbn [pagedir thread_set_pagedir].
    unfold pagedir_is_accessed, pagedir_clear_page. rewrite lookup_delete_ne; [reflexivity|].
    intros Hu. apply Hne. unfold frame_page. rewrite Heq, Hu. reflexivity.
  - rewrite lookup_insert_ne by exact Hn. reflexivity.
Qed.

(** The part of [frame_evict] after its loop. *)
Lemma frame_evict_after_loop (s s1 : kernel W) (fr : frame) (t : thread) (pte : supp_pte)
      (slot : Z) :
  frame_evict_loop (S (length (ftable s))) s = Ret fr s1 ->
  threads s1 !! f_t fr = Some t ->
  supp_pt t !! pg_round_down (f_upage fr) = Some pte ->
  first_free (swap_slots s1) slot ->
  Z.of_nat (length (swap_slots s1)) * sectors_per_page <= 2 ^ 32 ->
  exists s',
    frame_evict E s = Ret fr s'
    /\ ftable s' = ftable s1
    /\ (forall tid, pagedir <$> threads s' !! tid = pagedir <$> threads s1 !! tid)
    /\ (forall x, ~ (f_kpage fr <= x < f_kpage fr + PGSIZE) -> mem s' !! x = mem s1 !! x)
    /\ load_bytes (mem s') (f_kpage fr) (Z.to_nat PGSIZE) = replicate (Z.to_nat PGSIZE) 0xcc
    /\ world s' = putbuf E (printf_line "free_slot_index " slot) (world s1)
    /\ klog s' = klog s1 ++ [EvPutbuf (printf_line "free_slot_index " slot)]
    /\ cur s' = cur s1
    /\ user_pool s' = user_pool s1 /\ kheap s' = kheap s1.
Proof.
  intros Hloop Ht Hpte Hff Hsize.
  destruct (swap_write_page_first_free E s1 (f_kpage fr) slot Hsize Hff)
    as (s2 & Hw & _ & _ & _ & Hthr & Hft & Hmem & Hworld & Hlog & Hcur).
  unfold frame_evict, bind. rewrite Hloop, Ht. unfold supp_pte_lookup. rewrite Hpte, Hw.
  eexists. split; [reflexivity|].
  unfold set_mem, set_thread, set_threads.
  cbn [ftable threads mem world klog cur user_pool kheap NDEBUG].
  split; [exact Hft|]. split.
  { intros tid. rewrite Hthr. destruct (decide (f_t fr = tid)) as [<-|Hn].
    - rewrite lookup_insert_eq, Ht. reflexivity.
    - rewrite lookup_insert_ne by exact Hn. reflexivity. }
  split.
  { intros x Hx. unfold memset. rewrite !store_bytes_lookup, !length_replicate.
    rewrite !decide_False by lia. rewrite Hmem. reflexivity. }
  split.
  { apply list_eq. intros i.
    destruct (decide (i < Z.to_nat PGSIZE)%nat) as [Hi|Hi].
    - rewrite load_bytes_lookup, lookup_replicate_2 by exact Hi. f_equal.
      unfold byte_at, memset. rewrite store_bytes_lookup, length_replicate.
      rewrite decide_True by lia.
      rewrite lookup_replicate_2 by lia. reflexivity.
    - rewrite (lookup_ge_None_2 (load_bytes _ _ _)) by (rewrite load_bytes_length; lia).
      rewrite lookup_ge_None_2 by (rewrite length_replicate; lia). reflexivity. }
  split; [exact Hworld|]. split; [exact Hlog|]. split; [exact Hcur|].
  unfold swap_write_page, bitmap_scan_and_flip in Hw.
  destruct (bitmap_scan_from (swap_slots s1) 0 false); cbv zeta in Hw.
  - destruct (_ =? BITMAP_ERROR); [discriminate|]. injection Hw as _ <-. split; reflexivity.
  - cbn in Hw. discriminate.
Qed.

Lemma frame_accessed_pagedir_ext (a b : kernel W) (g : frame) :
  (forall tid, pagedir <$> threads a !! tid = pagedir <$> threads b !! tid) ->
  frame_accessed a g = frame_accessed b g.
Proof.
  intros H. unfold frame_accessed. specialize (H (f_t g)).
  destruct (threads a !! f_t g), (threads b !! f_t g); cbn in H; try discriminate;
    [injection H as ->|]; reflexivity.
Qed.

Lemma described_thread (s s' : kernel W) (fr : frame) :
  frames_described s -> fr ∈ ftable s ->
  (forall tid, supp_pt <$> threads s' !! tid = supp_pt <$> threads s !! tid) ->
  exists t pte, threads s' !! f_t fr = Some t
                /\ supp_pt t !! pg_round_down (f_upage fr) = Some pte.
Proof.
  intros Hdesc Hin Hs. destruct (Hdesc fr Hin) as (t0 & Ht0 & [pte Hpte]).
  specialize (Hs (f_t fr)). rewrite Ht0 in Hs.
  destruct (threads s' !! f_t fr) as [t|]; [|discriminate].
  injection Hs as Hs. exists t, pte. split; [reflexivity|]. rewrite Hs. exact Hpte.
Qed.

(** X5.  Second chance: when the frames of the table describe different
    pages, the frames [passed] at the front all have their accessed bit set
    and the next frame [fr] has it clear, [frame_evict] returns [fr]; the
    passed frames are moved behind the others with their accessed bits
    cleared, the bits of the frames behind [fr] are left alone, and the page
    of [fr] is no longer mapped. *)
Theorem frame_evict_second_chance (s : kernel W) (passed rest : list frame) (fr : frame)
        (slot : Z) :
  ftable s = passed ++ fr :: rest ->
  NoDup (map frame_page (ftable s)) ->
  (forall g, g ∈ passed -> frame_accessed s g = true) ->
  frame_accessed s fr = false ->
  frames_described s ->
  first_free (swap_slots s) slot ->
  Z.of_nat (length (swap_slots s)) * sectors_per_page <= 2 ^ 32 ->
  exists s',
    frame_evict E s = Ret fr s'
    /\ ftable s' = rest ++ passed
    /\ (forall g, g ∈ passed -> frame_accessed s' g = false)
    /\ (forall g, g ∈ rest -> frame_accessed s' g = frame_accessed s g)
    /\ (t ← threads s' !! f_t fr; pagedir t !! f_upage fr) = None.
Proof.
  intros Hft Hnd Hacc Hfr Hdesc Hff Hsize.
  rewrite Hft in Hnd.
  destruct (frame_evict_loop_pass passed (fr :: rest) (S (S (length rest))) s Hft Hnd Hacc)
    as (sp & Hpass & Hftp & Hcl & Hsame & Hs & Hslots & _ & _ & _).
  assert (Hin : fr ∈ ftable s) by (rewrite Hft; apply elem_of_app; right; left).
  destruct (described_thread s sp fr Hdesc Hin Hs) as (t & pte & Ht & Hpte).
  assert (Hfrp : frame_accessed sp fr = false) by (rewrite Hsame by left; exact Hfr).
  cbn [app] in Hftp.
  rewrite (frame_evict_loop_front (S (length rest)) fr (rest ++ passed) t sp Hftp Ht Hfrp)
    in Hpass.
  set (s1 := set_ftable _ _) in Hpass.
  assert (Hfuel : S (length (ftable s)) = (length passed + S (S (length rest)))%nat).
  { rewrite Hft, length_app. cbn [length]. lia. }
  rewrite <- Hfuel in Hpass.
  assert (Hother : forall g, g ∈ passed ++ rest -> frame_page fr <> frame_page g).
  { intros g Hg Heq. rewrite map_app in Hnd. cbn [map] in Hnd.
    apply NoDup_app in Hnd as (_ & Hdis & Hnd2). apply NoDup_cons in Hnd2 as [Hnot _].
    apply elem_of_app in Hg as [Hg|Hg].
    - apply (Hdis (frame_page g)); [apply list_elem_of_fmap_2; exact Hg|].
      rewrite <- Heq. left.
    - apply Hnot. rewrite Heq. apply list_elem_of_fmap_2. exact Hg. }
  destruct (frame_evict_after_loop s s1 fr
              (thread_set_pagedir (pagedir_clear_page (pagedir t) (f_upage fr)) t) pte slot)
    as (s' & Hev & Hft' & Hpd & _).
  - exact Hpass.
  - unfold s1, set_ftable, set_thread, set_threads. cbn [threads]. apply lookup_insert_eq.
  - exact Hpte.
  - change (swap_slots s1) with (swap_slots sp). rewrite Hslots. exact Hff.
  - change (swap_slots s1) with (swap_slots sp). rewrite Hslots. exact Hsize.
  - exists s'. split; [exact Hev|]. split; [exact Hft'|]. split; [|split].
    + intros g Hg. rewrite (frame_accessed_pagedir_ext s' s1 g Hpd). unfold s1.
      rewrite (frame_accessed_after_clear sp fr g t _ Ht); [apply Hcl; exact Hg|].
      apply Hother. apply elem_of_app. left. exact Hg.
    + intros g Hg. rewrite (frame_accessed_pagedir_ext s' s1 g Hpd). unfold s1.
      rewrite (frame_accessed_after_clear sp fr g t _ Ht).
      * apply Hsame. right. exact Hg.
      * apply Hother. apply elem_of_app. right. exact Hg.
    + specialize (Hpd (f_t fr)). unfold s1 at 1 in Hpd.
      unfold set_ftable, set_thread, set_threads in Hpd. cbn [threads] in Hpd.
      rewrite lookup_insert_eq in Hpd. cbn in Hpd.
      destruct (threads s' !! f_t fr) as [t'|]; [|reflexivity].
      injection Hpd as Hpd. cbn [mbind option_bind]. rewrite Hpd.
      unfold pagedir_clear_page. apply lookup_delete_eq.
Qed.

(** X6.  When every frame of the table has its accessed bit set,
    [frame_evict] goes once round the table and returns the frame that was at
    the front; the other frames keep their order and all have their accessed
    bit cleared. *)
Theorem frame_evict_all_accessed (s : kernel W) (fr : frame) (rest : list frame) (slot : Z) :
  ftable s = fr :: rest ->
  NoDup (map frame_page (ftable s)) ->
  (forall g, g ∈ ftable s -> frame_accessed s g = true) ->
  frames_described s ->
  first_free (swap_slots s) slot ->
  Z.of_nat (length (swap_slots s)) * sectors_per_page <= 2 ^ 32 ->
  exists s',
    frame_evict E s = Ret fr s'
    /\ ftable s' = rest
    /\ (forall g, g ∈ rest -> frame_accessed s' g = false).
Proof.
  intros Hft Hnd Hacc Hdesc Hff Hsize.
  assert (Hft0 : ftable s = (fr :: rest) ++ []) by (rewrite app_nil_r; exact Hft).
  assert (Hnd0 : NoDup (map frame_page ((fr :: rest) ++ [])))
    by (rewrite app_nil_r, <- Hft; exact Hnd).
  assert (Hacc0 : forall g, g ∈ fr :: rest -> frame_accessed s g = true)
    by (intros g Hg; apply Hacc; rewrite Hft; exact Hg).
  destruct (frame_evict_loop_pass (fr :: rest) [] 1 s Hft0 Hnd0 Hacc0)
    as (sp & Hpass & Hftp & Hcl & _ & Hs & Hslots & _ & _ & _).
  cbn [app] in Hftp.
  assert (Hin : fr ∈ ftable s) by (rewrite Hft; left).
  destruct (described_thread s sp fr Hdesc Hin Hs) as (t & pte & Ht & Hpte).
  rewrite (frame_evict_loop_front 0 fr rest t sp Hftp Ht) in Hpass by (apply Hcl; left).
  set (s1 := set_ftable _ _) in Hpass.
  assert (Hfuel : S (length (ftable s)) = (length (fr :: rest) + 1)%nat)
    by (rewrite Hft; cbn [length]; lia).
  rewrite <- Hfuel in Hpass.
  destruct (frame_evict_after_loop s s1 fr
              (thread_set_pagedir (pagedir_clear_page (pagedir t) (f_upage fr)) t) pte slot)
    as (s' & Hev & Hft' & Hpd & _).
  - exact Hpass.
  - unfold s1, set_ftable, set_thread, set_threads. cbn [threads]. apply lookup_insert_eq.
  - exact Hpte.
  - change (swap_slots s1) with (swap_slots sp). rewrite Hslots. exact Hff.
  - change (swap_slots s1) with (swap_slots sp). rewrite Hslots. exact Hsize.
  - exists s'. split; [exact Hev|]. split; [exact Hft'|].
    intros g Hg. rewrite (frame_accessed_pagedir_ext s' s1 g Hpd). unfold s1.
    rewrite (frame_accessed_after_clear sp fr g t _ Ht); [apply Hcl; right; exact Hg|].
    intros Heq. rewrite Hft in Hnd. cbn [map] in Hnd. apply NoDup_cons in Hnd as [Hnot _].
    apply Hnot. rewrite Heq. apply list_elem_of_fmap_2. exact Hg.
Qed.

Lemma frame_evict_loop_perm (fuel : nat) (s s1 : kernel W) (fr : frame) :
  frame_evict_loop fuel s = Ret fr s1 ->
  fr :: ftable s1 ≡ₚ ftable s
  /\ cur s1 = cur s /\ user_pool s1 = user_pool s /\ kheap s1 = kheap s.
Proof.
  revert s. induction fuel as [|fuel IH]; intros s H; [discriminate|].
  cbn [frame_evict_loop] in H.
  destruct (ftable s) as [|g rest] eqn:Hft; [discriminate|].
  destruct (threads s !! f_t g) as [t|]; [|discriminate].
  destruct (pagedir_is_accessed (pagedir t) (f_upage g)).
  - apply IH in H as (Hp & Hc & Hu & Hk).
    unfold set_ftable, set_thread, set_threads in Hp, Hc, Hu, Hk.
    cbn [ftable cur user_pool kheap] in Hp, Hc, Hu, Hk.
    repeat split; try assumption.
    rewrite Hp. rewrite Permutation_app_comm. reflexivity.
  - injection H as <- <-. unfold set_ftable, set_thread, set_threads.
    cbn [ftable cur user_pool kheap]. repeat split; reflexivity.
Qed.

(** X7.  With the user pool exhausted, [frame_alloc] returns the kernel page
    of a frame it evicted: the table holds the other frames and a new entry
    for that page, last, for [upage] and the running thread and not pinned;
    the page is filled with the fill byte, no other memory is written, and
    nothing is taken from the kernel heap. *)
Theorem frame_alloc_evicts (up slot : Z) (s : kernel W) :
  user_pool s = [] ->
  ftable s <> [] ->
  frames_described s ->
  first_free (swap_slots s) slot ->
  Z.of_nat (length (swap_slots s)) * sectors_per_page <= 2 ^ 32 ->
  exists fr others s',
    frame_alloc E up s = Ret (f_kpage fr) s'
    /\ ftable s ≡ₚ fr :: others
    /\ ftable s' ≡ₚ mk_frame (f_kpage fr) up (cur s) false :: others
    /\ last (ftable s') = Some (mk_frame (f_kpage fr) up (cur s) false)
    /\ load_bytes (mem s') (f_kpage fr) (Z.to_nat PGSIZE)
       = replicate (Z.to_nat PGSIZE) (if NDEBUG then 0 else 0xcc)
    /\ (forall x, ~ (f_kpage fr <= x < f_kpage fr + PGSIZE) -> mem s' !! x = mem s !! x)
    /\ user_pool s' = [] /\ kheap s' = kheap s.
Proof.
  intros Hpool Hne Hdesc Hff Hsize.
  destruct (frame_evict_loop_total (S (length (ftable s))) s Hne Hdesc)
    as (fr & s1 & Hloop & Hin & Hs & Hslots & _ & Hmem & _ & _).
  { pose proof (filter_length_le (frame_accessed s) (ftable s)). lia. }
  destruct (frame_evict_loop_perm _ _ _ _ Hloop) as (Hperm & Hcur & Hup & Hkh).
  destruct (described_thread s s1 fr Hdesc Hin Hs) as (t & pte & Ht & Hpte).
  destruct (frame_evict_after_loop s s1 fr t pte slot Hloop Ht Hpte)
    as (s2 & Hev & Hft2 & _ & Hmem2 & Hfill & _ & _ & Hcur2 & Hup2 & Hkh2).
  { rewrite Hslots. exact Hff. }
  { rewrite Hslots. exact Hsize. }
  exists fr, (ftable s1). eexists.
  unfold frame_alloc, palloc_get_page. rewrite Hpool.
  change (negb (NULL =? NULL)) with false. cbv iota. unfold bind. rewrite Hev.
  split; [reflexivity|]. unfold set_ftable. cbn [ftable mem user_pool kheap f_kpage].
  rewrite Hft2, Hcur2, Hcur, Hup2, Hup, Hkh2, Hkh.
  split; [symmetry; exact Hperm|].
  split; [rewrite Permutation_app_comm; reflexivity|].
  split; [apply last_snoc|].
  split; [exact Hfill|].
  split; [|split; [exact Hpool|reflexivity]].
  intros x Hx. rewrite (Hmem2 x Hx), Hmem. reflexivity.
Qed.

Lemma frame_alloc_from_pool (up kp : Z) (rest : list Z) (n : nat) (s : kernel W) :
  user_pool s = kp :: rest -> kp <> NULL -> kheap s = S n ->
  frame_alloc E up s
  = Ret kp (set_ftable (ftable s ++ [mk_frame kp up (cur s) false])
              (set_kheap n (set_user_pool rest s))).
Proof.
  intros Hpool Hkp Hheap. unfold frame_alloc, palloc_get_page. rewrite Hpool.
  assert (Hn : (kp =? NULL) = false) by (apply Z.eqb_neq; exact Hkp). rewrite Hn.
  cbn [negb]. unfold malloc. cbn [kheap set_user_pool]. rewrite Hheap. reflexivity.
Qed.

(** X8.  [frame_free] gives the page back to the pool and leaves its entry in
    the frame table: allocating again returns the same page and the table
    then has two entries for it. *)
Theorem frame_free_keeps_entry (up up2 kp : Z) (rest : list Z) (s : kernel W) :
  user_pool s = kp :: rest -> kp <> NULL -> (2 <= kheap s)%nat ->
  exists s1 s2 s3,
    frame_alloc E up s = Ret kp s1
    /\ frame_free kp s1 = Ret tt s2
    /\ user_pool s2 = user_pool s
    /\ ftable s2 = ftable s ++ [mk_frame kp up (cur s) false]
    /\ frame_alloc E up2 s2 = Ret kp s3
    /\ ftable s3 = ftable s ++ [mk_frame kp up (cur s) false; mk_frame kp up2 (cur s) false].
Proof.
  intros Hpool Hkp Hheap.
  destruct (kheap s) as [|[|n]] eqn:Hk; [lia|lia|].
  pose proof (frame_alloc_from_pool up kp rest (S n) s Hpool Hkp Hk) as H1.
  set (s1 := set_ftable _ _) in H1.
  set (s2 := palloc_free_page kp s1).
  assert (Hpool2 : user_pool s2 = kp :: rest) by reflexivity.
  assert (Hk2 : kheap s2 = S n) by reflexivity.
  pose proof (frame_alloc_from_pool up2 kp rest n s2 Hpool2 Hkp Hk2) as H3.
  exists s1, s2. eexists.
  split; [exact H1|]. split; [reflexivity|].
  split; [rewrite Hpool; reflexivity|]. split; [reflexivity|].
  split; [exact H3|].
  unfold set_ftable. cbn [ftable]. change (ftable s2) with (ftable s ++ [mk_frame kp up (cur s) false]).
  change (cur s2) with (cur s).
  rewrite <- app_assoc. reflexivity.
Qed.
End ClockFacts.

(** ** More about the validation of user ranges *)

Section GateMore.
Context {W : Type} (E : externals W).

Lemma aligned_step (a b : Z) :
  a mod PGSIZE = 0 -> b mod PGSIZE = 0 -> a < b -> a + PGSIZE <= b.
Proof.
  rewrite PGSIZE_eq. intros Ha Hb Hlt.
  pose proof (Z.div_mod a 4096). pose proof (Z.div_mod b 4096). lia.
Qed.

Lemma aligned_next (a : Z) : a mod PGSIZE = 0 -> (a + PGSIZE) mod PGSIZE = 0.
Proof.
  rewrite PGSIZE_eq. intros Ha.
  replace (a + 4096) with (a + 1 * 4096) by lia. rewrite Z.mod_add by lia. exact Ha.
Qed.

Lemma cur_supp_pt_set_pinned (key : Z) (b : bool) (s : kernel W) :
  cur_supp_pt (set_pinned key b s) = alter (pte_set_pinned b) key (cur_supp_pt s).
Proof. unfold set_pinned. apply cur_supp_pt_set. Qed.

(** The [while] loop of [unpin_range] over the pages from [curr] up to
    [lim], where it stops: at the end of the range, or at a page without
    descriptor. *)
Lemma unpin_range_loop_run (fuel : nat) (end_ptr curr lim : Z) (s : kernel W) :
  curr mod PGSIZE = 0 -> lim mod PGSIZE = 0 -> 0 <= curr <= lim -> end_ptr <= PHYS_BASE ->
  (forall key, key mod PGSIZE = 0 -> curr <= key < lim ->
               key < end_ptr /\ is_Some (cur_supp_pt s !! key)) ->
  end_ptr <= lim \/ cur_supp_pt s !! lim = None ->
  lim - curr < Z.of_nat fuel * PGSIZE ->
  exists s',
    unpin_range_loop fuel end_ptr curr s = Ret (bool_decide (end_ptr <= lim)) s'
    /\ forall key,
         cur_supp_pt s' !! key
         = if bool_decide (key mod PGSIZE = 0 /\ curr <= key < lim)
           then pte_set_pinned false <$> cur_supp_pt s !! key
           else cur_supp_pt s !! key.
Proof.
  revert curr s.
  induction fuel as [|fuel IH]; intros curr s Hc Hl Hcl Hend Hdesc Hstop Hfuel;
    [rewrite PGSIZE_eq in Hfuel; lia|].
  cbn [unpin_range_loop].
  destruct (decide (curr = lim)) as [->|Hne].
  - destruct (decide (end_ptr <= lim)) as [Hle|Hgt].
    + assert (Hlt : (lim <? end_ptr) = false) by (apply Z.ltb_ge; exact Hle).
      rewrite Hlt, bool_decide_eq_true_2 by exact Hle.
      exists s. split; [reflexivity|]. intros key.
      rewrite bool_decide_eq_false_2 by lia. reflexivity.
    + destruct Hstop as [Hle|Hnone]; [contradiction|].
      assert (Hlt : (lim <? end_ptr) = true) by (apply Z.ltb_lt; lia).
      rewrite Hlt, bool_decide_eq_false_2 by exact Hgt.
      unfold bind, unpin_ptr, supp_pt_lookup.
      rewrite pg_round_down_page by (unfold PHYS_BASE in Hend; lia).
      rewrite Hnone. cbn [negb ret].
      exists s. split; [reflexivity|]. intros key.
      rewrite bool_decide_eq_false_2 by lia. reflexivity.
  - destruct (Hdesc curr Hc) as [Hlt [pte Hpte]]; [lia|].
    assert (Hltb : (curr <? end_ptr) = true) by (apply Z.ltb_lt; exact Hlt).
    rewrite Hltb. unfold bind, unpin_ptr, supp_pt_lookup.
    rewrite pg_round_down_page by (unfold PHYS_BASE in Hend; lia).
    rewrite Hpte. cbn [negb].
    assert (Hw : wrap32 (curr + PGSIZE) = curr + PGSIZE).
    { unfold wrap32. apply Z.mod_small. rewrite PGSIZE_eq. unfold PHYS_BASE in Hend. lia. }
    rewrite Hw.
    pose proof (aligned_step curr lim Hc Hl ltac:(lia)) as Hstep.
    destruct (IH (curr + PGSIZE) (set_pinned curr false s)) as (s' & Hrun & Hkeys).
    + apply aligned_next. exact Hc.
    + exact Hl.
    + rewrite PGSIZE_eq in *. lia.
    + exact Hend.
    + intros key Hk Hr. destruct (Hdesc key Hk) as [Hke Hsome]; [rewrite PGSIZE_eq in *; lia|].
      split; [exact Hke|]. rewrite cur_supp_pt_set_pinned.
      apply lookup_alter_is_Some. exact Hsome.
    + destruct Hstop as [Hle|Hnone]; [left; exact Hle|right].
      rewrite cur_supp_pt_set_pinned. apply lookup_alter_None. exact Hnone.
    + rewrite PGSIZE_eq in *. lia.
    + exists s'. split; [exact Hrun|]. intros key. rewrite Hkeys, cur_supp_pt_set_pinned.
      destruct (decide (key = curr)) as [->|Hk].
      * rewrite bool_decide_eq_false_2 by (rewrite PGSIZE_eq; lia).
        rewrite bool_decide_eq_true_2 by (split; [exact Hc|lia]).
        apply lookup_alter_eq.
      * rewrite lookup_alter_ne by congruence.
        destruct (decide (key mod PGSIZE = 0 /\ curr <= key < lim)) as [[Hk1 Hk2]|Hout].
        -- pose proof (aligned_step curr key Hc Hk1 ltac:(lia)).
           rewrite !bool_decide_eq_true_2 by (split; [assumption|lia]). reflexivity.
        -- rewrite !bool_decide_eq_false_2; [reflexivity|exact Hout|].
           intros [Hk1 Hk2]. apply Hout. split; [exact Hk1|rewrite PGSIZE_eq in *; lia].
Qed.

(** [unpin_range] on a range whose pages all have a descriptor. *)
Lemma unpin_range_pages (ptr len : Z) (s : kernel W) :
  0 <= ptr -> 0 < len -> ptr + len <= PHYS_BASE ->
  (forall key, range_page ptr len key -> is_Some (cur_supp_pt s !! key)) ->
  exists s',
    unpin_range ptr len s = Ret true s'
    /\ (forall key, range_page ptr len key ->
                    cur_supp_pt s' !! key = pte_set_pinned false <$> cur_supp_pt s !! key)
    /\ (forall key, ~ range_page ptr len key -> cur_supp_pt s' !! key = cur_supp_pt s !! key)
    /\ mem s' = mem s /\ world s' = world s /\ cur_pagedir s' = cur_pagedir s
    /\ klog s' = klog s /\ filesys_lock s' = filesys_lock s /\ cur s' = cur s
    /\ tf s' = tf s.
Proof.
  intros Hptr Hlen Hend Hdesc.
  assert (Hp : 0 <= ptr < 2 ^ 32) by (unfold PHYS_BASE in Hend; lia).
  destruct (pg_round_down_bounds ptr Hp) as (Hlo & Hhi & Hal).
  assert (Hp2 : 0 <= ptr + len - 1 < 2 ^ 32) by (unfold PHYS_BASE in Hend; lia).
  destruct (pg_round_down_bounds (ptr + len - 1) Hp2) as (Hlo2 & Hhi2 & Hal2).
  set (lim := pg_round_down (ptr + len - 1) + PGSIZE) in *.
  assert (Hlim : lim mod PGSIZE = 0) by (apply aligned_next; exact Hal2).
  assert (Hbase : pg_round_down ptr <= pg_round_down (ptr + len - 1)).
  { destruct (Z.le_gt_cases (pg_round_down ptr) (pg_round_down (ptr + len - 1)))
      as [H|H]; [exact H|].
    pose proof (aligned_step _ _ Hal2 Hal H). lia. }
  assert (Hin : forall key, key mod PGSIZE = 0 ->
                            (pg_round_down ptr <= key < lim <-> range_page ptr len key)).
  { intros key Hk. unfold range_page. split.
    - intros [H1 H2]. split; [exact Hk|]. split; [exact H1|].
      destruct (Z.le_gt_cases key (pg_round_down (ptr + len - 1))) as [H|H]; [lia|].
      pose proof (aligned_step _ _ Hal2 Hk H). unfold lim in H2. lia.
    - intros [_ [H1 H2]]. split; [exact H1|]. unfold lim. lia. }
  destruct (unpin_range_loop_run page_fuel (ptr + len) (pg_round_down ptr) lim s)
    as (s' & Hrun & Hkeys).
  - exact Hal.
  - exact Hlim.
  - unfold lim. rewrite PGSIZE_eq. lia.
  - exact Hend.
  - intros key Hk Hr. apply (Hin key Hk) in Hr. split; [apply Hr|apply Hdesc; exact Hr].
  - left. unfold lim. lia.
  - unfold page_fuel. rewrite Z2Nat.id by lia. subst lim.
    rewrite PGSIZE_eq in *. unfold PHYS_BASE in Hend. change (2 ^ 20) with 1048576.
    clear - Hlo Hlo2 Hend. lia.
  - rewrite bool_decide_eq_true_2 in Hrun by (unfold lim; lia).
    assert (Hun : unpin_range ptr len s = Ret true s').
    { unfold unpin_range. assert (Hz : (len =? 0) = false) by (apply Z.eqb_neq; lia).
      rewrite Hz. unfold wrap32.
      rewrite Z.mod_small by (unfold PHYS_BASE in Hend; lia). exact Hrun. }
    exists s'. split; [exact Hun|].
    split; [|split].
    + intros key Hk. rewrite Hkeys. rewrite bool_decide_eq_true_2; [reflexivity|].
      split; [apply Hk|]. apply Hin; [apply Hk|exact Hk].
    + intros key Hk. rewrite Hkeys. rewrite bool_decide_eq_false_2; [reflexivity|].
      intros [Hk1 Hk2]. apply Hk. apply Hin; assumption.
    + destruct (unpin_range_frame ptr len s Hptr ltac:(lia) Hend)
        as (b & s2 & Hf & Htf & Hw & Hlog & Hm & Hlock & Hcur & Hpd).
      rewrite Hun in Hf. injection Hf as <- <-. repeat split; assumption.
Qed.

(** X10.  [unpin_range] stops at the first page of the range that has no
    descriptor and returns false: the pages before it are unpinned, the
    descriptors from that page on are as they were, pinned or not. *)
Theorem unpin_range_stops_at_gap (ptr len gap : Z) (s : kernel W) :
  0 <= ptr -> 0 < len -> ptr + len <= PHYS_BASE ->
  range_page ptr len gap ->
  cur_supp_pt s !! gap = None ->
  (forall key, range_page ptr len key -> key < gap -> is_Some (cur_supp_pt s !! key)) ->
  exists s',
    unpin_range ptr len s = Ret false s'
    /\ (forall key, range_page ptr len key -> key < gap ->
                    cur_supp_pt s' !! key = pte_set_pinned false <$> cur_supp_pt s !! key)
    /\ (forall key, gap <= key -> cur_supp_pt s' !! key = cur_supp_pt s !! key).
Proof.
  intros Hptr Hlen Hend (Hgal & Hg1 & Hg2) Hnone Hdesc.
  assert (Hp : 0 <= ptr < 2 ^ 32) by (unfold PHYS_BASE in Hend; lia).
  destruct (pg_round_down_bounds ptr Hp) as (Hlo & Hhi & Hal).
  destruct (unpin_range_loop_run page_fuel (ptr + len) (pg_round_down ptr) gap s)
    as (s' & Hrun & Hkeys).
  - exact Hal.
  - exact Hgal.
  - lia.
  - exact Hend.
  - intros key Hk Hr. split; [lia|]. apply Hdesc; [|lia]. split; [exact Hk|lia].
  - right. exact Hnone.
  - unfold page_fuel. rewrite Z2Nat.id by lia.
    rewrite PGSIZE_eq in *. unfold PHYS_BASE in Hend. lia.
  - rewrite bool_decide_eq_false_2 in Hrun by lia.
    exists s'. split; [|split].
    + unfold unpin_range. assert (Hz : (len =? 0) = false) by (apply Z.eqb_neq; lia).
      rewrite Hz. unfold wrap32.
      rewrite Z.mod_small by (unfold PHYS_BASE in Hend; lia). exact Hrun.
    + intros key (Hk & Hk1 & Hk2) Hlt. rewrite Hkeys.
      rewrite bool_decide_eq_true_2 by (split; [exact Hk|lia]). reflexivity.
    + intros key Hge. rewrite Hkeys. rewrite bool_decide_eq_false_2 by lia. reflexivity.
Qed.

(** X9.  [unpin_range] on a non-empty range of user space whose pages all
    have a descriptor returns true; it clears the pinned flag of exactly the
    pages of the range, and leaves the other descriptors, memory, the page
    directory and the collaborators alone. *)
Theorem unpin_range_unpins (ptr len : Z) (s : kernel W) :
  0 <= ptr -> 0 < len -> ptr + len <= PHYS_BASE ->
  (forall key, range_page ptr len key -> is_Some (cur_supp_pt s !! key)) ->
  exists s',
    unpin_range ptr len s = Ret true s'
    /\ (forall key pte, range_page ptr len key -> cur_supp_pt s !! key = Some pte ->
                        cur_supp_pt s' !! key = Some (pte_set_pinned false pte))
    /\ (forall key, ~ range_page ptr len key -> cur_supp_pt s' !! key = cur_supp_pt s !! key)
    /\ mem s' = mem s /\ world s' = world s /\ cur_pagedir s' = cur_pagedir s.
Proof.
  intros Hptr Hlen Hend Hdesc.
  destruct (unpin_range_pages ptr len s Hptr Hlen Hend Hdesc)
    as (s' & Hrun & Hin & Hout & Hm & Hw & Hpd & _).
  exists s'. split; [exact Hrun|]. split; [|split; [exact Hout|repeat split; assumption]].
  intros key pte Hk Hpte. rewrite (Hin key Hk), Hpte. reflexivity.
Qed.

Lemma set_pinned_frame (key : Z) (b : bool) (s : kernel W) :
  mem (set_pinned key b s) = mem s /\ world (set_pinned key b s) = world s
  /\ klog (set_pinned key b s) = klog s /\ ftable (set_pinned key b s) = ftable s
  /\ tf (set_pinned key b s) = tf s /\ cur_pagedir (set_pinned key b s) = cur_pagedir s
  /\ filesys_lock (set_pinned key b s) = filesys_lock s /\ cur (set_pinned key b s) = cur s.
Proof.
  unfold set_pinned, set_cur_supp_pt, cur_pagedir.
  rewrite thread_current_set_thread. repeat split; reflexivity.
Qed.

(** [ensure_valid_ptr] on a page that is in a frame only pins it. *)
Lemma ensure_valid_ptr_resident (page : Z) (pte : supp_pte) (s : kernel W) :
  page mod PGSIZE = 0 -> 0 < page < PHYS_BASE ->
  cur_supp_pt s !! page = Some pte -> loc pte = InFrame ->
  ensure_valid_ptr E page s = Ret true (set_pinned page true s).
Proof.
  intros Hal Hpage Hpte Hloc. unfold ensure_valid_ptr.
  assert (Hn : (page =? NULL) = false) by (apply Z.eqb_neq; unfold NULL; lia).
  assert (Hu : is_user_vaddr page = true) by (apply Z.ltb_lt; lia).
  rewrite Hn, Hu. cbn [orb negb].
  rewrite pg_round_down_page by (unfold PHYS_BASE in Hpage; lia).
  unfold bind, supp_pt_grow_stack_if_necessary. rewrite Hpte. cbn [negb].
  unfold supp_pt_lookup.
  rewrite pg_round_down_page by (unfold PHYS_BASE in Hpage; lia).
  rewrite Hpte. unfold supp_pt_force_load.
  rewrite cur_supp_pt_set_pinned, lookup_alter_eq, Hpte. cbn [fmap option_fmap option_map].
  destruct pte; cbn in Hloc |- *. rewrite Hloc. reflexivity.
Qed.

(** The [while] loop of [ensure_valid_range] over pages that are all in a
    frame. *)
Lemma ensure_valid_range_loop_resident (fuel : nat) (ptr len curr pos : Z) (s : kernel W) :
  curr mod PGSIZE = 0 -> 0 < curr -> wrap32 (ptr + len) <= PHYS_BASE ->
  (forall key, key mod PGSIZE = 0 -> curr <= key < wrap32 (ptr + len) ->
               exists pte, cur_supp_pt s !! key = Some pte /\ loc pte = InFrame) ->
  wrap32 (ptr + len) - curr <= Z.of_nat fuel * PGSIZE ->
  exists s',
    ensure_valid_range_loop E fuel ptr len curr pos s = Ret true s'
    /\ (forall key,
          cur_supp_pt s' !! key
          = if bool_decide (key mod PGSIZE = 0 /\ curr <= key < wrap32 (ptr + len))
            then pte_set_pinned true <$> cur_supp_pt s !! key
            else cur_supp_pt s !! key)
    /\ mem s' = mem s /\ world s' = world s /\ klog s' = klog s /\ ftable s' = ftable s
    /\ tf s' = tf s /\ cur_pagedir s' = cur_pagedir s
    /\ filesys_lock s' = filesys_lock s /\ cur s' = cur s.
Proof.
  revert curr pos s.
  induction fuel as [|fuel IH]; intros curr pos s Hc Hpos Hend Hres Hfuel;
    cbn [ensure_valid_range_loop].
  - assert (Hlt : (curr <? wrap32 (ptr + len)) = false) by (apply Z.ltb_ge; lia).
    rewrite Hlt. exists s. split; [reflexivity|]. split; [|repeat split; reflexivity].
    intros key. rewrite bool_decide_eq_false_2 by lia. reflexivity.
  - destruct (curr <? wrap32 (ptr + len)) eqn:Hlt.
    + apply Z.ltb_lt in Hlt.
      destruct (Hres curr Hc ltac:(lia)) as (pte & Hpte & Hloc).
      unfold bind. rewrite (ensure_valid_ptr_resident curr pte s Hc ltac:(lia) Hpte Hloc).
      cbn [negb].
      assert (Hw : wrap32 (curr + PGSIZE) = curr + PGSIZE).
      { unfold wrap32 at 1. apply Z.mod_small. rewrite PGSIZE_eq.
        unfold PHYS_BASE in Hend. lia. }
      rewrite Hw.
      destruct (IH (curr + PGSIZE) (wrap32 (pos + 1)) (set_pinned curr true s))
        as (s' & Hrun & Hkeys & Hm & Hwd & Hlog & Hft & Htf & Hpd & Hlk & Hcu).
      * apply aligned_next. exact Hc.
      * rewrite PGSIZE_eq. lia.
      * exact Hend.
      * intros key Hk Hr. destruct (Hres key Hk) as (p & Hp & Hl); [rewrite PGSIZE_eq in *; lia|].
        rewrite cur_supp_pt_set_pinned.
        rewrite lookup_alter_ne by (rewrite PGSIZE_eq in *; lia). exists p. split; assumption.
      * rewrite PGSIZE_eq in *. lia.
      * destruct (set_pinned_frame curr true s) as (F1 & F2 & F3 & F4 & F5 & F6 & F7 & F8).
        exists s'. split; [exact Hrun|]. split; [|repeat split; congruence].
        intros key. rewrite Hkeys, cur_supp_pt_set_pinned.
        destruct (decide (key = curr)) as [->|Hk].
        -- rewrite bool_decide_eq_false_2 by (rewrite PGSIZE_eq; lia).
           rewrite bool_decide_eq_true_2 by (split; [exact Hc|lia]).
           apply lookup_alter_eq.
        -- rewrite lookup_alter_ne by congruence.
           destruct (decide (key mod PGSIZE = 0 /\ curr <= key < wrap32 (ptr + len)))
             as [[Hk1 Hk2]|Hout].
           ++ pose proof (aligned_step curr key Hc Hk1 ltac:(lia)).
              rewrite !bool_decide_eq_true_2 by (split; [assumption|lia]). reflexivity.
           ++ rewrite !bool_decide_eq_false_2; [reflexivity|exact Hout|].
              intros [Hk1 Hk2]. apply Hout. split; [exact Hk1|rewrite PGSIZE_eq in *; lia].
    + exists s. split; [reflexivity|]. split; [|repeat split; reflexivity].
      apply Z.ltb_ge in Hlt. intros key. rewrite bool_decide_eq_false_2 by lia. reflexivity.
Qed.

(** [ensure_valid_range] on a range of user pages that are all in a frame. *)
Lemma ensure_valid_range_pages (ptr len : Z) (s : kernel W) :
  PGSIZE <= ptr -> 0 <= len -> ptr + len <= PHYS_BASE ->
  (forall key, range_page ptr len key ->
               exists pte, cur_supp_pt s !! key = Some pte /\ loc pte = InFrame) ->
  exists s',
    ensure_valid_range E ptr len s = Ret true s'
    /\ (forall key, range_page ptr len key ->
                    cur_supp_pt s' !! key = pte_set_pinned true <$> cur_supp_pt s !! key)
    /\ (forall key, ~ range_page ptr len key -> cur_supp_pt s' !! key = cur_supp_pt s !! key)
    /\ mem s' = mem s /\ world s' = world s /\ klog s' = klog s /\ ftable s' = ftable s
    /\ tf s' = tf s /\ cur_pagedir s' = cur_pagedir s
    /\ filesys_lock s' = filesys_lock s /\ cur s' = cur s.
Proof.
  intros Hptr Hlen Hend Hres. rewrite PGSIZE_eq in Hptr.
  assert (Hp : 0 <= ptr < 2 ^ 32) by (unfold PHYS_BASE in Hend; lia).
  destruct (pg_round_down_bounds ptr Hp) as (Hlo & Hhi & Hal).
  assert (Hw : wrap32 (ptr + len) = ptr + len).
  { unfold wrap32. apply Z.mod_small. unfold PHYS_BASE in Hend. lia. }
  assert (Hbase : 0 < pg_round_down ptr).
  { rewrite PGSIZE_eq in *. pose proof (Z.div_mod (pg_round_down ptr) 4096). lia. }
  destruct (ensure_valid_range_loop_resident page_fuel ptr len (pg_round_down ptr) 0 s)
    as (s' & Hrun & Hkeys & Hrest).
  - exact Hal.
  - exact Hbase.
  - rewrite Hw. exact Hend.
  - rewrite Hw. intros key Hk Hr. apply Hres. split; assumption.
  - rewrite Hw. unfold page_fuel. rewrite Z2Nat.id by lia.
    rewrite PGSIZE_eq. change (2 ^ 20) with 1048576. unfold PHYS_BASE in Hend. lia.
  - exists s'. split; [exact Hrun|]. rewrite Hw in Hkeys. split; [|split; [|exact Hrest]].
    + intros key Hk. rewrite Hkeys, bool_decide_eq_true_2 by exact Hk. reflexivity.
    + intros key Hk. rewrite Hkeys, bool_decide_eq_false_2 by exact Hk. reflexivity.
Qed.

(** X11.  [ensure_valid_range] on a range of user space, above page 0, whose
    pages are all in a frame returns true and sets the pinned flag of exactly
    the pages of the range; nothing is loaded, allocated or evicted: memory,
    the frame table, the page directory and the collaborators are as
    before. *)
Theorem ensure_valid_range_pins_resident (ptr len : Z) (s : kernel W) :
  PGSIZE <= ptr -> 0 <= len -> ptr + len <= PHYS_BASE ->
  (forall key, range_page ptr len key ->
               exists pte, cur_supp_pt s !! key = Some pte /\ loc pte = InFrame) ->
  exists s',
    ensure_valid_range E ptr len s = Ret true s'
    /\ (forall key pte, range_page ptr len key -> cur_supp_pt s !! key = Some pte ->
                        cur_supp_pt s' !! key = Some (pte_set_pinned true pte))
    /\ (forall key, ~ range_page ptr len key -> cur_supp_pt s' !! key = cur_supp_pt s !! key)
    /\ mem s' = mem s /\ world s' = world s /\ klog s' = klog s /\ ftable s' = ftable s
    /\ tf s' = tf s /\ cur_pagedir s' = cur_pagedir s.
Proof.
  intros Hptr Hlen Hend Hres.
  destruct (ensure_valid_range_pages ptr len s Hptr Hlen Hend Hres)
    as (s' & Hrun & Hin & Hout & Hm & Hw & Hlog & Hft & Htf & Hpd & _).
  exists s'. split; [exact Hrun|].
  split; [|split; [exact Hout|repeat split; assumption]].
  intros key pte Hk Hpte. rewrite (Hin key Hk), Hpte. reflexivity.
Qed.

(** X12.  Validation and release undo each other: on a non-empty range whose
    pages are in a frame and not pinned, [ensure_valid_range] followed by
    [unpin_range] on the same range both return true and leave the
    supplementary page table of the running thread as it was. *)
Theorem validate_then_unpin (ptr len : Z) (s : kernel W) :
  PGSIZE <= ptr -> 0 < len -> ptr + len <= PHYS_BASE ->
  (forall key, range_page ptr len key ->
               exists pte, cur_supp_pt s !! key = Some pte /\ loc pte = InFrame
                           /\ pinned pte = false) ->
  exists s1 s2,
    ensure_valid_range E ptr len s = Ret true s1
    /\ unpin_range ptr len s1 = Ret true s2
    /\ cur_supp_pt s2 = cur_supp_pt s
    /\ mem s2 = mem s /\ world s2 = world s /\ cur_pagedir s2 = cur_pagedir s.
Proof.
  intros Hptr Hlen Hend Hres.
  destruct (ensure_valid_range_pages ptr len s Hptr ltac:(lia) Hend)
    as (s1 & Hrun1 & Hin1 & Hout1 & Hm1 & Hw1 & _ & _ & _ & Hpd1 & _).
  { intros key Hk. destruct (Hres key Hk) as (pte & Hpte & Hloc & _).
    exists pte. split; assumption. }
  destruct (unpin_range_pages ptr len s1 ltac:(rewrite PGSIZE_eq in Hptr; lia) Hlen Hend)
    as (s2 & Hrun2 & Hin2 & Hout2 & Hm2 & Hw2 & Hpd2 & _).
  { intros key Hk. rewrite (Hin1 key Hk). destruct (Hres key Hk) as (pte & Hpte & _).
    rewrite Hpte. eexists. reflexivity. }
  exists s1, s2. split; [exact Hrun1|]. split; [exact Hrun2|].
  split; [|repeat split; congruence].
  apply map_eq. intros key.
  destruct (decide (range_page ptr len key)) as [Hk|Hk].
  - rewrite (Hin2 key Hk), (Hin1 key Hk).
    destruct (Hres key Hk) as (pte & Hpte & _ & Hpin). rewrite Hpte. cbn.
    f_equal. destruct pte; cbn in Hpin |- *. rewrite Hpin. reflexivity.
  - rewrite (Hout2 key Hk), (Hout1 key Hk). reflexivity.
Qed.

Lemma ensure_valid_range_loop_skip (fuel : nat) (ptr len curr pos : Z) (s : kernel W) :
  wrap32 (ptr + len) <= curr ->
  ensure_valid_range_loop E fuel ptr len curr pos s = Ret true s.
Proof.
  intros Hle.
  assert (Hlt : (curr <? wrap32 (ptr + len)) = false) by (apply Z.ltb_ge; exact Hle).
  destruct fuel; cbn [ensure_valid_range_loop]; rewrite Hlt; reflexivity.
Qed.

Lemma ensure_valid_range_loop_first_bad (fuel : nat) (ptr len curr : Z) (s : kernel W) :
  curr < wrap32 (ptr + len) ->
  curr = NULL \/ PHYS_BASE <= curr ->
  ensure_valid_range_loop E (S fuel) ptr len curr 0 s = Ret false s.
Proof.
  intros Hin Hbad. cbn [ensure_valid_range_loop].
  assert (Hlt : (curr <? wrap32 (ptr + len)) = true) by (apply Z.ltb_lt; exact Hin).
  rewrite Hlt. unfold bind, ensure_valid_ptr.
  assert (Hc : (curr =? NULL) || negb (is_user_vaddr curr) = true).
  { apply orb_true_iff. destruct Hbad as [Hz|Hk].
    - left. apply Z.eqb_eq. exact Hz.
    - right. apply negb_true_iff. apply Z.ltb_ge. exact Hk. }
  rewrite Hc. cbn [negb]. unfold ASSERT, unpin_range, bind.
  change (0 =? 0) with true. reflexivity.
Qed.

(** X13.  The end of the range is computed in 32 bits: when [ptr + len]
    passes [2 ^ 32] and the wrapped end does not lie above the page of
    [ptr], the loop of [ensure_valid_range] is not entered; the call returns
    true and no page is validated or pinned. *)
Theorem ensure_valid_range_wraps (ptr len : Z) (s : kernel W) :
  0 <= ptr < 2 ^ 32 -> 0 <= len < 2 ^ 32 ->
  2 ^ 32 <= ptr + len ->
  ptr + len - 2 ^ 32 <= pg_round_down ptr ->
  ensure_valid_range E ptr len s = Ret true s.
Proof.
  intros Hptr Hlen Hwrap Hlow. unfold ensure_valid_range.
  apply ensure_valid_range_loop_skip.
  assert (Hw : wrap32 (ptr + len) = ptr + len - 2 ^ 32).
  { unfold wrap32. symmetry. apply (Z.mod_unique _ _ 1); lia. }
  rewrite Hw. exact Hlow.
Qed.

(** X14.  When the first page of a range is page 0 or a kernel page and the
    loop is entered, [ensure_valid_range] returns false and leaves the state
    as it is; a pointer into page 0 need not be [NULL] for that. *)
Theorem ensure_valid_range_rejects_first_page (ptr len : Z) (s : kernel W) :
  0 <= ptr < 2 ^ 32 ->
  pg_round_down ptr < wrap32 (ptr + len) ->
  ptr < PGSIZE \/ PHYS_BASE <= pg_round_down ptr ->
  ensure_valid_range E ptr len s = Ret false s.
Proof.
  intros Hptr Hin Hbad. unfold ensure_valid_range. rewrite page_fuel_S.
  apply ensure_valid_range_loop_first_bad; [exact Hin|].
  destruct (pg_round_down_bounds ptr Hptr) as (Hlo & Hhi & Hal).
  destruct Hbad as [Hz|Hk]; [left|right; exact Hk].
  unfold NULL. rewrite PGSIZE_eq in *. pose proof (Z.div_mod (pg_round_down ptr) 4096). lia.
Qed.

Lemma pte_unpin_pin (pte : supp_pte) :
  pte_set_pinned false (pte_set_pinned true pte) = pte_set_pinned false pte.
Proof. destruct pte; reflexivity. Qed.

(** The [while] loop of [ensure_valid_range] over [k] pages that are in a
    frame, followed by a page below the stack region that has no
    descriptor: the pages are pinned, and the count [pos + k] goes to
    [unpin_range]. *)
Lemma ensure_valid_range_loop_gap (fuel : nat) (ptr len curr pos k : Z) (s : kernel W) :
  curr mod PGSIZE = 0 -> 0 < curr -> 0 <= k ->
  curr + k * PGSIZE < wrap32 (ptr + len) -> wrap32 (ptr + len) <= PHYS_BASE ->
  (forall key, key mod PGSIZE = 0 -> curr <= key < curr + k * PGSIZE ->
               exists pte, cur_supp_pt s !! key = Some pte /\ loc pte = InFrame) ->
  cur_supp_pt s !! (curr + k * PGSIZE) = None ->
  curr + k * PGSIZE <= STACK_LIMIT E ->
  0 <= pos -> pos + k < 2 ^ 32 -> k < Z.of_nat fuel ->
  exists s1,
    ensure_valid_range_loop E fuel ptr len curr pos s
    = (ASSERT (unpin_range ptr (pos + k)) "unpin_range (ptr, pos)" ;;; ret false) s1
    /\ (forall key,
          cur_supp_pt s1 !! key
          = if bool_decide (key mod PGSIZE = 0 /\ curr <= key < curr + k * PGSIZE)
            then pte_set_pinned true <$> cur_supp_pt s !! key
            else cur_supp_pt s !! key).
Proof.
  revert curr pos k s.
  induction fuel as [|fuel IH];
    intros curr pos k s Hc Hcurr Hk Hgap Hend Hres Hnone Hstack Hpos Hposk Hfuel; [lia|].
  cbn [ensure_valid_range_loop].
  assert (Hlt : (curr <? wrap32 (ptr + len)) = true) by (apply Z.ltb_lt; rewrite PGSIZE_eq in *; lia).
  rewrite Hlt. unfold bind at 1.
  destruct (decide (k = 0)) as [->|Hk0].
  - rewrite Z.add_0_r in *. cbn [Z.mul] in *. rewrite Z.add_0_r in *.
    assert (Hptr : ensure_valid_ptr E curr s = Ret false s).
    { unfold ensure_valid_ptr.
      assert (Hn : (curr =? NULL) = false) by (apply Z.eqb_neq; unfold NULL; lia).
      assert (Hu : is_user_vaddr curr = true) by (apply Z.ltb_lt; lia).
      rewrite Hn, Hu. cbn [orb negb].
      rewrite pg_round_down_page by (unfold PHYS_BASE in Hend; lia).
      unfold bind, supp_pt_grow_stack_if_necessary. rewrite Hnone.
      assert (Hs : (STACK_LIMIT E <? curr) = false) by (apply Z.ltb_ge; exact Hstack).
      rewrite Hs, andb_false_r. reflexivity. }
    rewrite Hptr. cbn [negb]. exists s. split; [reflexivity|].
    intros key. rewrite bool_decide_eq_false_2 by lia. reflexivity.
  - destruct (Hres curr Hc ltac:(rewrite PGSIZE_eq; lia)) as (pte & Hpte & Hloc).
    rewrite (ensure_valid_ptr_resident curr pte s Hc ltac:(lia) Hpte Hloc).
    cbn [negb].
    assert (Hw : wrap32 (curr + PGSIZE) = curr + PGSIZE).
    { unfold wrap32 at 1. apply Z.mod_small. rewrite PGSIZE_eq.
      unfold PHYS_BASE in Hend. lia. }
    assert (Hwp : wrap32 (pos + 1) = pos + 1) by (unfold wrap32; apply Z.mod_small; lia).
    rewrite Hw, Hwp.
    assert (Hg : curr + PGSIZE + (k - 1) * PGSIZE = curr + k * PGSIZE) by lia.
    destruct (IH (curr + PGSIZE) (pos + 1) (k - 1) (set_pinned curr true s))
      as (s1 & Hrun & Hkeys).
    + apply aligned_next. exact Hc.
    + rewrite PGSIZE_eq. lia.
    + lia.
    + rewrite Hg. exact Hgap.
    + exact Hend.
    + rewrite Hg. intros key Hk1 Hr.
      destruct (Hres key Hk1) as (p & Hp & Hl); [rewrite PGSIZE_eq in *; lia|].
      rewrite cur_supp_pt_set_pinned.
      rewrite lookup_alter_ne by (rewrite PGSIZE_eq in *; lia). exists p. split; assumption.
    + rewrite Hg, cur_supp_pt_set_pinned. apply lookup_alter_None. exact Hnone.
    + rewrite Hg. exact Hstack.
    + lia.
    + lia.
    + lia.
    + replace (pos + 1 + (k - 1)) with (pos + k) in Hrun by lia.
      exists s1. split; [exact Hrun|]. rewrite Hg in Hkeys.
      intros key. rewrite Hkeys, cur_supp_pt_set_pinned.
      destruct (decide (key = curr)) as [->|Hkc].
      * rewrite bool_decide_eq_false_2 by (rewrite PGSIZE_eq; lia).
        rewrite bool_decide_eq_true_2 by (split; [exact Hc|rewrite PGSIZE_eq; lia]).
        apply lookup_alter_eq.
      * rewrite lookup_alter_ne by congruence.
        destruct (decide (key mod PGSIZE = 0 /\ curr <= key < curr + k * PGSIZE))
          as [[Hk1 Hk2]|Hout].
        -- pose proof (aligned_step curr key Hc Hk1 ltac:(lia)).
           rewrite !bool_decide_eq_true_2 by (split; [assumption|lia]). reflexivity.
        -- rewrite !bool_decide_eq_false_2; [reflexivity|exact Hout|].
           intros [Hk1 Hk2]. apply Hout. split; [exact Hk1|rewrite PGSIZE_eq in *; lia].
Qed.

(** X15.  [ensure_valid_range] on a range whose first [k] pages are in a
    frame and whose next page has no descriptor and lies below the stack
    region: the call returns false, having handed the page count [k] to
    [unpin_range] as a length in bytes.  Of the [k] pages it pinned, those
    below [ptr + k] are unpinned again and those from [ptr + k] on stay
    pinned; no other descriptor changes. *)
Theorem ensure_valid_range_failure (ptr len k : Z) (s : kernel W) :
  PGSIZE <= ptr -> 0 <= len -> ptr + len <= PHYS_BASE -> 0 <= k ->
  pg_round_down ptr + k * PGSIZE < ptr + len ->
  cur_supp_pt s !! (pg_round_down ptr + k * PGSIZE) = None ->
  pg_round_down ptr + k * PGSIZE <= STACK_LIMIT E ->
  (forall key, key mod PGSIZE = 0 ->
               pg_round_down ptr <= key < pg_round_down ptr + k * PGSIZE ->
               exists pte, cur_supp_pt s !! key = Some pte /\ loc pte = InFrame) ->
  exists s',
    ensure_valid_range E ptr len s = Ret false s'
    /\ (forall key pte,
          key mod PGSIZE = 0 ->
          pg_round_down ptr <= key < pg_round_down ptr + k * PGSIZE ->
          cur_supp_pt s !! key = Some pte ->
          cur_supp_pt s' !! key = Some (pte_set_pinned (bool_decide (ptr + k <= key)) pte))
    /\ (forall key,
          ~ (key mod PGSIZE = 0
             /\ pg_round_down ptr <= key < pg_round_down ptr + k * PGSIZE) ->
          cur_supp_pt s' !! key = cur_supp_pt s !! key).
Proof.
  intros Hptr Hlen Hend Hk Hgap Hnone Hstack Hres. rewrite PGSIZE_eq in Hptr.
  assert (Hp : 0 <= ptr < 2 ^ 32) by (unfold PHYS_BASE in Hend; rewrite PGSIZE_eq in *; lia).
  destruct (pg_round_down_bounds ptr Hp) as (Hlo & Hhi & Hal).
  assert (Hw : wrap32 (ptr + len) = ptr + len).
  { unfold wrap32. apply Z.mod_small. unfold PHYS_BASE in Hend. rewrite PGSIZE_eq in *. lia. }
  assert (Hbase : 0 < pg_round_down ptr).
  { rewrite PGSIZE_eq in *. pose proof (Z.div_mod (pg_round_down ptr) 4096). lia. }
  destruct (ensure_valid_range_loop_gap page_fuel ptr len (pg_round_down ptr) 0 k s)
    as (s1 & Hrun & Hkeys); try assumption.
  - rewrite Hw. exact Hgap.
  - rewrite Hw. exact Hend.
  - lia.
  - unfold PHYS_BASE in Hend. rewrite PGSIZE_eq in *. lia.
  - unfold page_fuel. rewrite Z2Nat.id by lia. change (2 ^ 20) with 1048576.
    unfold PHYS_BASE in Hend. rewrite PGSIZE_eq in *. lia.
  - rewrite Z.add_0_l in Hrun. unfold ensure_valid_range. rewrite Hrun.
    unfold ASSERT. change NDEBUG with false. cbv iota. unfold bind.
    destruct (decide (k = 0)) as [->|Hk0].
    + unfold unpin_range. change (0 =? 0) with true. cbv iota. cbn [ret].
      exists s1. split; [reflexivity|]. split.
      * intros key pte Hk1 Hk2. lia.
      * intros key Hout. rewrite Hkeys. rewrite bool_decide_eq_false_2 by exact Hout.
        reflexivity.
    + assert (Hpk : ptr + k <= pg_round_down ptr + k * PGSIZE)
        by (rewrite PGSIZE_eq in *; lia).
      destruct (unpin_range_pages ptr k s1) as (s2 & Hrun2 & Hin2 & Hout2 & _);
        [lia|lia|lia| |].
      * intros key (Hk1 & Hk2). rewrite Hkeys.
        rewrite bool_decide_eq_true_2 by (split; [exact Hk1|lia]).
        destruct (Hres key Hk1) as (pte & Hpte & _); [lia|]. rewrite Hpte. eexists. reflexivity.
      * rewrite Hrun2. cbn [ret]. exists s2. split; [reflexivity|]. split.
        -- intros key pte Hk1 Hk2 Hpte.
           destruct (decide (ptr + k <= key)) as [Hge|Hlt].
           ++ rewrite bool_decide_eq_true_2 by exact Hge.
              rewrite Hout2 by (unfold range_page; lia).
              rewrite Hkeys, bool_decide_eq_true_2 by (split; assumption).
              rewrite Hpte. reflexivity.
           ++ rewrite bool_decide_eq_false_2 by exact Hlt.
              rewrite Hin2 by (unfold range_page; split; [exact Hk1|lia]).
              rewrite Hkeys, bool_decide_eq_true_2 by (split; assumption).
              rewrite Hpte. cbn. rewrite pte_unpin_pin. reflexivity.
        -- intros key Hout. rewrite Hout2.
           ++ rewrite Hkeys, bool_decide_eq_false_2 by exact Hout. reflexivity.
           ++ intros (Hk1 & Hk2). apply Hout. split; [exact Hk1|lia].
Qed.
End GateMore.

(** ** More about the handlers *)

Section HandlerMore.
Context {W : Type} (E : externals W).

Lemma exit_on_file_true (s : kernel W) :
  filesys_lock s = Some (cur s) ->
  exit_on_file true s
  = Exit (set_thread (cur s) (thread_set_exit_status (-1) (thread_current s))
            (log (EvLockRelease (cur s)) (set_filesys_lock None s))).
Proof.
  intros Hheld. unfold exit_on_file, lock_held_by_current_thread.
  rewrite bool_decide_eq_true_2 by exact Hheld.
  change NDEBUG with false. cbn [negb andb]. unfold bind.
  rewrite lock_release_held by exact Hheld. reflexivity.
Qed.

Lemma exit_on_file_false (s : kernel W) :
  filesys_lock s = Some (cur s) -> exit_on_file false s = Ret tt s.
Proof.
  intros Hheld. unfold exit_on_file, lock_held_by_current_thread.
  rewrite bool_decide_eq_true_2 by exact Hheld. reflexivity.
Qed.

(** The state in which [exit_on_file (true)] leaves the process. *)
Lemma exit_on_file_state (s : kernel W) :
  let s' := set_thread (cur s) (thread_set_exit_status (-1) (thread_current s))
              (log (EvLockRelease (cur s)) (set_filesys_lock None s)) in
  exit_status (thread_current s') = -1
  /\ tf s' = tf s /\ world s' = world s /\ filesys_lock s' = None
  /\ klog s' = klog s ++ [EvLockRelease (cur s)]
  /\ cur_supp_pt s' = cur_supp_pt s /\ mem s' = mem s /\ cur_pagedir s' = cur_pagedir s.
Proof.
  cbv zeta. unfold cur_supp_pt, cur_pagedir.
  assert (Ht : thread_current
                 (set_thread (cur s) (thread_set_exit_status (-1) (thread_current s))
                    (log (EvLockRelease (cur s)) (set_filesys_lock None s)))
               = thread_set_exit_status (-1) (thread_current s)).
  { unfold thread_current at 1, set_thread, set_threads, log, set_klog, set_filesys_lock.
    cbn [threads cur]. rewrite lookup_insert_eq. reflexivity. }
  rewrite Ht. repeat split.
Qed.

(** X16.  The handlers that only consult the descriptor table take the
    file-system lock once and release it on every path.  With the lock not
    held by the caller: on an open descriptor [sys_filesize] and [sys_tell]
    return the length and the position of the file in [eax], [sys_seek]
    moves the position; on a descriptor that is not open each of them ends
    the process with status -1; [sys_close] returns when [fd_table_close]
    succeeds and ends the process with status -1 otherwise.  In every case
    the lock is free afterwards and was acquired and released exactly
    once. *)
Theorem file_handlers_release_lock (fd position : Z) (s : kernel W) :
  filesys_lock s <> Some (cur s) ->
  let released s' :=
    filesys_lock s' = None
    /\ klog s' = klog s ++ [EvLockAcquire (cur s); EvLockRelease (cur s)] in
  let exits (r : outcome (kernel W) unit) :=
    exists s', r = Exit s' /\ exit_status (thread_current s') = -1
               /\ tf s' = tf s /\ world s' = world s /\ released s' in
  match fd_table_get_file E fd (world s) with
  | Some file =>
    (exists s', sys_filesize E fd s = Ret tt s'
                /\ eax (tf s') = wrap32 (file_length E file (world s))
                /\ world s' = world s /\ released s')
    /\ (exists s', sys_seek E fd position s = Ret tt s'
                   /\ world s' = file_seek E file position (world s)
                   /\ tf s' = tf s /\ released s')
    /\ (exists s', sys_tell E fd s = Ret tt s'
                   /\ eax (tf s') = wrap32 (file_tell E file (world s))
                   /\ world s' = world s /\ released s')
  | None =>
    exits (sys_filesize E fd s) /\ exits (sys_seek E fd position s)
    /\ exits (sys_tell E fd s)
  end
  /\ (if (fd_table_close E fd (world s)).1
      then exists s', sys_close E fd s = Ret tt s'
                      /\ world s' = (fd_table_close E fd (world s)).2
                      /\ tf s' = tf s /\ released s'
      else exists s', sys_close E fd s = Exit s'
                      /\ exit_status (thread_current s') = -1
                      /\ world s' = (fd_table_close E fd (world s)).2
                      /\ tf s' = tf s /\ released s').
Proof.
  intros Hfree released exits. subst released exits. cbv beta.
  pose proof (lock_acquire_free s Hfree) as Hacq.
  set (s1 := log _ _) in Hacq.
  assert (Hheld1 : filesys_lock s1 = Some (cur s1)) by reflexivity.
  split.
  - destruct (fd_table_get_file E fd (world s)) as [file|] eqn:Hfile.
    + assert (Hq : query (fd_table_get_file E fd) s1 = Ret (Some file) s1)
        by (unfold query; change (world s1) with (world s); rewrite Hfile; reflexivity).
      split; [|split].
      * unfold sys_filesize, bind. rewrite Hacq, Hq.
        rewrite bool_decide_eq_false_2 by discriminate.
        rewrite exit_on_file_false by exact Hheld1.
        unfold query, return_value. rewrite lock_release_held by reflexivity.
        eexists. split; [reflexivity|]. repeat split; try reflexivity;
          cbn; rewrite <- app_assoc; reflexivity.
      * unfold sys_seek, bind. rewrite Hacq, Hq.
        rewrite bool_decide_eq_false_2 by discriminate.
        rewrite exit_on_file_false by exact Hheld1.
        rewrite lock_release_held by reflexivity.
        eexists. split; [reflexivity|]. repeat split; try reflexivity;
          cbn; rewrite <- app_assoc; reflexivity.
      * unfold sys_tell, bind. rewrite Hacq, Hq.
        rewrite bool_decide_eq_false_2 by discriminate.
        rewrite exit_on_file_false by exact Hheld1.
        unfold query, return_value. rewrite lock_release_held by reflexivity.
        eexists. split; [reflexivity|]. repeat split; try reflexivity;
          cbn; rewrite <- app_assoc; reflexivity.
    + assert (Hq : query (fd_table_get_file E fd) s1 = Ret None s1)
        by (unfold query; change (world s1) with (world s); rewrite Hfile; reflexivity).
      assert (Hexit : exists s', exit_on_file true s1 = Exit s'
                /\ exit_status (thread_current s') = -1 /\ tf s' = tf s /\ world s' = world s
                /\ filesys_lock s' = None
                /\ klog s' = klog s ++ [EvLockAcquire (cur s); EvLockRelease (cur s)]).
      { rewrite exit_on_file_true by exact Hheld1. eexists. split; [reflexivity|].
        destruct (exit_on_file_state s1) as (X1 & X2 & X3 & X4 & X5 & _).
        split; [exact X1|]. split; [exact X2|]. split; [exact X3|]. split; [exact X4|].
        rewrite X5. unfold s1, log, set_klog. cbn [klog cur set_filesys_lock].
        rewrite <- app_assoc. reflexivity. }
      destruct Hexit as (s' & Hex & Hrest).
      split; [|split].
      * unfold sys_filesize, bind. rewrite Hacq, Hq.
        rewrite bool_decide_eq_true_2 by reflexivity. rewrite Hex.
        exists s'. split; [reflexivity|exact Hrest].
      * unfold sys_seek, bind. rewrite Hacq, Hq.
        rewrite bool_decide_eq_true_2 by reflexivity. rewrite Hex.
        exists s'. split; [reflexivity|exact Hrest].
      * unfold sys_tell, bind. rewrite Hacq, Hq.
        rewrite bool_decide_eq_true_2 by reflexivity. rewrite Hex.
        exists s'. split; [reflexivity|exact Hrest].
  - unfold sys_close, bind. rewrite Hacq. unfold call. change (world s1) with (world s).
    destruct (fd_table_close E fd (world s)) as [closed w] eqn:Hclose. cbn [fst snd].
    set (s2 := set_world w s1).
    assert (Hheld2 : filesys_lock s2 = Some (cur s2)) by reflexivity.
    destruct closed; cbn [negb].
    + rewrite exit_on_file_false by exact Hheld2.
      rewrite lock_release_held by exact Hheld2.
      eexists. split; [reflexivity|]. repeat split; try reflexivity;
          cbn; rewrite <- app_assoc; reflexivity.
    + rewrite exit_on_file_true by exact Hheld2. eexists. split; [reflexivity|].
      destruct (exit_on_file_state s2) as (X1 & X2 & X3 & X4 & X5 & _).
      split; [exact X1|]. split; [exact X3|]. split; [exact X2|]. split; [exact X4|].
      rewrite X5. unfold s2, s1, log, set_klog, set_world. cbn [klog cur set_filesys_lock].
      rewrite <- app_assoc. reflexivity.
Qed.

Lemma pin_unpin_supp_pt (ptr len : Z) (m m1 m2 : gmap Z supp_pte) :
  (forall key, range_page ptr len key ->
               exists pte, m !! key = Some pte /\ pinned pte = false) ->
  (forall key, range_page ptr len key -> m1 !! key = pte_set_pinned true <$> m !! key) ->
  (forall key, ~ range_page ptr len key -> m1 !! key = m !! key) ->
  (forall key, range_page ptr len key -> m2 !! key = pte_set_pinned false <$> m1 !! key) ->
  (forall key, ~ range_page ptr len key -> m2 !! key = m1 !! key) ->
  m2 = m.
Proof.
  intros Hres Hin1 Hout1 Hin2 Hout2. apply map_eq. intros key.
  destruct (decide (range_page ptr len key)) as [Hk|Hk].
  - rewrite (Hin2 key Hk), (Hin1 key Hk).
    destruct (Hres key Hk) as (pte & Hpte & Hpin). rewrite Hpte. cbn.
    f_equal. destruct pte; cbn in Hpin |- *. rewrite Hpin. reflexivity.
  - rewrite (Hout2 key Hk), (Hout1 key Hk). reflexivity.
Qed.

(** What [sys_read] and [sys_write] do between the validation of the buffer
    and the transfer when the descriptor is not open. *)
Lemma closed_descriptor_exit (fd buffer length : Z) (s : kernel W) :
  PGSIZE <= buffer -> 0 < length -> buffer + length <= PHYS_BASE ->
  (forall key, range_page buffer length key ->
               exists pte, cur_supp_pt s !! key = Some pte /\ loc pte = InFrame
                           /\ pinned pte = false) ->
  filesys_lock s <> Some (cur s) ->
  fd_table_get_file E fd (world s) = None ->
  exists s1 s',
    ensure_valid_range E buffer length s = Ret true s1
    /\ (lock_acquire ;;;
        file <- query (fd_table_get_file E fd) ;;
        (if bool_decide (file = None)
         then unpin_range buffer length ;;; exit_on_file true
         else ret tt)) s1 = Exit s'
    /\ exit_status (thread_current s') = -1
    /\ filesys_lock s' = None
    /\ cur_supp_pt s' = cur_supp_pt s
    /\ mem s' = mem s /\ world s' = world s /\ tf s' = tf s
    /\ klog s' = klog s ++ [EvLockAcquire (cur s); EvLockRelease (cur s)].
Proof.
  intros Hptr Hlen Hend Hres Hfree Hfile.
  destruct (ensure_valid_range_pages E buffer length s Hptr ltac:(lia) Hend)
    as (s1 & Hrun1 & Hin1 & Hout1 & Hm1 & Hw1 & Hlog1 & _ & Htf1 & _ & Hlk1 & Hcur1).
  { intros key Hk. destruct (Hres key Hk) as (pte & Hpte & Hloc & _).
    exists pte. split; assumption. }
  assert (Hfree1 : filesys_lock s1 <> Some (cur s1)) by (rewrite Hlk1, Hcur1; exact Hfree).
  pose proof (lock_acquire_free s1 Hfree1) as Hacq.
  set (s2 := log _ _) in Hacq.
  destruct (unpin_range_pages buffer length s2
              ltac:(rewrite PGSIZE_eq in Hptr; lia) Hlen Hend)
    as (s3 & Hrun3 & Hin3 & Hout3 & Hm3 & Hw3 & _ & Hlog3 & Hlk3 & Hcur3 & Htf3).
  { intros key Hk. change (cur_supp_pt s2) with (cur_supp_pt s1). rewrite (Hin1 key Hk).
    destruct (Hres key Hk) as (pte & Hpte & _). rewrite Hpte. eexists. reflexivity. }
  assert (Hheld3 : filesys_lock s3 = Some (cur s3)) by (rewrite Hlk3, Hcur3; reflexivity).
  destruct (exit_on_file_state s3) as (X1 & X2 & X3 & X4 & X5 & X6 & X7 & _).
  exists s1. eexists. split; [exact Hrun1|]. split.
  - unfold bind. rewrite Hacq. unfold query. change (world s2) with (world s1).
    rewrite Hw1, Hfile. rewrite bool_decide_eq_true_2 by reflexivity.
    rewrite Hrun3. apply exit_on_file_true. exact Hheld3.
  - split; [exact X1|]. split; [exact X4|].
    split; [|split; [|split; [|split]]].
    + rewrite X6.
      apply (pin_unpin_supp_pt buffer length _ (cur_supp_pt s1)).
      * intros key Hk. destruct (Hres key Hk) as (pte & Hpte & _ & Hpin).
        exists pte. split; assumption.
      * exact Hin1.
      * exact Hout1.
      * exact Hin3.
      * exact Hout3.
    + rewrite X7, Hm3. exact Hm1.
    + rewrite X3, Hw3. exact Hw1.
    + rewrite X2, Htf3. exact Htf1.
    + rewrite X5, Hlog3, Hcur3. unfold s2, log, set_klog. cbn [klog cur set_filesys_lock].
      rewrite Hlog1, Hcur1, <- app_assoc. reflexivity.
Qed.

(** X17.  [sys_read] and [sys_write] on a descriptor that is not open, with a
    buffer whose pages are in a frame and not pinned: the buffer is pinned,
    the lock is taken, the buffer is unpinned again, the lock is released and
    the process ends with status -1.  The supplementary page table, memory,
    [eax] and the collaborators are as before the call. *)
Theorem closed_descriptor_unpins_and_exits (fd buffer length : Z) (s : kernel W) :
  PGSIZE <= buffer -> 0 < length -> buffer + length <= PHYS_BASE ->
  (forall key, range_page buffer length key ->
               exists pte, cur_supp_pt s !! key = Some pte /\ loc pte = InFrame
                           /\ pinned pte = false) ->
  filesys_lock s <> Some (cur s) ->
  fd <> STDIN_FILENO -> fd <> STDOUT_FILENO ->
  fd_table_get_file E fd (world s) = None ->
  let exits (r : outcome (kernel W) unit) :=
    exists s', r = Exit s' /\ exit_status (thread_current s') = -1
               /\ filesys_lock s' = None
               /\ cur_supp_pt s' = cur_supp_pt s
               /\ mem s' = mem s /\ world s' = world s /\ tf s' = tf s
               /\ klog s' = klog s ++ [EvLockAcquire (cur s); EvLockRelease (cur s)] in
  exits (sys_read E fd buffer length s) /\ exits (sys_write E fd buffer length s).
Proof.
  intros Hptr Hlen Hend Hres Hfree Hin Hout Hfile exits. subst exits. cbv beta.
  destruct (closed_descriptor_exit fd buffer length s Hptr Hlen Hend Hres Hfree Hfile)
    as (s1 & s' & Hvalid & Hexit & Hrest).
  assert (Hi : (fd =? STDIN_FILENO) = false) by (apply Z.eqb_neq; exact Hin).
  assert (Ho : (fd =? STDOUT_FILENO) = false) by (apply Z.eqb_neq; exact Hout).
  unfold bind in Hexit. cbn [ret] in Hexit.
  split; exists s'; (split; [|exact Hrest]).
  - unfold sys_read. rewrite Ho, Hi. unfold bind at 1 2. cbn [exit_on ret].
    rewrite Hvalid. cbn [negb exit_on ret]. unfold bind. cbn [ret].
    destruct (lock_acquire s1) as [[] s2| | | | | |] eqn:Hacq;
      try discriminate Hexit; try exact Hexit.
    destruct (query (fd_table_get_file E fd) s2) as [file s2'| | | | | |] eqn:Hq;
      try discriminate Hexit; try exact Hexit.
    rewrite Hexit. reflexivity.
  - unfold sys_write. rewrite Ho. unfold bind at 1 2.
    rewrite Hvalid. cbn [negb exit_on ret]. unfold bind. cbn [ret].
    destruct (lock_acquire s1) as [[] s2| | | | | |] eqn:Hacq;
      try discriminate Hexit; try exact Hexit.
    destruct (query (fd_table_get_file E fd) s2) as [file s2'| | | | | |] eqn:Hq;
      try discriminate Hexit; try exact Hexit.
    rewrite Hexit. reflexivity.
Qed.

Lemma load_user_bytes_ok (n : nat) (a : Z) (s : kernel W) :
  0 <= a -> a + Z.of_nat n <= PHYS_BASE ->
  (forall j, 0 <= j < Z.of_nat n -> is_Some (translate s (a + j))) ->
  exists data,
    load_user_bytes a n s = Ret data s
    /\ length data = n
    /\ forall j, 0 <= j < Z.of_nat n -> user_view s (a + j) = data !! Z.to_nat j.
Proof.
  revert a. induction n as [|n IH]; intros a Ha Hend Hres.
  - exists []. split; [reflexivity|]. split; [reflexivity|]. intros j Hj. cbn in Hj. lia.
  - cbn [load_user_bytes]. unfold bind, load_user_byte.
    destruct (Hres 0) as [ka Hka]; [lia|]. rewrite Z.add_0_r in Hka. rewrite Hka.
    assert (Hw : wrap32 (a + 1) = a + 1).
    { unfold wrap32, PHYS_BASE in *. apply Z.mod_small. lia. }
    rewrite Hw.
    destruct (IH (a + 1)) as (data & Hrun & Hlen & Hdata); [lia|lia| |].
    { intros j Hj. replace (a + 1 + j) with (a + (j + 1)) by lia. apply Hres. lia. }
    rewrite Hrun. cbn [ret]. exists (byte_at (mem s) ka :: data).
    split; [reflexivity|]. split; [cbn [length]; rewrite Hlen; reflexivity|].
    intros j Hj. destruct (decide (j = 0)) as [->|Hj0].
    + rewrite Z.add_0_r. unfold user_view. rewrite Hka. reflexivity.
    + replace (Z.to_nat j) with (S (Z.to_nat (j - 1))) by lia. cbn [lookup list_lookup].
      rewrite <- Hdata by lia. f_equal. lia.
Qed.

(** The bytes of a resident range are what [load_user_bytes] returns. *)
Lemma load_user_bytes_view (data : list Z) (a : Z) (s : kernel W) :
  0 <= a -> a + Z.of_nat (length data) <= PHYS_BASE ->
  (forall j, 0 <= j < Z.of_nat (length data) -> user_view s (a + j) = data !! Z.to_nat j) ->
  load_user_bytes a (length data) s = Ret data s.
Proof.
  intros Ha Hend Hview.
  destruct (load_user_bytes_ok (length data) a s Ha Hend) as (d & Hrun & Hlen & Hd).
  - intros j Hj. specialize (Hview j Hj). unfold user_view in Hview.
    destruct (translate s (a + j)); [eexists; reflexivity|].
    symmetry in Hview. apply lookup_ge_None in Hview. lia.
  - rewrite Hrun. f_equal. apply list_eq. intros i.
    destruct (decide (i < length data)%nat) as [Hi|Hi].
    + specialize (Hd (Z.of_nat i) ltac:(lia)). specialize (Hview (Z.of_nat i) ltac:(lia)).
      rewrite Nat2Z.id in Hd, Hview. congruence.
    + rewrite !lookup_ge_None_2 by lia. reflexivity.
Qed.

(** One [file_write] of the bytes [data] of a resident buffer. *)
Lemma do_file_write_run (file a : Z) (data : list Z) (s : kernel W) :
  (forall f d w, 0 <= (file_write E f d w).1 <= Z.of_nat (length d)) ->
  0 <= a -> a + Z.of_nat (length data) <= PHYS_BASE ->
  (forall j, 0 <= j < Z.of_nat (length data) -> user_view s (a + j) = data !! Z.to_nat j) ->
  exists n w1 s',
    file_write E file data (world s) = (n, w1)
    /\ do_file_write E file a (Z.of_nat (length data)) s = Ret n s'
    /\ 0 <= n <= Z.of_nat (length data)
    /\ world s' = w1
    /\ klog s' = klog s ++ [EvFileWrite file (Z.of_nat (length data)) n]
    /\ threads s' = threads s /\ cur s' = cur s /\ tf s' = tf s
    /\ filesys_lock s' = filesys_lock s /\ mem s' = mem s.
Proof.
  intros Hcontract Ha Hend Hview. unfold do_file_write, bind.
  rewrite Nat2Z.id, (load_user_bytes_view data a s Ha Hend Hview). unfold call.
  pose proof (Hcontract file data (world s)) as Hn.
  destruct (file_write E file data (world s)) as [n w1]. cbn [fst] in Hn. cbn [ret].
  assert (Hw : wrap32 n = n).
  { unfold wrap32, PHYS_BASE in *. apply Z.mod_small. lia. }
  rewrite Hw. eexists n, w1, _. split; [reflexivity|]. split; [reflexivity|].
  split; [exact Hn|]. repeat split.
Qed.

(** The [while] loop of [sys_write] on a resident buffer that holds [data]:
    the calls of [file_write] and what they leave in the collaborators. *)
Lemma sys_write_loop_run (file buf : Z) (data : list Z) (fuel : nat) (written : Z)
    (s : kernel W) :
  (forall f d w, 0 <= (file_write E f d w).1 <= Z.of_nat (length d)) ->
  0 <= buf -> buf + Z.of_nat (length data) <= PHYS_BASE ->
  0 <= written <= Z.of_nat (length data) ->
  Z.of_nat (length data) - written < Z.of_nat fuel ->
  (forall j, 0 <= j < Z.of_nat (length data) ->
     user_view s (buf + j) = data !! Z.to_nat j) ->
  exists total s' writes,
    sys_write_loop E fuel file buf (Z.of_nat (length data)) written s = Ret total s'
    /\ write_run E file (drop (Z.to_nat written) data) (world s) (map snd writes) (world s')
    /\ klog s' = klog s ++ map (fun r => EvFileWrite file r.1 r.2) writes
    /\ read_chain (Z.of_nat (length data)) written writes
    /\ total = written + foldr Z.add 0 (map snd writes)
    /\ written <= total <= Z.of_nat (length data)
    /\ threads s' = threads s /\ cur s' = cur s /\ tf s' = tf s
    /\ filesys_lock s' = filesys_lock s /\ mem s' = mem s.
Proof.
  intros Hcontract Hbuf Hend. revert written s. set (len := Z.of_nat (length data)) in *.
  induction fuel as [|fuel IH]; intros written s Hrb Hfuel Hview; [lia|].
  cbn [sys_write_loop]. destruct (written <? len) eqn:Hlt.
  - apply Z.ltb_lt in Hlt. unfold bind.
    assert (Hw1 : wrap32 (buf + written) = buf + written).
    { unfold wrap32, PHYS_BASE in *. apply Z.mod_small. lia. }
    assert (Hw2 : wrap32 (len - written) = len - written).
    { unfold wrap32, PHYS_BASE in *. apply Z.mod_small. lia. }
    rewrite Hw1, Hw2.
    set (rest := drop (Z.to_nat written) data).
    assert (Hrl : Z.of_nat (length rest) = len - written).
    { unfold rest, len. rewrite length_drop. lia. }
    assert (Hne : rest <> []).
    { intros Hnil. rewrite Hnil in Hrl. cbn in Hrl. lia. }
    destruct (do_file_write_run file (buf + written) rest s Hcontract)
      as (got & w1 & s1 & Hcall & Hrun & Hgot & Hworld & Hlog & H1 & H2 & H3 & H4 & H5);
      [lia|lia| |].
    { intros j Hj. replace (buf + written + j) with (buf + (written + j)) by lia.
      rewrite Hview by lia. unfold rest. rewrite lookup_drop. f_equal. lia. }
    rewrite Hrl in Hrun, Hgot, Hlog. rewrite Hrun. destruct (got =? 0) eqn:Hz.
    + apply Z.eqb_eq in Hz. subst got.
      exists written, s1, [(len - written, 0)]. split; [reflexivity|].
      split; [rewrite Hworld; apply write_run_zero; assumption|].
      split; [exact Hlog|]. split; [cbn; repeat split; lia|].
      split; [cbn; lia|]. split; [lia|]. repeat split; assumption.
    + apply Z.eqb_neq in Hz.
      assert (Hw3 : wrap32 (written + got) = written + got).
      { unfold wrap32, PHYS_BASE in *. apply Z.mod_small. lia. }
      rewrite Hw3.
      destruct (IH (written + got) s1)
        as (total & s' & writes & Hl & Hruns & Hlog' & Hchain & Htot & Hle
            & K1 & K2 & K3 & K4 & K5); [lia|lia| |].
      { intros j Hj. rewrite <- Hview by exact Hj. unfold user_view.
        rewrite (translate_frame s s1), H5; [reflexivity|].
        unfold cur_pagedir, thread_current. rewrite H1, H2. reflexivity. }
      exists total, s', ((len - written, got) :: writes). split; [exact Hl|].
      split.
      { cbn [map snd].
        apply (write_run_more E file rest (world s) w1 (world s') got (map snd writes)).
        - exact Hne.
        - exact Hcall.
        - exact Hz.
        - unfold rest. rewrite drop_drop, <- Hworld.
          replace (Z.to_nat written + Z.to_nat got)%nat with (Z.to_nat (written + got))
            by lia.
          exact Hruns. }
      split; [rewrite Hlog', Hlog, <- app_assoc; reflexivity|].
      split.
      { cbn [read_chain]. split; [exact Hlt|]. split; [reflexivity|]. split; [exact Hgot|].
        apply Z.eqb_neq in Hz. rewrite Hz. exact Hchain. }
      split; [cbn; lia|]. split; [lia|]. repeat split; congruence.
  - apply Z.ltb_ge in Hlt. exists written, s, []. split; [reflexivity|].
    split.
    { rewrite drop_ge by (unfold len in *; lia). apply write_run_done. }
    split; [cbn; rewrite app_nil_r; reflexivity|]. split; [cbn; lia|].
    split; [cbn; lia|]. split; [lia|]. repeat split; reflexivity.
Qed.

(** The calls of [file_write] are determined by the file system the loop
    starts in and the bytes it is to write. *)
Lemma write_run_functional (file : Z) (bytes : list Z) (w w1 w2 : W) (a1 a2 : list Z) :
  write_run E file bytes w a1 w1 ->
  write_run E file bytes w a2 w2 ->
  a1 = a2 /\ w1 = w2.
Proof.
  intros H1. revert a2 w2.
  induction H1 as [w|bytes w w1 Hne Hcall|bytes w w1 w2 n rest Hne Hcall Hn Hrest IH];
    intros a2 w2' H2; inversion H2; subst; try congruence.
  - split; reflexivity.
  - split; congruence.
  - match goal with
    | Hc : file_write E file bytes w = (?m, ?w') |- _ =>
        rewrite Hcall in Hc; injection Hc as <- <-
    end.
    match goal with
    | Hr : write_run E file (drop _ bytes) w1 _ _ |- _ => destruct (IH _ _ Hr) as [-> ->]
    end.
    split; reflexivity.
Qed.
(** X18.  [sys_write] on a non-empty buffer that is resident and not pinned.
    On [STDOUT_FILENO] the bytes of the buffer go to the console in one
    [putbuf], [eax] is [len] and the file-system lock is not touched.  On any
    other descriptor with an open file, the lock is acquired, [file_write] of
    the file system is called with the bytes of the buffer that are still
    to be written, each call in the state the one before left, until [len]
    bytes are written or a call writes nothing ([write_run], and
    [read_chain] for the sizes), the lock is released and [eax] is the sum
    of what the calls wrote.  Either way memory is unchanged and the pages of
    the buffer are unpinned again.  ([file_write] writes at most what it is
    given.) *)
Theorem sys_write_spec (s : kernel W) (fd buf len : Z) :
  (forall f data w, 0 <= (file_write E f data w).1 <= Z.of_nat (length data)) ->
  PGSIZE <= buf -> 0 < len -> buf + len <= PHYS_BASE ->
  (forall key, range_page buf len key ->
               exists pte, cur_supp_pt s !! key = Some pte /\ loc pte = InFrame
                           /\ pinned pte = false) ->
  (forall i, 0 <= i < len -> is_Some (translate s (buf + i))) ->
  (exists s' data,
      sys_write E STDOUT_FILENO buf len s = Ret tt s'
      /\ eax (tf s') = len
      /\ Z.of_nat (length data) = len
      /\ (forall i, 0 <= i < len -> data !! Z.to_nat i = user_view s (buf + i))
      /\ world s' = putbuf E data (world s)
      /\ klog s' = klog s ++ [EvPutbuf data]
      /\ filesys_lock s' = filesys_lock s
      /\ cur_supp_pt s' = cur_supp_pt s /\ mem s' = mem s)
  /\ (forall file,
        fd <> STDOUT_FILENO ->
        fd_table_get_file E fd (world s) = Some file ->
        filesys_lock s <> Some (cur s) ->
        exists s' writes data,
          sys_write E fd buf len s = Ret tt s'
          /\ klog s' = klog s ++ [EvLockAcquire (cur s)]
                       ++ map (fun r => EvFileWrite file r.1 r.2) writes
                       ++ [EvLockRelease (cur s)]
          /\ read_chain len 0 writes
          /\ eax (tf s') = foldr Z.add 0 (map snd writes)
          /\ filesys_lock s' = None
          /\ cur_supp_pt s' = cur_supp_pt s /\ mem s' = mem s
          /\ Z.of_nat (length data) = len
          /\ (forall i, 0 <= i < len -> data !! Z.to_nat i = user_view s (buf + i))
          /\ write_run E file data (world s) (map snd writes) (world s')).
Proof.
  intros Hcontract Hptr Hlen Hend Hres Htr.
  assert (Hbuf : 0 <= buf) by (rewrite PGSIZE_eq in Hptr; lia).
  assert (Hwl : wrap32 len = len).
  { unfold wrap32, PHYS_BASE in *. apply Z.mod_small. lia. }
  destruct (ensure_valid_range_pages E buf len s Hptr ltac:(lia) Hend)
    as (s1 & Hvalid & Hin1 & Hout1 & Hm1 & Hw1 & Hlog1 & _ & Htf1 & Hpd1 & Hlk1 & Hcur1).
  { intros key Hk. destruct (Hres key Hk) as (pte & Hpte & Hloc & _).
    exists pte. split; assumption. }
  assert (Htr1 : forall i, 0 <= i < len -> is_Some (translate s1 (buf + i))).
  { intros i Hi. rewrite (translate_frame s s1 _ Hpd1). apply Htr. exact Hi. }
  assert (Hpins : forall key, range_page buf len key ->
                    exists pte, cur_supp_pt s !! key = Some pte /\ pinned pte = false).
  { intros key Hk. destruct (Hres key Hk) as (pte & Hpte & _ & Hpin).
    exists pte. split; assumption. }
  assert (Hsome1 : forall key, range_page buf len key -> is_Some (cur_supp_pt s1 !! key)).
  { intros key Hk. rewrite (Hin1 key Hk). destruct (Hres key Hk) as (pte & Hpte & _).
    rewrite Hpte. eexists. reflexivity. }
  destruct (load_user_bytes_ok (Z.to_nat len) buf s1) as (data & Hload & Hdl & Hdata).
  { exact Hbuf. }
  { lia. }
  { intros j Hj. apply Htr1. lia. }
  assert (Hdlen : Z.of_nat (length data) = len) by lia.
  assert (Hview : forall i, 0 <= i < len -> data !! Z.to_nat i = user_view s (buf + i)).
  { intros i Hi. rewrite <- Hdata by lia. unfold user_view.
    rewrite (translate_frame s s1 _ Hpd1), Hm1. reflexivity. }
  split.
  - unfold sys_write, bind. rewrite Hvalid. cbn [negb exit_on ret].
    change (STDOUT_FILENO =? STDOUT_FILENO) with true. cbv beta iota.
    rewrite Hload. unfold return_value. rewrite Hwl.
    set (s2 := set_eax len _).
    destruct (unpin_range_pages buf len s2 Hbuf Hlen Hend Hsome1)
      as (s3 & Hrun3 & Hin3 & Hout3 & Hm3 & Hw3 & _ & Hlog3 & Hlk3 & _ & Htf3).
    rewrite Hrun3. exists s3, data. split; [reflexivity|].
    split; [rewrite Htf3; reflexivity|]. split; [exact Hdlen|].
    split; [exact Hview|].
    split; [rewrite Hw3; unfold s2; cbn; rewrite Hw1; reflexivity|].
    split; [rewrite Hlog3; unfold s2; cbn; rewrite Hlog1; reflexivity|].
    split; [rewrite Hlk3; exact Hlk1|].
    split; [|rewrite Hm3; exact Hm1].
    exact (pin_unpin_supp_pt buf len _ _ _ Hpins Hin1 Hout1 Hin3 Hout3).
  - intros file Hout Hfile Hlock. apply Z.eqb_neq in Hout.
    unfold sys_write, bind. rewrite Hvalid. cbn [negb exit_on ret]. rewrite Hout.
    assert (Hlock1 : filesys_lock s1 <> Some (cur s1)) by (rewrite Hlk1, Hcur1; exact Hlock).
    rewrite (lock_acquire_free s1 Hlock1).
    remember (log (EvLockAcquire (cur s1)) (set_filesys_lock (Some (cur s1)) s1))
      as s2 eqn:Hs2.
    assert (Hw2 : world s2 = world s1) by (rewrite Hs2; reflexivity).
    assert (Hv2 : forall x, user_view s2 x = user_view s1 x) by (rewrite Hs2; reflexivity).
    assert (Hm2 : mem s2 = mem s1) by (rewrite Hs2; reflexivity).
    assert (Hl2 : klog s2 = klog s1 ++ [EvLockAcquire (cur s1)])
      by (rewrite Hs2; reflexivity).
    assert (Hc2 : cur s2 = cur s1) by (rewrite Hs2; reflexivity).
    assert (Ht2 : threads s2 = threads s1) by (rewrite Hs2; reflexivity).
    assert (Hk2 : filesys_lock s2 = Some (cur s1)) by (rewrite Hs2; reflexivity).
    unfold query. rewrite Hw2, Hw1, Hfile.
    rewrite bool_decide_eq_false_2 by discriminate. cbn [ret default from_option id].
    destruct (sys_write_loop_run file buf data (S (Z.to_nat len)) 0 s2 Hcontract Hbuf)
      as (total & s3 & writes & Hloop & Hruns & Hlog & Hchain & Htot & Hle
          & H1 & H2 & H3 & H4 & H5).
    + lia.
    + lia.
    + lia.
    + intros j Hj. rewrite Hv2. apply Hdata. lia.
    + rewrite Hdlen in Hloop, Hchain, Hle. rewrite Hloop.
      rewrite (lock_release_held s3) by (rewrite H4, H2, Hk2, Hc2; reflexivity).
      unfold return_value.
      remember (set_eax (wrap32 total)
                        (log (EvLockRelease (cur s3)) (set_filesys_lock None s3)))
        as s5 eqn:Hs5.
      assert (Hspt5 : cur_supp_pt s5 = cur_supp_pt s1).
      { rewrite Hs5. unfold cur_supp_pt, thread_current, set_eax, set_tf, log, set_klog,
          set_filesys_lock. cbn [threads cur]. rewrite H1, H2, Ht2, Hc2. reflexivity. }
      destruct (unpin_range_pages buf len s5 Hbuf Hlen Hend)
        as (s6 & Hrun6 & Hin6 & Hout6 & Hm6 & Hw6 & _ & Hlog6 & Hlk6 & _ & Htf6).
      { intros key Hk. rewrite Hspt5. apply Hsome1. exact Hk. }
      rewrite Hrun6. exists s6, writes, data. split; [reflexivity|].
      split.
      { rewrite Hlog6, Hs5. unfold set_eax, set_tf, log, set_klog, set_filesys_lock.
        cbn [klog]. rewrite Hlog, Hl2, H2, Hc2.
        rewrite Hlog1, Hcur1, <- !app_assoc. reflexivity. }
      split; [exact Hchain|].
      split.
      { rewrite Htf6, Hs5. cbn [tf set_eax set_tf eax].
        unfold wrap32, PHYS_BASE in *. rewrite Z.mod_small by lia. lia. }
      split; [rewrite Hlk6, Hs5; reflexivity|].
      split.
      { rewrite <- Hspt5 in Hin1, Hout1.
        exact (pin_unpin_supp_pt buf len _ _ _ Hpins Hin1 Hout1 Hin6 Hout6). }
      split; [rewrite Hm6, Hs5; cbn; rewrite H5, Hm2; exact Hm1|].
      split; [exact Hdlen|]. split; [exact Hview|].
      rewrite Hw6, Hs5. cbn [world set_eax set_tf log set_klog set_filesys_lock].
      rewrite <- Hw1, <- Hw2. exact Hruns.
Qed.
End HandlerMore.

(** ** More about [sys_mmap] *)

Section MmapMore.
Context {W : Type} (E : externals W).

(** Below a bound, a decidable property holds nowhere or has a least
    instance. *)
Lemma least_instance (P : Z -> Prop) (Hdec : forall k, Decision (P k)) (n : nat) :
  (forall k, 0 <= k < Z.of_nat n -> ~ P k)
  \/ (exists k, 0 <= k < Z.of_nat n /\ P k /\ forall j, 0 <= j < k -> ~ P j).
Proof.
  induction n as [|n IH]; [left; intros k Hk; lia|].
  destruct IH as [Hnone|(k & Hk & HP & Hleast)].
  - destruct (Hdec (Z.of_nat n)) as [HP|HP].
    + right. exists (Z.of_nat n). split; [lia|]. split; [exact HP|].
      intros j Hj. apply Hnone. lia.
    + left. intros k Hk. destruct (decide (k = Z.of_nat n)) as [->|Hne]; [exact HP|].
      apply Hnone. lia.
  - right. exists k. split; [lia|]. split; [exact HP|exact Hleast].
Qed.

(** X19.  [sys_mmap] installs all pages of a mapping or none.  For an open
    file of positive length, a page-aligned user address and a region that
    passes the guard against the stack: when every page of the region is
    free, each gets a descriptor that is backed by the reopened file at its
    offset and carries the mapping id [addr], no other descriptor changes and
    [eax] is [addr]; when some page of the region is taken, the pages
    installed before it are removed again, the reopened file is closed, the
    supplementary page table is as before and [eax] is [MAP_FAILED].  The
    file-system lock is free afterwards in both cases. *)
Theorem sys_mmap_all_or_nothing (s : kernel W) (fd addr file file' length : Z) (w' : W) :
  fd_table_get_file E fd (world s) = Some file ->
  filesys_lock s <> Some (cur s) ->
  file_length E file (world s) = length -> 0 < length < 2 ^ 31 ->
  addr <> NULL -> pg_ofs addr = 0 -> 0 <= addr < PHYS_BASE ->
  wrap32 (addr + wrap32 (pg_range_num length * PGSIZE)) <= STACK_LIMIT E ->
  file_reopen E file (world s) = (Some file', w') ->
  addr + pg_range_num length * PGSIZE <= 2 ^ 32 ->
  exists s',
    sys_mmap E fd addr s = Ret tt s'
    /\ filesys_lock s' = None
    /\ ((forall k, 0 <= k < pg_range_num length ->
                   cur_supp_pt s !! (addr + k * PGSIZE) = None) ->
        eax (tf s') = addr
        /\ world s' = w'
        /\ (forall k, 0 <= k < pg_range_num length ->
              exists pte, cur_supp_pt s' !! (addr + k * PGSIZE) = Some pte
                          /\ loc pte = InFile /\ file_ref pte = Some file'
                          /\ file_offset pte = k * PGSIZE
                          /\ mapping_id pte = Some addr)
        /\ (forall p, (forall k, 0 <= k < pg_range_num length -> p <> addr + k * PGSIZE) ->
              cur_supp_pt s' !! p = cur_supp_pt s !! p))
    /\ ((exists k, 0 <= k < pg_range_num length
                   /\ is_Some (cur_supp_pt s !! (addr + k * PGSIZE))) ->
        eax (tf s') = MAP_FAILED
        /\ cur_supp_pt s' = cur_supp_pt s
        /\ world s' = file_close E file' w').
Proof.
  intros Hfile Hlock Hlen Hpos Hnull Hofs Haddr Hguard Hreopen Hfit.
  assert (Hn : 0 <= pg_range_num length) by (unfold pg_range_num, wrap32; apply Z.mod_pos_bound; lia).
  destruct (least_instance (fun k => is_Some (cur_supp_pt s !! (addr + k * PGSIZE))) _
                           (Z.to_nat (pg_range_num length)))
    as [Hfree|(k & Hk & Hocc & Hleast)]; rewrite Z2Nat.id in * by exact Hn.
  - assert (Hfree' : forall k, 0 <= k < pg_range_num length ->
                               cur_supp_pt s !! (addr + k * PGSIZE) = None).
    { intros k Hk. apply eq_None_not_Some. apply Hfree. exact Hk. }
    destruct (sys_mmap_success E s fd addr file file' length w' Hfile Hlock Hlen Hpos Hnull
                               Hofs Haddr Hguard Hreopen Hfit Hfree')
      as (s' & Hrun & Heax & Hw & Hlk & Hpages & Hothers).
    exists s'. split; [exact Hrun|]. split; [exact Hlk|]. split.
    + intros _. split; [exact Heax|]. split; [exact Hw|]. split; [|exact Hothers].
      intros k Hk. rewrite (Hpages k Hk). eexists. split; [reflexivity|]. repeat split.
    + intros (k & Hk & Hocc). exfalso. exact (Hfree k Hk Hocc).
  - assert (Hleast' : forall j, 0 <= j < k -> cur_supp_pt s !! (addr + j * PGSIZE) = None).
    { intros j Hj. apply eq_None_not_Some. apply Hleast. exact Hj. }
    destruct (sys_mmap_rolls_back E s fd addr file file' length k w' Hfile Hlock Hlen Hpos
                                  Hnull Hofs Haddr Hguard Hreopen Hfit Hk Hleast' Hocc)
      as (s' & Hrun & Heax & Hspt & Hw & Hlk).
    exists s'. split; [exact Hrun|]. split; [exact Hlk|]. split.
    + intros Hfree. rewrite (Hfree k Hk) in Hocc. destruct Hocc as [x Hx]. discriminate.
    + intros _. split; [exact Heax|]. split; [exact Hspt|exact Hw].
Qed.
(** X20.  [sys_mmap], called by a thread that does not hold the file-system
    lock, refuses a descriptor that is not open, a file of length 0 or less,
    the address [NULL], an address that is not page-aligned or not a user
    address, and a region whose end, computed in 32 bits as the code does,
    lies above [STACK_LIMIT]: [eax] is [MAP_FAILED], and the supplementary
    page table and the collaborators are as before. *)
Theorem sys_mmap_refuses (s : kernel W) (fd addr : Z) :
  filesys_lock s <> Some (cur s) ->
  (forall file, fd_table_get_file E fd (world s) = Some file ->
     file_length E file (world s) <= 0
     \/ addr = NULL \/ pg_ofs addr <> 0 \/ is_user_vaddr addr = false
     \/ wrap32 (addr + wrap32 (pg_range_num (file_length E file (world s)) * PGSIZE))
        > STACK_LIMIT E) ->
  exists s',
    sys_mmap E fd addr s = Ret tt s'
    /\ eax (tf s') = MAP_FAILED
    /\ cur_supp_pt s' = cur_supp_pt s /\ world s' = world s.
Proof.
  intros Hlock Hpre. unfold sys_mmap, bind, query.
  assert (Hmf : forall s0 : kernel W,
            return_value MAP_FAILED s0 = Ret tt (set_eax MAP_FAILED s0)) by reflexivity.
  destruct (fd_table_get_file E fd (world s)) as [file|] eqn:Hfile.
  - specialize (Hpre file eq_refl).
    rewrite (lock_acquire_free s Hlock).
    remember (log (EvLockAcquire (cur s)) (set_filesys_lock (Some (cur s)) s)) as s1 eqn:Hs1.
    assert (Hw1 : world s1 = world s) by (rewrite Hs1; reflexivity).
    rewrite Hw1.
    rewrite (lock_release_held s1) by (rewrite Hs1; reflexivity).
    remember (log (EvLockRelease (cur s1)) (set_filesys_lock None s1)) as s2 eqn:Hs2.
    assert (Hkeep : cur_supp_pt (set_eax MAP_FAILED s2) = cur_supp_pt s
                    /\ world (set_eax MAP_FAILED s2) = world s)
      by (rewrite Hs2, Hs1; split; reflexivity).
    destruct (file_length E file (world s) <=? 0) eqn:Hlen.
    { rewrite Hmf. eexists. split; [reflexivity|]. split; [reflexivity|exact Hkeep]. }
    destruct ((addr =? NULL) || negb (pg_ofs addr =? 0) || negb (is_user_vaddr addr))
      eqn:Haddr.
    { rewrite Hmf. eexists. split; [reflexivity|]. split; [reflexivity|exact Hkeep]. }
    apply Z.leb_gt in Hlen.
    apply orb_false_elim in Haddr as [Haddr Huser].
    apply orb_false_elim in Haddr as [Hnull Halign].
    apply Z.eqb_neq in Hnull. apply negb_false_iff in Halign, Huser.
    apply Z.eqb_eq in Halign.
    destruct Hpre as [Hp|[Hp|[Hp|[Hp|Hstack]]]]; try lia; try congruence.
    apply Z.gt_lt, Z.ltb_lt in Hstack. rewrite <- Z.gtb_ltb in Hstack.
    rewrite Hstack, Hmf. eexists. split; [reflexivity|]. split; [reflexivity|exact Hkeep].
  - rewrite Hmf. eexists. split; [reflexivity|]. repeat split; reflexivity.
Qed.
End MmapMore.

(** ** More about the dispatcher *)

Section DispatchMore.
Context {W : Type} (E : externals W).

Lemma pg_round_down_mono (a b : Z) :
  0 <= a <= b -> b < 2 ^ 32 -> pg_round_down a <= pg_round_down b.
Proof.
  intros Hab Hb. rewrite !pg_round_down_spec by lia. rewrite PGSIZE_eq.
  pose proof (Z.div_le_mono a b 4096 ltac:(lia) ltac:(lia)).
  pose proof (Z.div_mod a 4096). pose proof (Z.div_mod b 4096). lia.
Qed.

Lemma pte_pin_pin (pte : supp_pte) :
  pte_set_pinned true (pte_set_pinned true pte) = pte_set_pinned true pte.
Proof. destruct pte; reflexivity. Qed.

(** [load_user_bytes] reads the page directory and memory only. *)
Lemma load_user_bytes_same (n : nat) (a : Z) (data : list Z) (s s1 : kernel W) :
  0 <= a -> a + Z.of_nat n <= PHYS_BASE ->
  (forall j, 0 <= j < Z.of_nat n -> is_Some (translate s (a + j))) ->
  cur_pagedir s1 = cur_pagedir s -> mem s1 = mem s ->
  load_user_bytes a n s = Ret data s ->
  load_user_bytes a n s1 = Ret data s1.
Proof.
  intros Ha Hend Htr Hpd Hm Hload.
  destruct (load_user_bytes_ok n a s Ha Hend Htr) as (d & Hrun & Hlen & Hd).
  rewrite Hrun in Hload. injection Hload as ->.
  destruct (load_user_bytes_ok n a s1 Ha Hend) as (d1 & Hrun1 & Hlen1 & Hd1).
  { intros j Hj. rewrite (translate_frame s s1 _ Hpd). apply Htr. exact Hj. }
  rewrite Hrun1. f_equal. apply list_eq. intros i.
  destruct (decide (i < n)%nat) as [Hi|Hi].
  - rewrite <- (Nat2Z.id i). rewrite <- Hd1, <- Hd by lia.
    unfold user_view. rewrite (translate_frame s s1 _ Hpd), Hm. reflexivity.
  - rewrite !lookup_ge_None_2 by lia. reflexivity.
Qed.

(** The pages of the block [[lo, hi)] are in a frame and its bytes are
    mapped: what the dispatcher needs of the user stack. *)
Lemma fetch_args_resident (n : nat) (lo hi p : Z) (s : kernel W) :
  PGSIZE <= lo -> hi <= PHYS_BASE -> lo <= p + 4 -> p + 4 + 4 * Z.of_nat n <= hi ->
  (forall key, key mod PGSIZE = 0 -> pg_round_down lo <= key < hi ->
               exists pte, cur_supp_pt s !! key = Some pte /\ loc pte = InFrame) ->
  (forall a, lo <= a < hi -> is_Some (translate s a)) ->
  exists args s1,
    fetch_args E n p s = Ret args s1
    /\ length args = n
    /\ (forall i, (i < n)%nat ->
          load_user_word (p + 4 * (Z.of_nat i + 1)) s = Ret (nth i args 0) s)
    /\ (forall key, cur_supp_pt s1 !! key = cur_supp_pt s !! key
                    \/ cur_supp_pt s1 !! key = pte_set_pinned true <$> cur_supp_pt s !! key)
    /\ mem s1 = mem s /\ world s1 = world s /\ klog s1 = klog s /\ ftable s1 = ftable s
    /\ tf s1 = tf s /\ cur_pagedir s1 = cur_pagedir s
    /\ filesys_lock s1 = filesys_lock s /\ cur s1 = cur s.
Proof.
  revert p s. induction n as [|n IH]; intros p s Hlo Hhi Hp Hend Hres Htr.
  - exists [], s. split; [reflexivity|]. split; [reflexivity|].
    split; [intros i Hi; lia|]. split; [intros key; left; reflexivity|].
    repeat split; reflexivity.
  - cbn [fetch_args].
    assert (Hw : wrap32 (p + 4) = p + 4).
    { unfold wrap32. apply Z.mod_small. rewrite PGSIZE_eq in Hlo.
      unfold PHYS_BASE in Hhi. lia. }
    rewrite Hw. unfold bind at 1.
    assert (Hlo' : 0 <= lo < 2 ^ 32)
      by (rewrite PGSIZE_eq in Hlo; unfold PHYS_BASE in Hhi; lia).
    destruct (ensure_valid_range_pages E (p + 4) 4 s)
      as (s1 & Hvalid & Hin1 & Hout1 & Hm1 & Hw1 & Hlog1 & Hft1 & Htf1 & Hpd1 & Hlk1 & Hcur1).
    { lia. }
    { lia. }
    { lia. }
    { intros key (Hk1 & Hk2). apply Hres; [exact Hk1|].
      pose proof (pg_round_down_mono lo (p + 4) ltac:(lia) ltac:(unfold PHYS_BASE in Hhi; lia)).
      lia. }
    rewrite Hvalid. cbn [negb exit_on]. unfold bind at 1. cbn [ret]. unfold bind at 1.
    assert (Htr4 : forall j, 0 <= j < Z.of_nat 4 -> is_Some (translate s (p + 4 + j)))
      by (intros j Hj; apply Htr; lia).
    destruct (load_user_bytes_ok 4 (p + 4) s ltac:(rewrite PGSIZE_eq in Hlo; lia)
                                 ltac:(lia) Htr4) as (d & Hload & Hdl & _).
    assert (Hload1 : load_user_bytes (p + 4) 4 s1 = Ret d s1).
    { apply (load_user_bytes_same 4 (p + 4) d s s1); try assumption.
      - rewrite PGSIZE_eq in Hlo. lia.
      - lia. }
    unfold load_user_word at 1. unfold bind at 1. rewrite Hload1. cbn [ret].
    unfold bind at 1.
    destruct (IH (p + 4) s1) as (args & s2 & Hrun & Hlen & Hwords & Hpin
                                 & Hm2 & Hw2 & Hlog2 & Hft2 & Htf2 & Hpd2 & Hlk2 & Hcur2).
    + exact Hlo.
    + exact Hhi.
    + lia.
    + lia.
    + intros key Hk1 Hk2. destruct (Hres key Hk1 Hk2) as (pte & Hpte & Hloc).
      destruct (decide (range_page (p + 4) 4 key)) as [Hr|Hr].
      * rewrite (Hin1 key Hr), Hpte. eexists. split; [reflexivity|].
        destruct pte; exact Hloc.
      * rewrite (Hout1 key Hr), Hpte. exists pte. split; [reflexivity|exact Hloc].
    + intros a Ha. rewrite (translate_frame s s1 _ Hpd1). apply Htr. exact Ha.
    + rewrite Hrun. cbn [ret].
      exists (foldr (fun b acc => b + 256 * acc) 0 d :: args), s2.
      split; [reflexivity|]. split; [cbn [length]; rewrite Hlen; reflexivity|].
      split.
      { intros i Hi. destruct i as [|i].
        - cbn [nth]. replace (p + 4 * (Z.of_nat 0 + 1)) with (p + 4) by lia.
          unfold load_user_word, bind. rewrite Hload. reflexivity.
        - cbn [nth]. specialize (Hwords i ltac:(lia)).
          replace (p + 4 * (Z.of_nat (S i) + 1)) with (p + 4 + 4 * (Z.of_nat i + 1)) by lia.
          unfold load_user_word, bind in Hwords |- *.
          set (a := p + 4 + 4 * (Z.of_nat i + 1)) in *.
          assert (Htra : forall j, 0 <= j < Z.of_nat 4 -> is_Some (translate s (a + j)))
            by (intros j Hj; apply Htr; unfold a; lia).
          destruct (load_user_bytes_ok 4 a s ltac:(unfold a; rewrite PGSIZE_eq in Hlo; lia)
                                       ltac:(unfold a; lia) Htra) as (da & Hla & _).
          rewrite Hla.
          rewrite (load_user_bytes_same 4 a da s s1) in Hwords; try assumption.
          + cbn [ret] in Hwords |- *. injection Hwords as Hwd. rewrite Hwd. reflexivity.
          + unfold a. rewrite PGSIZE_eq in Hlo. lia.
          + unfold a. lia. }
      split.
      { intros key. destruct (Hpin key) as [Hk|Hk]; rewrite Hk.
        - destruct (decide (range_page (p + 4) 4 key)) as [Hr|Hr].
          + right. apply Hin1. exact Hr.
          + left. apply Hout1. exact Hr.
        - destruct (decide (range_page (p + 4) 4 key)) as [Hr|Hr].
          + right. rewrite (Hin1 key Hr).
            destruct (cur_supp_pt s !! key) as [pte|]; [|reflexivity].
            cbn. rewrite pte_pin_pin. reflexivity.
          + right. rewrite (Hout1 key Hr). reflexivity. }
      repeat split; congruence.
Qed.

Lemma syscall_arg_num_bounds (i : nat) (n : Z) :
  syscall_arg_num !! i = Some n -> 0 <= n <= MAX_ARGS.
Proof.
  intros H.
  assert (Hall : Forall (fun a => 0 <= a <= MAX_ARGS) syscall_arg_num)
    by (unfold MAX_ARGS; repeat constructor; lia).
  exact (proj1 (Forall_lookup _ _) Hall i n H).
Qed.

(** X21.  The dispatcher decodes a call from the user stack.  When the words
    of the call are on resident pages of user space and the word at [esp] is
    a number of the table, [syscall_handler] runs the case of that number on
    the [arg_num] words that follow the number on the stack, in order, and
    then the unpin loop; on the way to the case only pinned flags were set:
    memory, the registers, the page directory, the lock and the collaborators
    are untouched. *)
Theorem syscall_handler_decodes (s : kernel W) (num arg_num : Z) :
  PGSIZE <= esp (tf s) -> esp (tf s) + 4 * (1 + arg_num) <= PHYS_BASE ->
  (forall key, range_page (esp (tf s)) (4 * (1 + arg_num)) key ->
               exists pte, cur_supp_pt s !! key = Some pte /\ loc pte = InFrame) ->
  (forall i, 0 <= i < 4 * (1 + arg_num) -> is_Some (translate s (esp (tf s) + i))) ->
  load_user_word (esp (tf s)) s = Ret num s ->
  syscall_arg_num !! Z.to_nat num = Some arg_num ->
  exists args s1,
    syscall_handler E s
    = (dispatch E num args ;;;
       (fun s' => unpin_args (S (Z.to_nat arg_num)) (esp (tf s')) s')) s1
    /\ Z.of_nat (length args) = arg_num
    /\ (forall i, (i < length args)%nat ->
          load_user_word (esp (tf s) + 4 * (Z.of_nat i + 1)) s = Ret (nth i args 0) s)
    /\ (forall key, cur_supp_pt s1 !! key = cur_supp_pt s !! key
                    \/ cur_supp_pt s1 !! key = pte_set_pinned true <$> cur_supp_pt s !! key)
    /\ mem s1 = mem s /\ world s1 = world s /\ klog s1 = klog s /\ ftable s1 = ftable s
    /\ tf s1 = tf s /\ cur_pagedir s1 = cur_pagedir s
    /\ filesys_lock s1 = filesys_lock s /\ cur s1 = cur s.
Proof.
  intros Hlo Hhi Hres Htr Hnum Htab.
  pose proof (syscall_arg_num_bounds _ _ Htab) as Hargs. unfold MAX_ARGS in Hargs.
  set (p := esp (tf s)) in *.
  assert (Hp : 0 <= p < 2 ^ 32)
    by (rewrite PGSIZE_eq in Hlo; unfold PHYS_BASE in Hhi; lia).
  destruct (ensure_valid_range_pages E p 4 s)
    as (s1 & Hvalid & Hin1 & Hout1 & Hm1 & Hw1 & Hlog1 & Hft1 & Htf1 & Hpd1 & Hlk1 & Hcur1).
  { exact Hlo. }
  { lia. }
  { lia. }
  { intros key (Hk1 & Hk2). apply Hres. split; [exact Hk1|lia]. }
  assert (Hload1 : load_user_word p s1 = Ret num s1).
  { unfold load_user_word, bind in Hnum |- *.
    assert (Htr4 : forall j, 0 <= j < Z.of_nat 4 -> is_Some (translate s (p + j)))
      by (intros j Hj; apply Htr; lia).
    destruct (load_user_bytes_ok 4 p s ltac:(lia) ltac:(lia) Htr4) as (d & Hload & _).
    rewrite Hload in Hnum.
    rewrite (load_user_bytes_same 4 p d s s1 ltac:(lia) ltac:(lia) Htr4 Hpd1 Hm1 Hload).
    cbn [ret] in Hnum |- *. injection Hnum as Hn. rewrite Hn. reflexivity. }
  destruct (fetch_args_resident (Z.to_nat arg_num) p (p + 4 * (1 + arg_num)) p s1)
    as (args & s2 & Hrun & Hlen & Hwords & Hpin
        & Hm2 & Hw2 & Hlog2 & Hft2 & Htf2 & Hpd2 & Hlk2 & Hcur2).
  - exact Hlo.
  - exact Hhi.
  - lia.
  - lia.
  - intros key Hk1 Hk2. destruct (Hres key) as (pte & Hpte & Hloc); [split; assumption|].
    destruct (decide (range_page p 4 key)) as [Hr|Hr].
    + rewrite (Hin1 key Hr), Hpte. eexists. split; [reflexivity|]. destruct pte; exact Hloc.
    + rewrite (Hout1 key Hr), Hpte. exists pte. split; [reflexivity|exact Hloc].
  - intros a Ha. rewrite (translate_frame s s1 _ Hpd1).
    replace a with (p + (a - p)) by lia. apply Htr. lia.
  - exists args, s2. split.
    { unfold syscall_handler. fold p. unfold bind at 1. rewrite Hvalid.
      cbn [negb exit_on]. unfold bind at 1. cbn [ret]. unfold bind at 1.
      rewrite Hload1, Htab. unfold bind at 1. rewrite Hrun. reflexivity. }
    split; [rewrite Hlen; lia|].
    split.
    { intros i Hi. rewrite Hlen in Hi. specialize (Hwords i Hi).
      set (a := p + 4 * (Z.of_nat i + 1)) in *.
      unfold load_user_word, bind in Hwords |- *.
      assert (Htra : forall j, 0 <= j < Z.of_nat 4 -> is_Some (translate s (a + j))).
      { intros j Hj. replace (a + j) with (p + (a + j - p)) by lia. apply Htr. unfold a. lia. }
      destruct (load_user_bytes_ok 4 a s ltac:(unfold a; lia) ltac:(unfold a; lia) Htra)
        as (da & Hla & _).
      rewrite Hla. rewrite (load_user_bytes_same 4 a da s s1) in Hwords; try assumption.
      - cbn [ret] in Hwords |- *. injection Hwords as Hwd. rewrite Hwd. reflexivity.
      - unfold a. lia.
      - unfold a. lia. }
    split.
    { intros key. destruct (Hpin key) as [Hk|Hk]; rewrite Hk.
      - destruct (decide (range_page p 4 key)) as [Hr|Hr].
        + right. apply Hin1. exact Hr.
        + left. apply Hout1. exact Hr.
      - destruct (decide (range_page p 4 key)) as [Hr|Hr].
        + right. rewrite (Hin1 key Hr).
          destruct (cur_supp_pt s !! key) as [pte|]; [|reflexivity].
          cbn. rewrite pte_pin_pin. reflexivity.
        + right. rewrite (Hout1 key Hr). reflexivity. }
    repeat split; congruence.
Qed.

(** X22.  A call whose number is in the table but past [SYS_MUNMAP] (the
    five directory calls) ends the process with status -1 once its arguments
    were fetched; nothing but pinned flags and the exit status changed, and
    the stack page of the call is still pinned. *)
Theorem unimplemented_call_exits (s : kernel W) (num arg_num : Z) :
  PGSIZE <= esp (tf s) -> esp (tf s) + 4 * (1 + arg_num) <= PHYS_BASE ->
  (forall key, range_page (esp (tf s)) (4 * (1 + arg_num)) key ->
               exists pte, cur_supp_pt s !! key = Some pte /\ loc pte = InFrame) ->
  (forall i, 0 <= i < 4 * (1 + arg_num) -> is_Some (translate s (esp (tf s) + i))) ->
  load_user_word (esp (tf s)) s = Ret num s ->
  syscall_arg_num !! Z.to_nat num = Some arg_num ->
  SYS_MUNMAP < num ->
  exists s',
    syscall_handler E s = Exit s'
    /\ exit_status (thread_current s') = -1
    /\ mem s' = mem s /\ world s' = world s /\ klog s' = klog s /\ tf s' = tf s
    /\ filesys_lock s' = filesys_lock s
    /\ exists pte, cur_supp_pt s' !! pg_round_down (esp (tf s)) = Some pte
                   /\ pinned pte = true.
Proof.
  intros Hlo Hhi Hres Htr Hnum Htab Hbig.
  pose proof (syscall_arg_num_bounds _ _ Htab) as Hargs. unfold MAX_ARGS in Hargs.
  set (p := esp (tf s)) in *.
  assert (Hp : 0 <= p < 2 ^ 32)
    by (rewrite PGSIZE_eq in Hlo; unfold PHYS_BASE in Hhi; lia).
  destruct (pg_round_down_bounds p Hp) as (Hb1 & Hb2 & Hb3).
  destruct (ensure_valid_range_pages E p 4 s)
    as (s1 & Hvalid & Hin1 & Hout1 & Hm1 & Hw1 & Hlog1 & Hft1 & Htf1 & Hpd1 & Hlk1 & Hcur1).
  { exact Hlo. }
  { lia. }
  { lia. }
  { intros key (Hk1 & Hk2). apply Hres. split; [exact Hk1|lia]. }
  assert (Hload1 : load_user_word p s1 = Ret num s1).
  { unfold load_user_word, bind in Hnum |- *.
    assert (Htr4 : forall j, 0 <= j < Z.of_nat 4 -> is_Some (translate s (p + j)))
      by (intros j Hj; apply Htr; lia).
    destruct (load_user_bytes_ok 4 p s ltac:(lia) ltac:(lia) Htr4) as (d & Hload & _).
    rewrite Hload in Hnum.
    rewrite (load_user_bytes_same 4 p d s s1 ltac:(lia) ltac:(lia) Htr4 Hpd1 Hm1 Hload).
    cbn [ret] in Hnum |- *. injection Hnum as Hn. rewrite Hn. reflexivity. }
  destruct (fetch_args_resident (Z.to_nat arg_num) p (p + 4 * (1 + arg_num)) p s1)
    as (args & s2 & Hrun & Hlen & Hwords & Hpin
        & Hm2 & Hw2 & Hlog2 & Hft2 & Htf2 & Hpd2 & Hlk2 & Hcur2).
  - exact Hlo.
  - exact Hhi.
  - lia.
  - lia.
  - intros key Hk1 Hk2. destruct (Hres key) as (pte & Hpte & Hloc); [split; assumption|].
    destruct (decide (range_page p 4 key)) as [Hr|Hr].
    + rewrite (Hin1 key Hr), Hpte. eexists. split; [reflexivity|]. destruct pte; exact Hloc.
    + rewrite (Hout1 key Hr), Hpte. exists pte. split; [reflexivity|exact Hloc].
  - intros a Ha. rewrite (translate_frame s s1 _ Hpd1).
    replace a with (p + (a - p)) by lia. apply Htr. lia.
  - eexists. split.
    { unfold syscall_handler. fold p. unfold bind at 1. rewrite Hvalid.
      cbn [negb exit_on]. unfold bind at 1. cbn [ret]. unfold bind at 1.
      rewrite Hload1, Htab. unfold bind at 1. rewrite Hrun. unfold bind.
      rewrite (dispatch_unimplemented E num args s2) by (right; exact Hbig). reflexivity. }
    assert (Hbase : range_page p 4 (pg_round_down p)) by (split; [exact Hb3|lia]).
    destruct (Hres (pg_round_down p)) as (pte & Hpte & _); [split; [exact Hb3|lia]|].
    assert (Ht : thread_current
                   (set_thread (cur s2) (thread_set_exit_status (-1) (thread_current s2)) s2)
                 = thread_set_exit_status (-1) (thread_current s2)).
    { unfold thread_current at 1, set_thread, set_threads. cbn [threads cur].
      rewrite lookup_insert_eq. reflexivity. }
    split; [rewrite Ht; reflexivity|].
    split; [cbn; congruence|]. split; [cbn; congruence|]. split; [cbn; congruence|].
    split; [cbn; congruence|]. split; [cbn; congruence|].
    exists (pte_set_pinned true pte). split; [|reflexivity].
    unfold cur_supp_pt at 1. rewrite Ht. change (supp_pt (thread_set_exit_status (-1) (thread_current s2))) with (cur_supp_pt s2).
    destruct (Hpin (pg_round_down p)) as [Hk|Hk]; rewrite Hk, (Hin1 _ Hbase), Hpte.
    + reflexivity.
    + cbn. rewrite pte_pin_pin. reflexivity.
Qed.
End DispatchMore.

(** ** The string functions and the handlers that take a file name *)

Section StringFacts.
Context {W : Type} (E : externals W).
Local Abbreviation M A := (kernel W -> outcome (kernel W) A).

Lemma rounds_add {X R : Type} (a b : nat) (body : X -> M (X + R)) (x : X) (s : kernel W) :
  rounds (a + b) body x s
  = match rounds a body x s with
    | Ret (inl x') s' => rounds b body x' s'
    | o => o
    end.
Proof.
  revert x s. induction a as [|a IH]; intros x s; cbn [rounds Nat.add]; [reflexivity|].
  destruct (body x s) as [[x'|v] s'| | | | | |]; try reflexivity. apply IH.
Qed.

Lemma iterate_rounds {X R : Type} (d : nat) (body : X -> M (X + R)) (x : X) (s : kernel W) :
  iterate d body x s = rounds (2 ^ d) body x s.
Proof.
  revert x s. induction d as [|d IH]; intros x s.
  - cbn [iterate]. change (2 ^ 0)%nat with 1%nat. cbn [rounds].
    destruct (body x s) as [[x'|v] s'| | | | | |]; reflexivity.
  - cbn [iterate]. unfold bind.
    replace (2 ^ S d)%nat with (2 ^ d + 2 ^ d)%nat by (rewrite Nat.pow_succ_r'; lia).
    rewrite rounds_add, IH.
    destruct (rounds (2 ^ d) body x s) as [[x'|v] s'| | | | | |]; try reflexivity.
    apply IH.
Qed.

Lemma rounds_done {X R : Type} (a b : nat) (body : X -> M (X + R)) (x : X) (v : R)
      (s s' : kernel W) :
  (a <= b)%nat -> rounds a body x s = Ret (inr v) s' -> rounds b body x s = Ret (inr v) s'.
Proof.
  intros Hab Hrun. replace b with (a + (b - a))%nat by lia.
  rewrite rounds_add, Hrun. reflexivity.
Qed.

(** A byte loop that leaves within [2 ^ 32] rounds. *)
Lemma while_bytes_rounds {X R : Type} (n : nat) (body : X -> M (X + R)) (x : X) (v : R)
      (s s' : kernel W) :
  Z.of_nat n <= 2 ^ 32 -> rounds n body x s = Ret (inr v) s' ->
  while_bytes body x s = Ret v s'.
Proof.
  intros Hn Hrun. unfold while_bytes, bind. rewrite iterate_rounds.
  rewrite (rounds_done n (2 ^ 32) body x v s s'); [reflexivity| |exact Hrun].
  apply Nat2Z.inj_le. rewrite Nat2Z.inj_pow. exact Hn.
Qed.

Lemma user_view_frame (s s1 : kernel W) (a : Z) :
  cur_pagedir s1 = cur_pagedir s -> mem s1 = mem s -> user_view s1 a = user_view s a.
Proof. intros Hpd Hm. unfold user_view. rewrite (translate_frame s s1 a Hpd), Hm. reflexivity. Qed.

Lemma load_user_byte_view (s : kernel W) (a c : Z) :
  user_view s a = Some c -> load_user_byte a s = Ret c s.
Proof.
  unfold user_view, load_user_byte. destruct (translate s a); [|discriminate].
  intros H. injection H as <-. reflexivity.
Qed.

(** [ensure_valid_ptr] on an address in a page that is in a frame only pins
    the page. *)
Lemma ensure_valid_ptr_pins (ptr : Z) (pte : supp_pte) (s : kernel W) :
  0 < ptr < PHYS_BASE ->
  cur_supp_pt s !! pg_round_down ptr = Some pte -> loc pte = InFrame ->
  ensure_valid_ptr E ptr s = Ret true (set_pinned (pg_round_down ptr) true s).
Proof.
  intros Hptr Hpte Hloc. unfold ensure_valid_ptr.
  assert (Hn : (ptr =? NULL) = false) by (apply Z.eqb_neq; unfold NULL; lia).
  assert (Hu : is_user_vaddr ptr = true) by (apply Z.ltb_lt; lia).
  rewrite Hn, Hu. cbn [orb negb].
  unfold bind, supp_pt_grow_stack_if_necessary. rewrite Hpte. cbn [negb].
  unfold supp_pt_lookup. rewrite Hpte. unfold supp_pt_force_load.
  rewrite cur_supp_pt_set_pinned, lookup_alter_eq, Hpte. cbn [fmap option_fmap option_map].
  destruct pte; cbn in Hloc |- *. rewrite Hloc. reflexivity.
Qed.

Lemma aligned_iff (a : Z) : 0 <= a < 2 ^ 32 -> (pg_round_down a = a <-> a mod PGSIZE = 0).
Proof.
  intros Ha. rewrite pg_round_down_spec by exact Ha. lia.
Qed.

(** The [while] loop of [ensure_valid_string], which runs to the terminating
    0 byte, from [p] to the end [e] of a string whose pages are in a
    frame. *)
Lemma ensure_valid_string_loop (body : Z -> M (Z + bool)) (start : Z) (m : nat) (p e : Z)
      (s : kernel W) :
  (forall str s,
      body str s
      = (c <- load_user_byte str ;;
         if c =? 0 then ret (inr true)
         else
           let str := wrap32 (str + 1) in
           if pg_round_down str =? str
           then
             ok <- ensure_valid_ptr E str ;;
             if negb ok
             then ASSERT (unpin_range start (wrap32 (str - start)))
                         "unpin_range (start, str - start)" ;;;
                  ret (inr false)
             else ret (inl str)
           else ret (inl str)) s) ->
  0 < p -> e = p + Z.of_nat m -> e < PHYS_BASE ->
  c_string s p (Z.of_nat m) ->
  (forall key, key mod PGSIZE = 0 -> p < key <= e ->
               exists pte, cur_supp_pt s !! key = Some pte /\ loc pte = InFrame) ->
  exists s',
    rounds (S m) body p s = Ret (inr true) s'
    /\ (forall key,
          cur_supp_pt s' !! key
          = if bool_decide (key mod PGSIZE = 0 /\ p < key <= e)
            then pte_set_pinned true <$> cur_supp_pt s !! key
            else cur_supp_pt s !! key)
    /\ mem s' = mem s /\ world s' = world s /\ klog s' = klog s /\ ftable s' = ftable s
    /\ tf s' = tf s /\ cur_pagedir s' = cur_pagedir s
    /\ filesys_lock s' = filesys_lock s /\ cur s' = cur s.
Proof.
  intros Hbody. revert p s.
  induction m as [|m IH]; intros p s Hp He Hend (Hchars & Hnul) Hres.
  - cbn [rounds]. rewrite Hbody. unfold bind.
    rewrite Z.add_0_r in Hnul. rewrite (load_user_byte_view s p 0 Hnul).
    change (0 =? 0) with true. cbv iota. cbn [ret].
    exists s. split; [reflexivity|]. split; [|repeat split; reflexivity].
    intros key. rewrite bool_decide_eq_false_2 by lia. reflexivity.
  - cbn [rounds]. rewrite Hbody. unfold bind at 1.
    destruct (Hchars 0) as (c & Hc & Hc0); [lia|]. rewrite Z.add_0_r in Hc.
    rewrite (load_user_byte_view s p c Hc).
    assert (Hcz : (c =? 0) = false) by (apply Z.eqb_neq; exact Hc0). rewrite Hcz.
    cbv zeta.
    assert (Hw : wrap32 (p + 1) = p + 1).
    { unfold wrap32. apply Z.mod_small. unfold PHYS_BASE in Hend. lia. }
    rewrite Hw.
    assert (Hp1 : 0 <= p + 1 < 2 ^ 32) by (unfold PHYS_BASE in Hend; lia).
    assert (Hstr : c_string s (p + 1) (Z.of_nat m)).
    { split.
      - intros i Hi. replace (p + 1 + i) with (p + (i + 1)) by lia. apply Hchars. lia.
      - replace (p + 1 + Z.of_nat m) with (p + Z.of_nat (S m)) by lia. exact Hnul. }
    destruct (pg_round_down (p + 1) =? p + 1) eqn:Hal.
    + apply Z.eqb_eq in Hal. pose proof (proj1 (aligned_iff (p + 1) Hp1) Hal) as Hmod.
      destruct (Hres (p + 1) Hmod ltac:(lia)) as (pte & Hpte & Hloc).
      unfold bind at 1.
      rewrite (ensure_valid_ptr_pins (p + 1) pte s ltac:(lia)
                 ltac:(rewrite Hal; exact Hpte) Hloc).
      cbn [negb ret]. rewrite Hal.
      destruct (set_pinned_frame (p + 1) true s) as (F1 & F2 & F3 & F4 & F5 & F6 & F7 & F8).
      destruct (IH (p + 1) (set_pinned (p + 1) true s))
        as (s' & Hrun & Hkeys & Hm & Hwd & Hlog & Hft & Htf & Hpd & Hlk & Hcu).
      * lia.
      * lia.
      * exact Hend.
      * destruct Hstr as (Hs1 & Hs2). split.
        -- intros i Hi. rewrite (user_view_frame s _ _ F6 F1). apply Hs1. exact Hi.
        -- rewrite (user_view_frame s _ _ F6 F1). exact Hs2.
      * intros key Hk Hr. destruct (Hres key Hk ltac:(lia)) as (q & Hq & Hl).
        rewrite cur_supp_pt_set_pinned, lookup_alter_ne by lia. exists q. split; assumption.
      * exists s'. split; [exact Hrun|]. split; [|repeat split; congruence].
        intros key. rewrite Hkeys, cur_supp_pt_set_pinned.
        destruct (decide (key = p + 1)) as [->|Hk].
        -- rewrite bool_decide_eq_false_2 by lia.
           rewrite bool_decide_eq_true_2 by (split; [exact Hmod|lia]).
           apply lookup_alter_eq.
        -- rewrite lookup_alter_ne by congruence.
           destruct (decide (key mod PGSIZE = 0 /\ p < key <= e)) as [[Hk1 Hk2]|Hout].
           ++ rewrite !bool_decide_eq_true_2 by (split; [assumption|lia]). reflexivity.
           ++ rewrite !bool_decide_eq_false_2; [reflexivity|exact Hout|].
              intros [Hk1 Hk2]. apply Hout. split; [exact Hk1|lia].
    + apply Z.eqb_neq in Hal. cbn [ret].
      destruct (IH (p + 1) s) as (s' & Hrun & Hkeys & Hrest).
      * lia.
      * lia.
      * exact Hend.
      * exact Hstr.
      * intros key Hk Hr. apply Hres; [exact Hk|lia].
      * exists s'. split; [exact Hrun|]. split; [|exact Hrest].
        intros key. rewrite Hkeys.
        destruct (decide (key = p + 1)) as [->|Hk].
        -- rewrite !bool_decide_eq_false_2; [reflexivity| |lia].
           intros [Hk1 _]. apply Hal. apply aligned_iff; assumption.
        -- destruct (decide (key mod PGSIZE = 0 /\ p < key <= e)) as [[Hk1 Hk2]|Hout].
           ++ rewrite !bool_decide_eq_true_2 by (split; [assumption|lia]). reflexivity.
           ++ rewrite !bool_decide_eq_false_2; [reflexivity|exact Hout|].
              intros [Hk1 Hk2]. apply Hout. split; [exact Hk1|lia].
Qed.

(** [ensure_valid_string] on a string whose pages are in a frame. *)
Lemma ensure_valid_string_pages (str n : Z) (s : kernel W) :
  PGSIZE <= str -> 0 <= n -> str + n < PHYS_BASE ->
  c_string s str n ->
  (forall key, range_page str (n + 1) key ->
               exists pte, cur_supp_pt s !! key = Some pte /\ loc pte = InFrame) ->
  exists s',
    ensure_valid_string E str s = Ret true s'
    /\ (forall key, range_page str (n + 1) key ->
                    cur_supp_pt s' !! key = pte_set_pinned true <$> cur_supp_pt s !! key)
    /\ (forall key, ~ range_page str (n + 1) key ->
                    cur_supp_pt s' !! key = cur_supp_pt s !! key)
    /\ mem s' = mem s /\ world s' = world s /\ klog s' = klog s /\ ftable s' = ftable s
    /\ tf s' = tf s /\ cur_pagedir s' = cur_pagedir s
    /\ filesys_lock s' = filesys_lock s /\ cur s' = cur s.
Proof.
  intros Hstr Hn Hend Hcs Hres. rewrite PGSIZE_eq in Hstr.
  assert (Hp : 0 <= str < 2 ^ 32) by (unfold PHYS_BASE in Hend; lia).
  destruct (pg_round_down_bounds str Hp) as (Hlo & Hhi & Hal).
  destruct (Hres (pg_round_down str)) as (pte & Hpte & Hloc); [split; [exact Hal|lia]|].
  unfold ensure_valid_string. unfold bind at 1.
  rewrite (ensure_valid_ptr_pins str pte s ltac:(lia) Hpte Hloc). cbn [negb].
  destruct (set_pinned_frame (pg_round_down str) true s)
    as (F1 & F2 & F3 & F4 & F5 & F6 & F7 & F8).
  match goal with
  | |- context [while_bytes ?b str] => set (body := b)
  end.
  destruct (ensure_valid_string_loop body str (Z.to_nat n) str (str + n)
                                     (set_pinned (pg_round_down str) true s))
    as (s' & Hrun & Hkeys & Hm & Hwd & Hlog & Hft & Htf & Hpd & Hlk & Hcu).
  - intros p s0. reflexivity.
  - lia.
  - lia.
  - exact Hend.
  - rewrite Z2Nat.id by lia. destruct Hcs as (Hs1 & Hs2). split.
    + intros i Hi. rewrite (user_view_frame s _ _ F6 F1). apply Hs1. exact Hi.
    + rewrite (user_view_frame s _ _ F6 F1). exact Hs2.
  - intros key Hk Hr. destruct (Hres key) as (q & Hq & Hl); [split; [exact Hk|lia]|].
    rewrite cur_supp_pt_set_pinned.
    destruct (decide (key = pg_round_down str)) as [->|Hne].
    + rewrite lookup_alter_eq, Hq. eexists. split; [reflexivity|]. destruct q; exact Hl.
    + rewrite lookup_alter_ne by congruence. exists q. split; assumption.
  - rewrite (while_bytes_rounds (S (Z.to_nat n)) body str true _ s' ltac:(unfold PHYS_BASE in Hend; lia) Hrun).
    exists s'. split; [reflexivity|]. split; [|split; [|repeat split; congruence]].
    + intros key (Hk1 & Hk2). rewrite Hkeys, cur_supp_pt_set_pinned.
      destruct (decide (key = pg_round_down str)) as [->|Hne].
      * rewrite bool_decide_eq_false_2 by lia. apply lookup_alter_eq.
      * rewrite lookup_alter_ne by congruence.
        rewrite bool_decide_eq_true_2; [reflexivity|]. split; [exact Hk1|].
        pose proof (aligned_step (pg_round_down str) key Hal Hk1 ltac:(lia)).
        rewrite PGSIZE_eq in *. lia.
    + intros key Hout. rewrite Hkeys, cur_supp_pt_set_pinned.
      assert (Hne : key <> pg_round_down str).
      { intros ->. apply Hout. split; [exact Hal|lia]. }
      rewrite lookup_alter_ne by congruence.
      rewrite bool_decide_eq_false_2; [reflexivity|].
      intros (Hk1 & Hk2). apply Hout. split; [exact Hk1|lia].
Qed.

Lemma unpin_ptr_described (ptr : Z) (s : kernel W) :
  is_Some (cur_supp_pt s !! pg_round_down ptr) ->
  unpin_ptr ptr s = Ret true (set_pinned (pg_round_down ptr) false s).
Proof.
  intros [pte Hpte]. unfold unpin_ptr, supp_pt_lookup. rewrite Hpte. reflexivity.
Qed.

(** The [while] loop of [unpin_string] from [p] to the end [e] of a string
    whose pages all have a descriptor. *)
Lemma unpin_string_loop (body : Z -> M (Z + bool)) (m : nat) (p e : Z) (s : kernel W) :
  (forall str s,
      body str s
      = (c <- load_user_byte str ;;
         if c =? 0 then ret (inr true)
         else
           let str := wrap32 (str + 1) in
           if pg_round_down str =? str
           then ok <- unpin_ptr str ;; if negb ok then ret (inr false) else ret (inl str)
           else ret (inl str)) s) ->
  0 <= p -> e = p + Z.of_nat m -> e < PHYS_BASE ->
  c_string s p (Z.of_nat m) ->
  (forall key, key mod PGSIZE = 0 -> p < key <= e -> is_Some (cur_supp_pt s !! key)) ->
  exists s',
    rounds (S m) body p s = Ret (inr true) s'
    /\ (forall key,
          cur_supp_pt s' !! key
          = if bool_decide (key mod PGSIZE = 0 /\ p < key <= e)
            then pte_set_pinned false <$> cur_supp_pt s !! key
            else cur_supp_pt s !! key)
    /\ mem s' = mem s /\ world s' = world s /\ klog s' = klog s /\ ftable s' = ftable s
    /\ tf s' = tf s /\ cur_pagedir s' = cur_pagedir s
    /\ filesys_lock s' = filesys_lock s /\ cur s' = cur s.
Proof.
  intros Hbody. revert p s.
  induction m as [|m IH]; intros p s Hp He Hend (Hchars & Hnul) Hres.
  - cbn [rounds]. rewrite Hbody. unfold bind.
    rewrite Z.add_0_r in Hnul. rewrite (load_user_byte_view s p 0 Hnul).
    change (0 =? 0) with true. cbv iota. cbn [ret].
    exists s. split; [reflexivity|]. split; [|repeat split; reflexivity].
    intros key. rewrite bool_decide_eq_false_2 by lia. reflexivity.
  - cbn [rounds]. rewrite Hbody. unfold bind at 1.
    destruct (Hchars 0) as (c & Hc & Hc0); [lia|]. rewrite Z.add_0_r in Hc.
    rewrite (load_user_byte_view s p c Hc).
    assert (Hcz : (c =? 0) = false) by (apply Z.eqb_neq; exact Hc0). rewrite Hcz.
    cbv zeta.
    assert (Hw : wrap32 (p + 1) = p + 1).
    { unfold wrap32. apply Z.mod_small. unfold PHYS_BASE in Hend. lia. }
    rewrite Hw.
    assert (Hp1 : 0 <= p + 1 < 2 ^ 32) by (unfold PHYS_BASE in Hend; lia).
    assert (Hstr : c_string s (p + 1) (Z.of_nat m)).
    { split.
      - intros i Hi. replace (p + 1 + i) with (p + (i + 1)) by lia. apply Hchars. lia.
      - replace (p + 1 + Z.of_nat m) with (p + Z.of_nat (S m)) by lia. exact Hnul. }
    destruct (pg_round_down (p + 1) =? p + 1) eqn:Hal.
    + apply Z.eqb_eq in Hal. pose proof (proj1 (aligned_iff (p + 1) Hp1) Hal) as Hmod.
      pose proof (Hres (p + 1) Hmod ltac:(lia)) as Hsome.
      unfold bind at 1.
      rewrite (unpin_ptr_described (p + 1) s ltac:(rewrite Hal; exact Hsome)).
      cbn [negb ret]. rewrite Hal.
      destruct (set_pinned_frame (p + 1) false s) as (F1 & F2 & F3 & F4 & F5 & F6 & F7 & F8).
      destruct (IH (p + 1) (set_pinned (p + 1) false s))
        as (s' & Hrun & Hkeys & Hm & Hwd & Hlog & Hft & Htf & Hpd & Hlk & Hcu).
      * lia.
      * lia.
      * exact Hend.
      * destruct Hstr as (Hs1 & Hs2). split.
        -- intros i Hi. rewrite (user_view_frame s _ _ F6 F1). apply Hs1. exact Hi.
        -- rewrite (user_view_frame s _ _ F6 F1). exact Hs2.
      * intros key Hk Hr. rewrite cur_supp_pt_set_pinned, lookup_alter_ne by lia.
        apply Hres; [exact Hk|lia].
      * exists s'. split; [exact Hrun|]. split; [|repeat split; congruence].
        intros key. rewrite Hkeys, cur_supp_pt_set_pinned.
        destruct (decide (key = p + 1)) as [->|Hk].
        -- rewrite bool_decide_eq_false_2 by lia.
           rewrite bool_decide_eq_true_2 by (split; [exact Hmod|lia]).
           apply lookup_alter_eq.
        -- rewrite lookup_alter_ne by congruence.
           destruct (decide (key mod PGSIZE = 0 /\ p < key <= e)) as [[Hk1 Hk2]|Hout].
           ++ rewrite !bool_decide_eq_true_2 by (split; [assumption|lia]). reflexivity.
           ++ rewrite !bool_decide_eq_false_2; [reflexivity|exact Hout|].
              intros [Hk1 Hk2]. apply Hout. split; [exact Hk1|lia].
    + apply Z.eqb_neq in Hal. cbn [ret].
      destruct (IH (p + 1) s) as (s' & Hrun & Hkeys & Hrest).
      * lia.
      * lia.
      * exact Hend.
      * exact Hstr.
      * intros key Hk Hr. apply Hres; [exact Hk|lia].
      * exists s'. split; [exact Hrun|]. split; [|exact Hrest].
        intros key. rewrite Hkeys.
        destruct (decide (key = p + 1)) as [->|Hk].
        -- rewrite !bool_decide_eq_false_2; [reflexivity| |lia].
           intros [Hk1 _]. apply Hal. apply aligned_iff; assumption.
        -- destruct (decide (key mod PGSIZE = 0 /\ p < key <= e)) as [[Hk1 Hk2]|Hout].
           ++ rewrite !bool_decide_eq_true_2 by (split; [assumption|lia]). reflexivity.
           ++ rewrite !bool_decide_eq_false_2; [reflexivity|exact Hout|].
              intros [Hk1 Hk2]. apply Hout. split; [exact Hk1|lia].
Qed.

(** [unpin_string] on a string whose pages all have a descriptor. *)
Lemma unpin_string_pages (str n : Z) (s : kernel W) :
  0 <= str -> 0 <= n -> str + n < PHYS_BASE ->
  c_string s str n ->
  (forall key, range_page str (n + 1) key -> is_Some (cur_supp_pt s !! key)) ->
  exists s',
    unpin_string str s = Ret true s'
    /\ (forall key, range_page str (n + 1) key ->
                    cur_supp_pt s' !! key = pte_set_pinned false <$> cur_supp_pt s !! key)
    /\ (forall key, ~ range_page str (n + 1) key ->
                    cur_supp_pt s' !! key = cur_supp_pt s !! key)
    /\ mem s' = mem s /\ world s' = world s /\ klog s' = klog s /\ ftable s' = ftable s
    /\ tf s' = tf s /\ cur_pagedir s' = cur_pagedir s
    /\ filesys_lock s' = filesys_lock s /\ cur s' = cur s.
Proof.
  intros Hstr Hn Hend Hcs Hres.
  assert (Hp : 0 <= str < 2 ^ 32) by (unfold PHYS_BASE in Hend; lia).
  destruct (pg_round_down_bounds str Hp) as (Hlo & Hhi & Hal).
  pose proof (Hres (pg_round_down str) ltac:(split; [exact Hal|lia])) as Hsome.
  unfold unpin_string. unfold bind at 1.
  rewrite (unpin_ptr_described str s Hsome). cbn [negb].
  destruct (set_pinned_frame (pg_round_down str) false s)
    as (F1 & F2 & F3 & F4 & F5 & F6 & F7 & F8).
  match goal with
  | |- context [while_bytes ?b str] => set (body := b)
  end.
  destruct (unpin_string_loop body (Z.to_nat n) str (str + n)
                              (set_pinned (pg_round_down str) false s))
    as (s' & Hrun & Hkeys & Hm & Hwd & Hlog & Hft & Htf & Hpd & Hlk & Hcu).
  - intros p s0. reflexivity.
  - lia.
  - lia.
  - exact Hend.
  - rewrite Z2Nat.id by lia. destruct Hcs as (Hs1 & Hs2). split.
    + intros i Hi. rewrite (user_view_frame s _ _ F6 F1). apply Hs1. exact Hi.
    + rewrite (user_view_frame s _ _ F6 F1). exact Hs2.
  - intros key Hk Hr. rewrite cur_supp_pt_set_pinned. apply lookup_alter_is_Some.
    apply Hres. split; [exact Hk|lia].
  - rewrite (while_bytes_rounds (S (Z.to_nat n)) body str true _ s'
               ltac:(unfold PHYS_BASE in Hend; lia) Hrun).
    exists s'. split; [reflexivity|]. split; [|split; [|repeat split; congruence]].
    + intros key (Hk1 & Hk2). rewrite Hkeys, cur_supp_pt_set_pinned.
      destruct (decide (key = pg_round_down str)) as [->|Hne].
      * rewrite bool_decide_eq_false_2 by lia. apply lookup_alter_eq.
      * rewrite lookup_alter_ne by congruence.
        rewrite bool_decide_eq_true_2; [reflexivity|]. split; [exact Hk1|].
        pose proof (aligned_step (pg_round_down str) key Hal Hk1 ltac:(lia)).
        rewrite PGSIZE_eq in *. lia.
    + intros key Hout. rewrite Hkeys, cur_supp_pt_set_pinned.
      assert (Hne : key <> pg_round_down str).
      { intros ->. apply Hout. split; [exact Hal|lia]. }
      rewrite lookup_alter_ne by congruence.
      rewrite bool_decide_eq_false_2; [reflexivity|].
      intros (Hk1 & Hk2). apply Hout. split; [exact Hk1|lia].
Qed.

(** X23.  [ensure_valid_string] on a string of user space, above page 0,
    whose pages are in a frame returns true; it sets the pinned flag of
    exactly the pages that hold the string and its terminating 0 byte, and
    loads, allocates or evicts nothing. *)
Theorem ensure_valid_string_pins (str n : Z) (s : kernel W) :
  PGSIZE <= str -> 0 <= n -> str + n < PHYS_BASE ->
  c_string s str n ->
  (forall key, range_page str (n + 1) key ->
               exists pte, cur_supp_pt s !! key = Some pte /\ loc pte = InFrame) ->
  exists s',
    ensure_valid_string E str s = Ret true s'
    /\ (forall key pte, range_page str (n + 1) key -> cur_supp_pt s !! key = Some pte ->
                        cur_supp_pt s' !! key = Some (pte_set_pinned true pte))
    /\ (forall key, ~ range_page str (n + 1) key ->
                    cur_supp_pt s' !! key = cur_supp_pt s !! key)
    /\ mem s' = mem s /\ world s' = world s /\ klog s' = klog s /\ ftable s' = ftable s
    /\ tf s' = tf s /\ cur_pagedir s' = cur_pagedir s.
Proof.
  intros Hstr Hn Hend Hcs Hres.
  destruct (ensure_valid_string_pages str n s Hstr Hn Hend Hcs Hres)
    as (s' & Hrun & Hin & Hout & Hm & Hw & Hlog & Hft & Htf & Hpd & _).
  exists s'. split; [exact Hrun|].
  split; [|split; [exact Hout|repeat split; assumption]].
  intros key pte Hk Hpte. rewrite (Hin key Hk), Hpte. reflexivity.
Qed.

(** What the handlers that take a file name do around the call they make:
    the name is pinned before and unpinned after it. *)
Lemma string_pin_unpin (str n : Z) (s : kernel W) :
  PGSIZE <= str -> 0 <= n -> str + n < PHYS_BASE ->
  c_string s str n ->
  (forall key, range_page str (n + 1) key ->
               exists pte, cur_supp_pt s !! key = Some pte /\ loc pte = InFrame
                           /\ pinned pte = false) ->
  exists s1,
    ensure_valid_string E str s = Ret true s1
    /\ mem s1 = mem s /\ world s1 = world s /\ klog s1 = klog s /\ tf s1 = tf s
    /\ cur_pagedir s1 = cur_pagedir s /\ filesys_lock s1 = filesys_lock s /\ cur s1 = cur s
    /\ forall s2 : kernel W,
         threads s2 = threads s1 -> cur s2 = cur s1 -> mem s2 = mem s1 ->
         exists s3,
           unpin_string str s2 = Ret true s3
           /\ cur_supp_pt s3 = cur_supp_pt s
           /\ mem s3 = mem s2 /\ world s3 = world s2 /\ klog s3 = klog s2 /\ tf s3 = tf s2
           /\ filesys_lock s3 = filesys_lock s2 /\ cur_pagedir s3 = cur_pagedir s2.
Proof.
  intros Hstr Hn Hend Hcs Hres.
  destruct (ensure_valid_string_pages str n s Hstr Hn Hend Hcs)
    as (s1 & Hrun1 & Hin1 & Hout1 & Hm1 & Hw1 & Hlog1 & _ & Htf1 & Hpd1 & Hlk1 & Hcur1).
  { intros key Hk. destruct (Hres key Hk) as (pte & Hpte & Hloc & _).
    exists pte. split; assumption. }
  exists s1. split; [exact Hrun1|]. repeat (split; [assumption|]).
  intros s2 Hthr Hcur Hmem.
  assert (Hspt : cur_supp_pt s2 = cur_supp_pt s1)
    by (unfold cur_supp_pt, thread_current; rewrite Hthr, Hcur; reflexivity).
  assert (Hpd : cur_pagedir s2 = cur_pagedir s1)
    by (unfold cur_pagedir, thread_current; rewrite Hthr, Hcur; reflexivity).
  destruct (unpin_string_pages str n s2 ltac:(rewrite PGSIZE_eq in Hstr; lia) Hn Hend)
    as (s3 & Hrun3 & Hin3 & Hout3 & Hm3 & Hw3 & Hlog3 & _ & Htf3 & Hpd3 & Hlk3 & _).
  { destruct Hcs as (Hs1 & Hs2).
    assert (Hv : forall a, user_view s2 a = user_view s a).
    { intros a. rewrite (user_view_frame s1 s2 a Hpd Hmem). apply user_view_frame; assumption. }
    split.
    - intros i Hi. rewrite Hv. apply Hs1. exact Hi.
    - rewrite Hv. exact Hs2. }
  { intros key Hk. rewrite Hspt, (Hin1 key Hk). destruct (Hres key Hk) as (pte & Hpte & _).
    rewrite Hpte. eexists. reflexivity. }
  exists s3. split; [exact Hrun3|]. split; [|repeat split; assumption].
  rewrite <- Hspt in Hin1, Hout1.
  apply (pin_unpin_supp_pt str (n + 1) _ (cur_supp_pt s2)); try assumption.
  intros key Hk. destruct (Hres key Hk) as (pte & Hpte & _ & Hpin). exists pte. split; assumption.
Qed.

(** X24.  On a string whose pages are in a frame and not pinned,
    [ensure_valid_string] followed by [unpin_string] both return true and
    leave the supplementary page table as it was. *)
Theorem string_validate_then_unpin (str n : Z) (s : kernel W) :
  PGSIZE <= str -> 0 <= n -> str + n < PHYS_BASE ->
  c_string s str n ->
  (forall key, range_page str (n + 1) key ->
               exists pte, cur_supp_pt s !! key = Some pte /\ loc pte = InFrame
                           /\ pinned pte = false) ->
  exists s1 s2,
    ensure_valid_string E str s = Ret true s1
    /\ unpin_string str s1 = Ret true s2
    /\ cur_supp_pt s2 = cur_supp_pt s
    /\ mem s2 = mem s /\ world s2 = world s /\ cur_pagedir s2 = cur_pagedir s.
Proof.
  intros Hstr Hn Hend Hcs Hres.
  destruct (string_pin_unpin str n s Hstr Hn Hend Hcs Hres)
    as (s1 & Hrun1 & Hm1 & Hw1 & _ & _ & Hpd1 & _ & _ & Hun).
  destruct (Hun s1 eq_refl eq_refl eq_refl)
    as (s2 & Hrun2 & Hspt & Hm2 & Hw2 & _ & _ & _ & Hpd2).
  exists s1, s2. split; [exact Hrun1|]. split; [exact Hrun2|]. split; [exact Hspt|].
  repeat split; congruence.
Qed.

(** X25.  The handlers that take a file name, on a name that is resident and
    not pinned.  [sys_open], [sys_create] and [sys_remove] make their call
    into the file system between one acquire and one release of the lock:
    the log of events has the acquire, the call and the release, in this
    order.  [sys_exec] calls [process_execute] without the lock.  The callee
    sees user memory as it was ([view]), [eax] is its result ([bool] results
    as 0 or 1), the collaborators are in the state it left them in, and the
    name is unpinned again: the supplementary page table and memory are as
    before the call. *)
Theorem file_name_handlers (file n initial_size : Z) (s : kernel W) :
  PGSIZE <= file -> 0 <= n -> file + n < PHYS_BASE ->
  c_string s file n ->
  (forall key, range_page file (n + 1) key ->
               exists pte, cur_supp_pt s !! key = Some pte /\ loc pte = InFrame
                           /\ pinned pte = false) ->
  filesys_lock s <> Some (cur s) ->
  let done (locked : bool) (callee : string) (res : (Z -> option Z) -> W -> Z * W)
           (r : outcome (kernel W) unit) :=
    exists s' view,
      r = Ret tt s'
      /\ (forall a, view a = user_view s a)
      /\ eax (tf s') = wrap32 (res view (world s)).1
      /\ world s' = (res view (world s)).2
      /\ cur_supp_pt s' = cur_supp_pt s /\ mem s' = mem s
      /\ if locked
         then filesys_lock s' = None
              /\ klog s' = klog s ++ [EvLockAcquire (cur s); EvCall callee;
                                      EvLockRelease (cur s)]
         else filesys_lock s' = filesys_lock s /\ klog s' = klog s ++ [EvCall callee] in
  done true "fd_table_open" (fun v w => fd_table_open E v file w) (sys_open E file s)
  /\ done true "filesys_create"
          (fun v w => (bool_to_Z (filesys_create E v file initial_size w).1,
                       (filesys_create E v file initial_size w).2))
          (sys_create E file initial_size s)
  /\ done true "filesys_remove"
          (fun v w => (bool_to_Z (filesys_remove E v file w).1,
                       (filesys_remove E v file w).2))
          (sys_remove E file s)
  /\ done false "process_execute" (fun v w => process_execute E v file w)
          (sys_exec E file s).
Proof.
  intros Hstr Hn Hend Hcs Hres Hfree done. subst done. cbv beta.
  destruct (string_pin_unpin file n s Hstr Hn Hend Hcs Hres)
    as (s1 & Hvalid & Hm1 & Hw1 & Hlog1 & Htf1 & Hpd1 & Hlk1 & Hcur1 & Hun).
  assert (Hfree1 : filesys_lock s1 <> Some (cur s1)) by (rewrite Hlk1, Hcur1; exact Hfree).
  assert (Hview1 : forall a, user_view s1 a = user_view s a).
  { intros a. apply user_view_frame; assumption. }
  assert (Hlocked : forall (callee : string) (res : (Z -> option Z) -> W -> Z * W)
                           (h : M unit),
             (forall s0, h s0 = Ret tt (set_eax (wrap32 (res (user_view s0) (world s0)).1)
                                          (log (EvCall callee)
                                             (set_world (res (user_view s0) (world s0)).2
                                                        s0)))) ->
             exists s' view,
               (lock_acquire ;;; h ;;; lock_release ;;; unpin_string file ;;; ret tt) s1
               = Ret tt s'
               /\ (forall a, view a = user_view s a)
               /\ eax (tf s') = wrap32 (res view (world s)).1
               /\ world s' = (res view (world s)).2
               /\ cur_supp_pt s' = cur_supp_pt s /\ mem s' = mem s
               /\ filesys_lock s' = None
               /\ klog s' = klog s ++ [EvLockAcquire (cur s); EvCall callee;
                                       EvLockRelease (cur s)]).
  { intros callee res h Hh. unfold bind at 1. rewrite (lock_acquire_free s1 Hfree1).
    remember (log (EvLockAcquire (cur s1)) (set_filesys_lock (Some (cur s1)) s1)) as s2
      eqn:Hs2.
    assert (Hview2 : forall a, user_view s2 a = user_view s a)
      by (intros a; rewrite Hs2; exact (Hview1 a)).
    assert (Hw2 : world s2 = world s) by (rewrite Hs2; exact Hw1).
    unfold bind at 1. rewrite Hh, Hw2.
    remember (set_eax (wrap32 (res (user_view s2) (world s)).1)
                      (log (EvCall callee)
                           (set_world (res (user_view s2) (world s)).2 s2))) as s3 eqn:Hs3.
    assert (Hheld : filesys_lock s3 = Some (cur s3)) by (rewrite Hs3, Hs2; reflexivity).
    unfold bind at 1. rewrite (lock_release_held s3 Hheld).
    remember (log (EvLockRelease (cur s3)) (set_filesys_lock None s3)) as s4 eqn:Hs4.
    destruct (Hun s4) as (s5 & Hrun5 & Hspt5 & Hm5 & Hw5 & Hlog5 & Htf5 & Hlk5 & _).
    { rewrite Hs4, Hs3, Hs2. reflexivity. }
    { rewrite Hs4, Hs3, Hs2. reflexivity. }
    { rewrite Hs4, Hs3, Hs2. reflexivity. }
    unfold bind. rewrite Hrun5. exists s5, (user_view s2). split; [reflexivity|].
    split; [exact Hview2|].
    split; [rewrite Htf5, Hs4, Hs3; reflexivity|].
    split; [rewrite Hw5, Hs4, Hs3; reflexivity|].
    split; [exact Hspt5|]. split; [rewrite Hm5, Hs4, Hs3, Hs2; exact Hm1|].
    split; [rewrite Hlk5, Hs4; reflexivity|].
    rewrite Hlog5, Hs4, Hs3, Hs2. unfold log, set_klog.
    cbn [klog cur set_eax set_tf set_world set_filesys_lock].
    rewrite Hlog1, Hcur1, <- !app_assoc. reflexivity. }
  split; [|split; [|split]].
  - destruct (Hlocked "fd_table_open" (fun v w => fd_table_open E v file w)
                (fd <- (fun s => call_named "fd_table_open"
                                            (fd_table_open E (user_view s) file) s) ;;
                 return_value fd))
      as (s' & view & Hrun & Hrest).
    { intros s0. unfold bind, call_named, return_value.
      destruct (fd_table_open E (user_view s0) file (world s0)); reflexivity. }
    exists s', view. split; [|exact Hrest].
    unfold sys_open. unfold bind at 1. rewrite Hvalid. cbn [negb exit_on].
    unfold bind at 1. cbn [ret]. unfold bind in Hrun |- *.
    destruct (lock_acquire s1) as [[] s2| | | | | |]; try discriminate Hrun.
    unfold call_named, return_value in Hrun |- *.
    destruct (fd_table_open E (user_view s2) file (world s2)); exact Hrun.
  - destruct (Hlocked "filesys_create"
                (fun v w => (bool_to_Z (filesys_create E v file initial_size w).1,
                             (filesys_create E v file initial_size w).2))
                (r <- (fun s => call_named "filesys_create"
                                  (filesys_create E (user_view s) file initial_size) s) ;;
                 return_value (bool_to_Z r)))
      as (s' & view & Hrun & Hrest).
    { intros s0. unfold bind, call_named, return_value.
      destruct (filesys_create E (user_view s0) file initial_size (world s0)); reflexivity. }
    exists s', view. split; [|exact Hrest].
    unfold sys_create. unfold bind at 1. rewrite Hvalid. cbn [negb exit_on].
    unfold bind at 1. cbn [ret]. unfold bind in Hrun |- *.
    destruct (lock_acquire s1) as [[] s2| | | | | |]; try discriminate Hrun.
    unfold call_named, return_value in Hrun |- *.
    destruct (filesys_create E (user_view s2) file initial_size (world s2)); exact Hrun.
  - destruct (Hlocked "filesys_remove"
                (fun v w => (bool_to_Z (filesys_remove E v file w).1,
                             (filesys_remove E v file w).2))
                (r <- (fun s => call_named "filesys_remove"
                                  (filesys_remove E (user_view s) file) s) ;;
                 return_value (bool_to_Z r)))
      as (s' & view & Hrun & Hrest).
    { intros s0. unfold bind, call_named, return_value.
      destruct (filesys_remove E (user_view s0) file (world s0)); reflexivity. }
    exists s', view. split; [|exact Hrest].
    unfold sys_remove. unfold bind at 1. rewrite Hvalid. cbn [negb exit_on].
    unfold bind at 1. cbn [ret]. unfold bind in Hrun |- *.
    destruct (lock_acquire s1) as [[] s2| | | | | |]; try discriminate Hrun.
    unfold call_named, return_value in Hrun |- *.
    destruct (filesys_remove E (user_view s2) file (world s2)); exact Hrun.
  - unfold sys_exec. unfold bind at 1. rewrite Hvalid. cbn [negb exit_on].
    unfold bind at 1. cbn [ret]. unfold bind at 1, call_named. rewrite Hw1.
    destruct (process_execute E (user_view s1) file (world s)) as [pid w] eqn:Hcall.
    unfold bind at 1, return_value.
    remember (set_eax (wrap32 pid) (log (EvCall "process_execute") (set_world w s1)))
      as s3 eqn:Hs3.
    destruct (Hun s3) as (s5 & Hrun5 & Hspt5 & Hm5 & Hw5 & Hlog5 & Htf5 & Hlk5 & _).
    { rewrite Hs3. reflexivity. }
    { rewrite Hs3. reflexivity. }
    { rewrite Hs3. reflexivity. }
    unfold bind. rewrite Hrun5. exists s5, (user_view s1). split; [reflexivity|].
    split; [exact Hview1|]. rewrite Hcall. cbn [fst snd].
    split; [rewrite Htf5, Hs3; reflexivity|]. split; [rewrite Hw5, Hs3; reflexivity|].
    split; [exact Hspt5|]. split; [rewrite Hm5, Hs3; exact Hm1|].
    split; [rewrite Hlk5, Hs3; exact Hlk1|].
    rewrite Hlog5, Hs3. unfold log, set_klog.
    cbn [klog set_eax set_tf set_world]. rewrite Hlog1. reflexivity.
Qed.

(** X26.  A file name that is [NULL] or a kernel address ends the process
    with status -1 in [sys_open], [sys_create], [sys_remove] and [sys_exec]
    before any lock is taken or collaborator called: nothing but the exit
    status changes. *)
Theorem bad_file_name_exits (file initial_size : Z) (s : kernel W) :
  file = NULL \/ PHYS_BASE <= file ->
  let exits (r : outcome (kernel W) unit) :=
    r = Exit (set_thread (cur s) (thread_set_exit_status (-1) (thread_current s)) s) in
  exits (sys_open E file s) /\ exits (sys_create E file initial_size s)
  /\ exits (sys_remove E file s) /\ exits (sys_exec E file s).
Proof.
  intros Hbad exits. subst exits. cbv beta.
  assert (Hv : ensure_valid_string E file s = Ret false s).
  { unfold ensure_valid_string, bind, ensure_valid_ptr.
    assert (Hc : (file =? NULL) || negb (is_user_vaddr file) = true).
    { apply orb_true_iff. destruct Hbad as [Hz|Hk].
      - left. apply Z.eqb_eq. exact Hz.
      - right. apply negb_true_iff. apply Z.ltb_ge. exact Hk. }
    rewrite Hc. reflexivity. }
  unfold sys_open, sys_create, sys_remove, sys_exec, bind. rewrite Hv.
  repeat split.
Qed.
End StringFacts.

(** ** Instances on the concrete machine *)

Lemma swap_init_and_write_page_witness :
  kheap boot_state <> 0%nat
  /\ Z.of_nat (length (swap_slots two_page_state)) * sectors_per_page <= 2 ^ 32
  /\ (exists s1, swap_init (Some (mk_block 32 ∅)) boot_state = Ret tt s1
        /\ num_swap_slots s1 = 4)
  /\ (exists s', swap_write_page toy_externals frame0 two_page_state = Ret 0 s').
Proof.
  assert (H1 : kheap boot_state <> 0%nat) by discriminate.
  assert (H2 : Z.of_nat (length (swap_slots two_page_state)) * sectors_per_page <= 2 ^ 32)
    by (vm_compute; discriminate).
  destruct (swap_init_and_write_page toy_externals (mk_block 32 ∅) boot_state two_page_state frame0 H1 H2)
    as ((s1 & Hinit & Hnum & _) & Hwrite & _).
  split; [exact H1|]. split; [exact H2|]. split.
  - exists s1. split; [exact Hinit|]. rewrite Hnum. reflexivity.
  - destruct (Hwrite 0) as (s' & Hw & _).
    + split; [lia|]. split; [reflexivity|]. intros j Hj. simpl in Hj. lia.
    + exists s'. exact Hw.
Defined.

Lemma zero_length_validation_witness :
  0 <= code_page + 2 * PGSIZE < 2 ^ 32
  /\ pg_ofs (code_page + 2 * PGSIZE) = 0
  /\ cur_supp_pt two_page_state !! (code_page + 2 * PGSIZE) = None
  /\ sys_read toy_externals STDIN_FILENO (code_page + 2 * PGSIZE) 0 two_page_state
     = Ret tt (set_eax 0 two_page_state).
Proof.
  assert (Hp : 0 <= code_page + 2 * PGSIZE < 2 ^ 32) by (vm_compute; split; [discriminate | reflexivity]).
  assert (Ho : pg_ofs (code_page + 2 * PGSIZE) = 0) by reflexivity.
  split; [exact Hp|]. split; [exact Ho|]. split; [reflexivity|].
  exact (proj1 (proj2 (proj1 (zero_length_validation toy_externals two_page_state _ Hp) Ho))).
Defined.

Lemma eviction_always_swaps_witness :
  exists fr s', frame_evict toy_externals mapped_state = Ret fr s'
    /\ (t ← threads s' !! 1; p ← supp_pt t !! mapped_page; Some (loc p, file_ref p))
       = Some (SWAP, Some 100)
    /\ toy_console (world s') = bytes_of_string "free_slot_index 0" ++ [10]
    /\ toy_pos (world s') = toy_pos (world mapped_state)
    /\ toy_len (world s') = toy_len (world mapped_state).
Proof.
  assert (H1 : ftable mapped_state <> []) by discriminate.
  assert (H2 : frames_described mapped_state).
  { intros fr Hfr. apply list_elem_of_singleton in Hfr. subst fr.
    eexists. split; [reflexivity|]. eexists. reflexivity. }
  assert (H3 : first_free (swap_slots mapped_state) 0).
  { split; [lia|]. split; [reflexivity|]. intros j Hj. simpl in Hj. lia. }
  assert (H4 : Z.of_nat (length (swap_slots mapped_state)) * sectors_per_page <= 2 ^ 32)
    by (vm_compute; discriminate).
  destruct (eviction_always_swaps toy_externals mapped_state 0 H1 H2 H3 H4)
    as (fr & s' & t & old & t' & pte & Hev & Hin & Ht & Hold & Ht' & Hpte & Hloc & _
        & _ & Hfile & _ & _ & Hworld & _).
  exists fr, s'. split; [exact Hev|].
  split; [|rewrite Hworld; repeat split; reflexivity].
  apply list_elem_of_singleton in Hin. subst fr.
  cbn [f_t f_upage] in *.
  change (pg_round_down mapped_page) with mapped_page in *.
  rewrite Ht'. cbn. rewrite Hpte. cbn. rewrite Hloc, Hfile.
  vm_compute in Ht. injection Ht as <-. vm_compute in Hold. injection Hold as <-.
  reflexivity.
Defined.



Lemma swap_round_trip_witness :
  exists s3,
    swap_write_page toy_externals frame0 two_page_state = Ret 0 one_swapped_state
    /\ swap_load_page 0 frame1 one_swapped_state = Ret true s3
    /\ load_bytes (mem s3) frame1 (Z.to_nat PGSIZE)
       = load_bytes (mem two_page_state) frame0 (Z.to_nat PGSIZE).
Proof.
  assert (H1 : Z.of_nat (length (swap_slots two_page_state)) * sectors_per_page <= 2 ^ 32)
    by (vm_compute; discriminate).
  assert (H2 : Z.of_nat (length (swap_slots two_page_state))
               <= num_swap_slots one_swapped_state) by (vm_compute; discriminate).
  assert (H3 : swap_write_page toy_externals frame0 two_page_state = Ret 0 one_swapped_state)
    by (vm_compute; reflexivity).
  destruct (swap_round_trip toy_externals two_page_state one_swapped_state one_swapped_state
                            frame0 frame1 0 H1 H2 H3 eq_refl eq_refl)
    as (s3 & Hload & Hbytes & _).
  exists s3. split; [exact H3|]. split; [exact Hload|exact Hbytes].
Defined.

Lemma swap_capacity_witness :
  exists s1 s2,
    swap_init (Some (mk_block 32 ∅)) boot_state = Ret tt s1
    /\ swap_write_pages toy_externals [frame0; frame1; frame0; frame1] s1 = Ret [0; 1; 2; 3] s2
    /\ swap_write_page toy_externals frame0 s2 = Panic "swap is full".
Proof.
  assert (H1 : kheap boot_state <> 0%nat) by discriminate.
  assert (H2 : 0 <= block_size (mk_block 32 ∅) < 2 ^ 32)
    by (vm_compute; split; [discriminate|reflexivity]).
  assert (H3 : Z.of_nat (length [frame0; frame1; frame0; frame1])
               = block_size (mk_block 32 ∅) / sectors_per_page) by reflexivity.
  exact (swap_capacity toy_externals (mk_block 32 ∅) boot_state [frame0; frame1; frame0; frame1] frame0
                       H1 H2 H3).
Defined.

Lemma swap_slots_are_exclusive_witness :
  swap_write_page toy_externals frame0 two_page_state = Ret 0 one_swapped_state
  /\ swap_write_page toy_externals frame1 one_swapped_state = Ret 1 two_swapped_state
  /\ swap_slots two_swapped_state !! Z.to_nat 0 = Some true
  /\ swap_slots two_swapped_state !! Z.to_nat 1 = Some true.
Proof.
  assert (H1 : Z.of_nat (length (swap_slots two_page_state)) * sectors_per_page <= 2 ^ 32)
    by (vm_compute; discriminate).
  assert (H2 : swap_write_page toy_externals frame0 two_page_state = Ret 0 one_swapped_state)
    by (vm_compute; reflexivity).
  assert (H3 : swap_write_page toy_externals frame1 one_swapped_state = Ret 1 two_swapped_state)
    by (vm_compute; reflexivity).
  destruct (swap_slots_are_exclusive toy_externals two_page_state one_swapped_state two_swapped_state
                                     frame0 frame1 0 1 H1 H2 H3) as (_ & Hi & Hj & _).
  split; [exact H2|]. split; [exact H3|]. split; [exact Hi|exact Hj].
Defined.

Lemma swap_load_page_releases_witness :
  exists s1,
    swap_load_page 0 frame1 one_swapped_state = Ret true s1
    /\ bitmap_test (swap_slots s1) 0 = Some false
    /\ swap_load_page 0 frame0 s1 = Ret false s1.
Proof.
  assert (H1 : 0 <= num_swap_slots one_swapped_state) by (vm_compute; discriminate).
  assert (H2 : bitmap_test (swap_slots one_swapped_state) 0 = Some true)
    by (vm_compute; reflexivity).
  destruct (swap_load_page_releases one_swapped_state 0 frame1 frame0 H1 H2)
    as (s1 & Hload & _ & Hbit & Hagain).
  exists s1. split; [exact Hload|]. split; [exact Hbit|exact Hagain].
Defined.

Lemma two_frames_described (t : thread) :
  is_Some (supp_pt t !! code_page) -> is_Some (supp_pt t !! (code_page + PGSIZE)) ->
  frames_described (set_thread 1 t two_page_state).
Proof.
  intros H0 H1 fr Hfr.
  assert (Hcases : fr = mk_frame frame0 code_page 1 false
                   \/ fr = mk_frame frame1 (code_page + PGSIZE) 1 false).
  { cbn in Hfr. apply elem_of_cons in Hfr as [->|Hfr]; [left; reflexivity|].
    apply list_elem_of_singleton in Hfr. right. exact Hfr. }
  exists t. split; [destruct Hcases as [->| ->]; apply lookup_insert_eq|].
  destruct Hcases as [->| ->]; [exact H0|exact H1].
Qed.

Lemma four_free_slots : first_free (replicate 4 false) 0.
Proof. split; [lia|]. split; [reflexivity|]. intros j Hj. simpl in Hj. lia. Qed.

Lemma frame_evict_second_chance_witness :
  exists s',
    frame_evict toy_externals first_accessed_state = Ret (mk_frame frame1 (code_page + PGSIZE) 1 false) s'
    /\ ftable s' = [mk_frame frame0 code_page 1 false]
    /\ frame_accessed s' (mk_frame frame0 code_page 1 false) = false.
Proof.
  assert (H1 : ftable first_accessed_state
               = [mk_frame frame0 code_page 1 false]
                 ++ mk_frame frame1 (code_page + PGSIZE) 1 false :: []) by reflexivity.
  assert (H2 : NoDup (map frame_page (ftable first_accessed_state))).
  { apply (bool_decide_unpack _). vm_compute. exact I. }
  assert (H3 : forall g, g ∈ [mk_frame frame0 code_page 1 false] ->
                         frame_accessed first_accessed_state g = true).
  { intros g Hg. apply list_elem_of_singleton in Hg. subst g. vm_compute. reflexivity. }
  assert (H4 : frame_accessed first_accessed_state
                 (mk_frame frame1 (code_page + PGSIZE) 1 false) = false)
    by (vm_compute; reflexivity).
  assert (H5 : frames_described first_accessed_state).
  { apply two_frames_described; eexists; reflexivity. }
  assert (H6 : Z.of_nat (length (swap_slots first_accessed_state)) * sectors_per_page
               <= 2 ^ 32) by (vm_compute; discriminate).
  destruct (frame_evict_second_chance toy_externals first_accessed_state
              [mk_frame frame0 code_page 1 false] []
              (mk_frame frame1 (code_page + PGSIZE) 1 false) 0 H1 H2 H3 H4 H5
              four_free_slots H6) as (s' & Hev & Hft & Hcl & _).
  exists s'. split; [exact Hev|]. split; [exact Hft|]. apply Hcl. left.
Defined.

Lemma frame_evict_all_accessed_witness :
  exists s',
    frame_evict toy_externals all_accessed_state = Ret (mk_frame frame0 code_page 1 false) s'
    /\ ftable s' = [mk_frame frame1 (code_page + PGSIZE) 1 false]
    /\ frame_accessed s' (mk_frame frame1 (code_page + PGSIZE) 1 false) = false.
Proof.
  assert (H1 : ftable all_accessed_state
               = mk_frame frame0 code_page 1 false
                 :: [mk_frame frame1 (code_page + PGSIZE) 1 false]) by reflexivity.
  assert (H2 : NoDup (map frame_page (ftable all_accessed_state))).
  { apply (bool_decide_unpack _). vm_compute. exact I. }
  assert (H3 : forall g, g ∈ ftable all_accessed_state ->
                         frame_accessed all_accessed_state g = true).
  { intros g Hg. cbn in Hg. apply elem_of_cons in Hg as [->|Hg]; [vm_compute; reflexivity|].
    apply list_elem_of_singleton in Hg. subst g. vm_compute. reflexivity. }
  assert (H5 : frames_described all_accessed_state).
  { apply two_frames_described; eexists; reflexivity. }
  assert (H6 : Z.of_nat (length (swap_slots all_accessed_state)) * sectors_per_page
               <= 2 ^ 32) by (vm_compute; discriminate).
  destruct (frame_evict_all_accessed toy_externals all_accessed_state
              (mk_frame frame0 code_page 1 false)
              [mk_frame frame1 (code_page + PGSIZE) 1 false] 0 H1 H2 H3 H5
              four_free_slots H6) as (s' & Hev & Hft & Hcl).
  exists s'. split; [exact Hev|]. split; [exact Hft|]. apply Hcl. left.
Defined.

Lemma frame_alloc_evicts_witness :
  exists fr s',
    frame_alloc toy_externals (code_page + 2 * PGSIZE) two_page_state = Ret (f_kpage fr) s'
    /\ last (ftable s') = Some (mk_frame (f_kpage fr) (code_page + 2 * PGSIZE) 1 false)
    /\ user_pool s' = [].
Proof.
  assert (H1 : user_pool two_page_state = []) by reflexivity.
  assert (H2 : ftable two_page_state <> []) by discriminate.
  assert (H3 : frames_described two_page_state).
  { apply (two_frames_described two_page_thread); eexists; reflexivity. }
  assert (H4 : Z.of_nat (length (swap_slots two_page_state)) * sectors_per_page <= 2 ^ 32)
    by (vm_compute; discriminate).
  destruct (frame_alloc_evicts toy_externals (code_page + 2 * PGSIZE) 0 two_page_state H1 H2 H3
                               four_free_slots H4)
    as (fr & others & s' & Hrun & _ & _ & Hlast & _ & _ & Hpool & _).
  exists fr, s'. split; [exact Hrun|]. split; [exact Hlast|exact Hpool].
Defined.

Lemma frame_free_keeps_entry_witness :
  exists s1 s2 s3,
    frame_alloc toy_externals code_page one_free_page_state = Ret frame0 s1
    /\ frame_free frame0 s1 = Ret tt s2
    /\ frame_alloc toy_externals (code_page + PGSIZE) s2 = Ret frame0 s3
    /\ ftable s3 = [mk_frame frame0 code_page 1 false;
                    mk_frame frame0 (code_page + PGSIZE) 1 false].
Proof.
  assert (H1 : user_pool one_free_page_state = frame0 :: []) by reflexivity.
  assert (H2 : frame0 <> NULL) by discriminate.
  assert (H3 : (2 <= kheap one_free_page_state)%nat) by (vm_compute; lia).
  destruct (frame_free_keeps_entry toy_externals code_page (code_page + PGSIZE) frame0 []
                                   one_free_page_state H1 H2 H3)
    as (s1 & s2 & s3 & Ha & Hf & _ & _ & Ha2 & Hft).
  exists s1, s2, s3. split; [exact Ha|]. split; [exact Hf|]. split; [exact Ha2|exact Hft].
Defined.

(** The page-aligned addresses of two consecutive pages. *)
Lemma two_pages (base key : Z) :
  base mod PGSIZE = 0 -> key mod PGSIZE = 0 -> base <= key < base + 2 * PGSIZE ->
  key = base \/ key = base + PGSIZE.
Proof.
  rewrite PGSIZE_eq. intros Hb Hk Hr.
  pose proof (Z.div_mod base 4096). pose proof (Z.div_mod key 4096). lia.
Qed.

(** The pages of a range of [two_page_state] that lies in its two code
    pages are in a frame and not pinned. *)
Lemma two_page_range (ptr len key : Z) :
  pg_round_down ptr = code_page -> ptr + len <= code_page + 2 * PGSIZE ->
  range_page ptr len key ->
  exists pte, cur_supp_pt two_page_state !! key = Some pte /\ loc pte = InFrame
              /\ pinned pte = false.
Proof.
  intros Hbase Hend (Hk1 & Hk2). rewrite Hbase in Hk2.
  destruct (two_pages code_page key) as [-> | ->]; [reflexivity|exact Hk1|lia| |];
    eexists; (split; [reflexivity|split; reflexivity]).
Qed.

Lemma unpin_range_unpins_witness :
  exists s',
    unpin_range (code_page + 4090) 30 two_page_pinned_state = Ret true s'
    /\ cur_supp_pt s' !! (code_page + PGSIZE)
       = Some (resident_pte (code_page + PGSIZE) frame1).
Proof.
  assert (H1 : 0 <= code_page + 4090) by (vm_compute; discriminate).
  assert (H2 : 0 < 30) by lia.
  assert (H3 : code_page + 4090 + 30 <= PHYS_BASE) by (vm_compute; discriminate).
  assert (H4 : forall key, range_page (code_page + 4090) 30 key ->
                           is_Some (cur_supp_pt two_page_pinned_state !! key)).
  { intros key (Hk1 & Hk2). change (pg_round_down (code_page + 4090)) with code_page in Hk2.
    destruct (two_pages code_page key) as [-> | ->];
      [reflexivity|exact Hk1|unfold code_page, PGSIZE, PGBITS in *; lia| |];
      eexists; reflexivity. }
  destruct (unpin_range_unpins (code_page + 4090) 30 two_page_pinned_state H1 H2 H3 H4)
    as (s' & Hrun & Hin & _).
  exists s'. split; [exact Hrun|].
  apply (Hin (code_page + PGSIZE)
             (pte_set_pinned true (resident_pte (code_page + PGSIZE) frame1))).
  - split; [reflexivity|]. vm_compute. split; [discriminate|reflexivity].
  - reflexivity.
Defined.

Lemma unpin_range_stops_at_gap_witness :
  exists s',
    unpin_range code_page (3 * PGSIZE) two_page_pinned_state = Ret false s'
    /\ cur_supp_pt s' !! code_page = Some (resident_pte code_page frame0).
Proof.
  assert (H1 : 0 <= code_page) by (vm_compute; discriminate).
  assert (H2 : 0 < 3 * PGSIZE) by reflexivity.
  assert (H3 : code_page + 3 * PGSIZE <= PHYS_BASE) by (vm_compute; discriminate).
  assert (H4 : range_page code_page (3 * PGSIZE) (code_page + 2 * PGSIZE)).
  { split; [reflexivity|]. vm_compute. split; [discriminate|reflexivity]. }
  assert (H5 : cur_supp_pt two_page_pinned_state !! (code_page + 2 * PGSIZE) = None)
    by reflexivity.
  assert (H6 : forall key, range_page code_page (3 * PGSIZE) key ->
                           key < code_page + 2 * PGSIZE ->
                           is_Some (cur_supp_pt two_page_pinned_state !! key)).
  { intros key (Hk1 & Hk2) Hlt. change (pg_round_down code_page) with code_page in Hk2.
    destruct (two_pages code_page key) as [-> | ->];
      [reflexivity|exact Hk1|lia| |]; eexists; reflexivity. }
  destruct (unpin_range_stops_at_gap code_page (3 * PGSIZE) (code_page + 2 * PGSIZE)
                                     two_page_pinned_state H1 H2 H3 H4 H5 H6)
    as (s' & Hrun & Hin & _).
  exists s'. split; [exact Hrun|].
  rewrite (Hin code_page).
  - reflexivity.
  - split; [reflexivity|]. vm_compute. split; [discriminate|reflexivity].
  - reflexivity.
Defined.

Lemma ensure_valid_range_pins_resident_witness :
  exists s',
    ensure_valid_range toy_externals (code_page + 4090) 30 two_page_state = Ret true s'
    /\ cur_supp_pt s' !! code_page = Some (pte_set_pinned true (resident_pte code_page frame0))
    /\ ftable s' = ftable two_page_state.
Proof.
  assert (H1 : PGSIZE <= code_page + 4090) by (vm_compute; discriminate).
  assert (H2 : 0 <= 30) by lia.
  assert (H3 : code_page + 4090 + 30 <= PHYS_BASE) by (vm_compute; discriminate).
  assert (H4 : forall key, range_page (code_page + 4090) 30 key ->
                 exists pte, cur_supp_pt two_page_state !! key = Some pte
                             /\ loc pte = InFrame).
  { intros key Hk. destruct (two_page_range (code_page + 4090) 30 key eq_refl ltac:(vm_compute; discriminate) Hk)
      as (pte & Hpte & Hloc & _). exists pte. split; assumption. }
  destruct (ensure_valid_range_pins_resident toy_externals (code_page + 4090) 30
                                             two_page_state H1 H2 H3 H4)
    as (s' & Hrun & Hin & _ & _ & _ & _ & Hft & _).
  exists s'. split; [exact Hrun|]. split; [|exact Hft].
  apply Hin; [|reflexivity].
  split; [reflexivity|]. vm_compute. split; [discriminate|reflexivity].
Defined.

Lemma validate_then_unpin_witness :
  exists s1 s2,
    ensure_valid_range toy_externals (code_page + 4090) 30 two_page_state = Ret true s1
    /\ unpin_range (code_page + 4090) 30 s1 = Ret true s2
    /\ cur_supp_pt s2 = cur_supp_pt two_page_state.
Proof.
  assert (H1 : PGSIZE <= code_page + 4090) by (vm_compute; discriminate).
  assert (H2 : 0 < 30) by lia.
  assert (H3 : code_page + 4090 + 30 <= PHYS_BASE) by (vm_compute; discriminate).
  destruct (validate_then_unpin toy_externals (code_page + 4090) 30 two_page_state H1 H2 H3
              (fun key => two_page_range (code_page + 4090) 30 key eq_refl ltac:(vm_compute; discriminate)))
    as (s1 & s2 & Hv & Hu & Hspt & _).
  exists s1, s2. split; [exact Hv|]. split; [exact Hu|exact Hspt].
Defined.

Lemma ensure_valid_range_wraps_witness :
  ensure_valid_range toy_externals 0xbffffe00 0x50000000 boot_state = Ret true boot_state.
Proof.
  apply ensure_valid_range_wraps.
  - vm_compute. split; [discriminate|reflexivity].
  - vm_compute. split; [discriminate|reflexivity].
  - vm_compute. discriminate.
  - vm_compute. discriminate.
Defined.

Lemma ensure_valid_range_rejects_first_page_witness :
  ensure_valid_range toy_externals 5 10 two_page_state = Ret false two_page_state.
Proof.
  apply ensure_valid_range_rejects_first_page.
  - vm_compute. split; [discriminate|reflexivity].
  - vm_compute. reflexivity.
  - left. vm_compute. reflexivity.
Defined.

Lemma ensure_valid_range_failure_witness :
  exists s',
    ensure_valid_range toy_externals code_page (3 * PGSIZE) two_page_state = Ret false s'
    /\ cur_supp_pt s' !! code_page = Some (resident_pte code_page frame0)
    /\ cur_supp_pt s' !! (code_page + PGSIZE)
       = Some (pte_set_pinned true (resident_pte (code_page + PGSIZE) frame1)).
Proof.
  assert (H1 : PGSIZE <= code_page) by (vm_compute; discriminate).
  assert (H2 : 0 <= 3 * PGSIZE) by (vm_compute; discriminate).
  assert (H3 : code_page + 3 * PGSIZE <= PHYS_BASE) by (vm_compute; discriminate).
  assert (H4 : 0 <= 2) by lia.
  assert (H5 : pg_round_down code_page + 2 * PGSIZE < code_page + 3 * PGSIZE)
    by (vm_compute; reflexivity).
  assert (H6 : cur_supp_pt two_page_state !! (pg_round_down code_page + 2 * PGSIZE) = None)
    by reflexivity.
  assert (H7 : pg_round_down code_page + 2 * PGSIZE <= STACK_LIMIT toy_externals)
    by (vm_compute; discriminate).
  assert (H8 : forall key, key mod PGSIZE = 0 ->
                 pg_round_down code_page <= key < pg_round_down code_page + 2 * PGSIZE ->
                 exists pte, cur_supp_pt two_page_state !! key = Some pte
                             /\ loc pte = InFrame).
  { intros key Hk1 Hk2. change (pg_round_down code_page) with code_page in Hk2.
    destruct (two_pages code_page key) as [-> | ->]; [reflexivity|exact Hk1|lia| |];
      eexists; (split; reflexivity). }
  destruct (ensure_valid_range_failure toy_externals code_page (3 * PGSIZE) 2 two_page_state
                                       H1 H2 H3 H4 H5 H6 H7 H8) as (s' & Hrun & Hin & _).
  exists s'. split; [exact Hrun|]. split.
  - apply (Hin code_page (resident_pte code_page frame0));
      [reflexivity|vm_compute; split; [discriminate|reflexivity]|reflexivity].
  - apply (Hin (code_page + PGSIZE) (resident_pte (code_page + PGSIZE) frame1));
      [reflexivity|vm_compute; split; [discriminate|reflexivity]|reflexivity].
Defined.

Lemma file_handlers_release_lock_witness :
  (exists s', sys_filesize toy_externals 3 two_page_state = Ret tt s'
              /\ eax (tf s') = 10 /\ filesys_lock s' = None)
  /\ (exists s', sys_close toy_externals 3 two_page_state = Ret tt s'
                 /\ filesys_lock s' = None).
Proof.
  assert (H1 : filesys_lock two_page_state <> Some (cur two_page_state)) by discriminate.
  pose proof (file_handlers_release_lock toy_externals 3 5 two_page_state H1) as H.
  cbv zeta in H.
  change (fd_table_get_file toy_externals 3 (world two_page_state)) with (Some 100) in H.
  change ((fd_table_close toy_externals 3 (world two_page_state)).1) with true in H.
  cbv iota in H.
  destruct H as (((s1 & Hsize & Heax & _ & Hlock & _) & _) & (s2 & Hclose & _ & _ & Hlock2 & _)).
  split.
  - exists s1. split; [exact Hsize|]. split; [rewrite Heax; reflexivity|exact Hlock].
  - exists s2. split; [exact Hclose|exact Hlock2].
Defined.

Lemma closed_descriptor_unpins_and_exits_witness :
  exists s',
    sys_read toy_externals 7 (code_page + 4090) 30 two_page_state = Exit s'
    /\ exit_status (thread_current s') = -1
    /\ filesys_lock s' = None
    /\ cur_supp_pt s' = cur_supp_pt two_page_state.
Proof.
  assert (H1 : PGSIZE <= code_page + 4090) by (vm_compute; discriminate).
  assert (H2 : 0 < 30) by lia.
  assert (H3 : code_page + 4090 + 30 <= PHYS_BASE) by (vm_compute; discriminate).
  assert (H4 : filesys_lock two_page_state <> Some (cur two_page_state)) by discriminate.
  assert (H5 : 7 <> STDIN_FILENO) by discriminate.
  assert (H6 : 7 <> STDOUT_FILENO) by discriminate.
  assert (H7 : fd_table_get_file toy_externals 7 (world two_page_state) = None)
    by reflexivity.
  destruct (closed_descriptor_unpins_and_exits toy_externals 7 (code_page + 4090) 30
              two_page_state H1 H2 H3
              (fun key => two_page_range (code_page + 4090) 30 key eq_refl
                                         ltac:(vm_compute; discriminate))
              H4 H5 H6 H7) as ((s' & Hrun & Hstatus & Hlock & Hspt & _) & _).
  exists s'. split; [exact Hrun|]. split; [exact Hstatus|]. split; [exact Hlock|exact Hspt].
Defined.

Lemma toy_write_contract (f : Z) (data : list Z) (w : toy_world) :
  0 <= (file_write writing_externals f data w).1 <= Z.of_nat (length data).
Proof. cbn. lia. Qed.

Lemma sys_write_spec_witness :
  (exists s' data,
      sys_write writing_externals STDOUT_FILENO (code_page + 4090) 30 two_page_state
      = Ret tt s'
      /\ eax (tf s') = 30
      /\ world s' = putbuf writing_externals data (world two_page_state))
  /\ (exists s' writes,
        sys_write writing_externals 3 (code_page + 4090) 30 two_page_state = Ret tt s'
        /\ read_chain 30 0 writes
        /\ filesys_lock s' = None
        /\ map snd writes = [16; 14]
        /\ eax (tf s') = 30
        /\ toy_pos (world s') !! 100 = Some 30
        /\ toy_len (world s') !! 100 = Some 30).
Proof.
  assert (H1 : PGSIZE <= code_page + 4090) by (vm_compute; discriminate).
  assert (H2 : 0 < 30) by lia.
  assert (H3 : code_page + 4090 + 30 <= PHYS_BASE) by (vm_compute; discriminate).
  assert (H4 : buffer_resident_b two_page_state (code_page + 4090) 30 = true)
    by (vm_compute; reflexivity).
  destruct (sys_write_spec writing_externals two_page_state 3 (code_page + 4090) 30
              toy_write_contract H1 H2 H3
              (fun key => two_page_range (code_page + 4090) 30 key eq_refl
                                         ltac:(vm_compute; discriminate))
              (proj1 (buffer_resident_b_sound _ _ _ H4)))
    as ((s1 & data & Hout & Heax & _ & _ & Hworld & _) & Hfile).
  split.
  - exists s1, data. split; [exact Hout|]. split; [exact Heax|exact Hworld].
  - destruct (Hfile 100)
      as (s2 & writes & bytes & Hrun & _ & Hchain & Hsum & Hlock & _ & _ & Hlen & _ & Hruns);
      [discriminate|reflexivity|discriminate|].
    assert (Hl1 : length bytes = 30%nat) by lia.
    assert (Hexpected :
              write_run writing_externals 100 bytes (world two_page_state) [16; 14]
                (toy_write 100 (drop 16 bytes) (toy_write 100 bytes toy_world0).2).2).
    { apply (write_run_more writing_externals 100 bytes _
                            (toy_write 100 bytes toy_world0).2 _ 16 [14]).
      - intros Hnil. rewrite Hnil in Hl1. discriminate Hl1.
      - cbn [file_write writing_externals]. unfold toy_write. rewrite Hl1. reflexivity.
      - discriminate.
      - apply (write_run_more writing_externals 100 (drop 16 bytes) _
                              (toy_write 100 (drop 16 bytes) (toy_write 100 bytes toy_world0).2).2
                              _ 14 []).
        + intros Hnil. apply (f_equal length) in Hnil. rewrite length_drop, Hl1 in Hnil.
          discriminate Hnil.
        + cbn [file_write writing_externals]. unfold toy_write.
          rewrite !length_drop, Hl1. reflexivity.
        + discriminate.
        + rewrite drop_drop, drop_ge by (rewrite Hl1; cbn; lia). apply write_run_done. }
    destruct (write_run_functional writing_externals _ _ _ _ _ _ _ Hruns Hexpected)
      as [Hamounts Hworld2].
    exists s2, writes. split; [exact Hrun|]. split; [exact Hchain|]. split; [exact Hlock|].
    split; [exact Hamounts|]. split; [rewrite Hsum, Hamounts; reflexivity|].
    rewrite Hworld2. unfold toy_write. cbn [toy_pos toy_len snd].
    rewrite length_drop, Hl1. split; reflexivity.
Defined.

Lemma sys_mmap_all_or_nothing_witness :
  (exists s', sys_mmap toy_externals 3 mapped_page two_page_state = Ret tt s'
              /\ eax (tf s') = mapped_page
              /\ is_Some (cur_supp_pt s' !! mapped_page))
  /\ (exists s', sys_mmap toy_externals 3 code_page two_page_state = Ret tt s'
                 /\ eax (tf s') = MAP_FAILED
                 /\ cur_supp_pt s' = cur_supp_pt two_page_state).
Proof.
  assert (H1 : fd_table_get_file toy_externals 3 (world two_page_state) = Some 100)
    by reflexivity.
  assert (H2 : filesys_lock two_page_state <> Some (cur two_page_state)) by discriminate.
  assert (H3 : file_length toy_externals 100 (world two_page_state) = 10) by reflexivity.
  assert (H4 : 0 < 10 < 2 ^ 31) by lia.
  assert (H5 : file_reopen toy_externals 100 (world two_page_state)
               = (Some 100, world two_page_state)) by reflexivity.
  split.
  - destruct (sys_mmap_all_or_nothing toy_externals two_page_state 3 mapped_page 100 100 10
                (world two_page_state) H1 H2 H3 H4)
      as (s' & Hrun & _ & Hall & _).
    + discriminate.
    + reflexivity.
    + vm_compute. split; [discriminate|reflexivity].
    + vm_compute. discriminate.
    + exact H5.
    + vm_compute. discriminate.
    + exists s'. split; [exact Hrun|].
      destruct Hall as (Heax & _ & Hpages & _).
      { intros k Hk. change (pg_range_num 10) with 1 in Hk.
        assert (k = 0) by lia. subst k. reflexivity. }
      split; [exact Heax|].
      destruct (Hpages 0) as (pte & Hpte & _); [vm_compute; split; [discriminate|reflexivity]|].
      change (mapped_page + 0 * PGSIZE) with mapped_page in Hpte. rewrite Hpte.
      eexists. reflexivity.
  - destruct (sys_mmap_all_or_nothing toy_externals two_page_state 3 code_page 100 100 10
                (world two_page_state) H1 H2 H3 H4)
      as (s' & Hrun & _ & _ & Hnone).
    + discriminate.
    + reflexivity.
    + vm_compute. split; [discriminate|reflexivity].
    + vm_compute. discriminate.
    + exact H5.
    + vm_compute. discriminate.
    + exists s'. split; [exact Hrun|].
      destruct Hnone as (Heax & Hspt & _).
      { exists 0. split; [vm_compute; split; [discriminate|reflexivity]|].
        eexists. reflexivity. }
      split; [exact Heax|exact Hspt].
Defined.

Lemma sys_mmap_refuses_witness :
  (exists s', sys_mmap toy_externals 7 mapped_page two_page_state = Ret tt s'
              /\ eax (tf s') = MAP_FAILED)
  /\ (exists s', sys_mmap toy_externals 3 NULL two_page_state = Ret tt s'
                 /\ eax (tf s') = MAP_FAILED)
  /\ (exists s', sys_mmap toy_externals 3 (mapped_page + 1) two_page_state = Ret tt s'
                 /\ eax (tf s') = MAP_FAILED)
  /\ (exists s', sys_mmap toy_externals 3 PHYS_BASE two_page_state = Ret tt s'
                 /\ eax (tf s') = MAP_FAILED)
  /\ (exists s', sys_mmap toy_externals 3 stack_page two_page_state = Ret tt s'
                 /\ eax (tf s') = MAP_FAILED
                 /\ cur_supp_pt s' = cur_supp_pt two_page_state
                 /\ world s' = world two_page_state).
Proof.
  assert (H1 : filesys_lock two_page_state <> Some (cur two_page_state)) by discriminate.
  assert (Hfd : forall file,
            fd_table_get_file toy_externals 3 (world two_page_state) = Some file ->
            file = 100).
  { intros file Hfile. vm_compute in Hfile. injection Hfile as <-. reflexivity. }
  split; [|split; [|split; [|split]]].
  - destruct (sys_mmap_refuses toy_externals two_page_state 7 mapped_page H1)
      as (s' & Hrun & Heax & _).
    + intros file Hfile. discriminate Hfile.
    + exists s'. split; [exact Hrun|exact Heax].
  - destruct (sys_mmap_refuses toy_externals two_page_state 3 NULL H1)
      as (s' & Hrun & Heax & _).
    + intros file _. right. left. reflexivity.
    + exists s'. split; [exact Hrun|exact Heax].
  - destruct (sys_mmap_refuses toy_externals two_page_state 3 (mapped_page + 1) H1)
      as (s' & Hrun & Heax & _).
    + intros file _. right. right. left. vm_compute. discriminate.
    + exists s'. split; [exact Hrun|exact Heax].
  - destruct (sys_mmap_refuses toy_externals two_page_state 3 PHYS_BASE H1)
      as (s' & Hrun & Heax & _).
    + intros file _. right. right. right. left. reflexivity.
    + exists s'. split; [exact Hrun|exact Heax].
  - destruct (sys_mmap_refuses toy_externals two_page_state 3 stack_page H1)
      as (s' & Hrun & Heax & Hspt & Hworld).
    + intros file Hfile. rewrite (Hfd file Hfile). right. right. right. right.
      vm_compute. reflexivity.
    + exists s'. split; [exact Hrun|]. split; [exact Heax|]. split; [exact Hspt|exact Hworld].
Defined.

Lemma syscall_handler_decodes_witness :
  exists args s1,
    syscall_handler toy_externals (syscall_state SYS_FILESIZE 9)
    = (dispatch toy_externals SYS_FILESIZE args ;;;
       (fun s' => unpin_args 2 (esp (tf s')) s')) s1
    /\ args = [9].
Proof.
  assert (H1 : PGSIZE <= esp (tf (syscall_state SYS_FILESIZE 9)))
    by (vm_compute; discriminate).
  assert (H2 : esp (tf (syscall_state SYS_FILESIZE 9)) + 4 * (1 + 1) <= PHYS_BASE)
    by (vm_compute; discriminate).
  assert (H3 : forall key,
            range_page (esp (tf (syscall_state SYS_FILESIZE 9))) (4 * (1 + 1)) key ->
            exists pte, cur_supp_pt (syscall_state SYS_FILESIZE 9) !! key = Some pte
                        /\ loc pte = InFrame).
  { intros key (Hk1 & Hk2).
    change (pg_round_down (esp (tf (syscall_state SYS_FILESIZE 9)))) with stack_page in Hk2.
    change (esp (tf (syscall_state SYS_FILESIZE 9)) + 4 * (1 + 1)) with 0xbffffe08 in Hk2.
    destruct (two_pages stack_page key) as [-> | ->];
      [reflexivity|exact Hk1|unfold stack_page, PGSIZE, PGBITS in *; lia| |].
    - eexists. split; reflexivity.
    - unfold stack_page, PGSIZE, PGBITS in Hk2. lia. }
  assert (H4 : buffer_resident_b (syscall_state SYS_FILESIZE 9)
                 (esp (tf (syscall_state SYS_FILESIZE 9))) (4 * (1 + 1)) = true)
    by (vm_compute; reflexivity).
  assert (H5 : load_user_word (esp (tf (syscall_state SYS_FILESIZE 9)))
                 (syscall_state SYS_FILESIZE 9)
               = Ret SYS_FILESIZE (syscall_state SYS_FILESIZE 9))
    by (vm_compute; reflexivity).
  assert (H6 : syscall_arg_num !! Z.to_nat SYS_FILESIZE = Some 1) by reflexivity.
  destruct (syscall_handler_decodes toy_externals (syscall_state SYS_FILESIZE 9)
              SYS_FILESIZE 1 H1 H2 H3 (proj1 (buffer_resident_b_sound _ _ _ H4)) H5 H6)
    as (args & s1 & Hrun & Hlen & Hwords & _).
  exists args, s1. split; [exact Hrun|].
  destruct args as [|a [|b args]]; cbn in Hlen; try lia.
  specialize (Hwords 0%nat ltac:(cbn; lia)). cbn [nth] in Hwords.
  vm_compute in Hwords. injection Hwords as <-. reflexivity.
Defined.

Lemma unimplemented_call_exits_witness :
  exists s',
    syscall_handler toy_externals (syscall_state SYS_CHDIR 0) = Exit s'
    /\ exit_status (thread_current s') = -1.
Proof.
  assert (H1 : PGSIZE <= esp (tf (syscall_state SYS_CHDIR 0)))
    by (vm_compute; discriminate).
  assert (H2 : esp (tf (syscall_state SYS_CHDIR 0)) + 4 * (1 + 1) <= PHYS_BASE)
    by (vm_compute; discriminate).
  assert (H3 : forall key,
            range_page (esp (tf (syscall_state SYS_CHDIR 0))) (4 * (1 + 1)) key ->
            exists pte, cur_supp_pt (syscall_state SYS_CHDIR 0) !! key = Some pte
                        /\ loc pte = InFrame).
  { intros key (Hk1 & Hk2).
    change (pg_round_down (esp (tf (syscall_state SYS_CHDIR 0)))) with stack_page in Hk2.
    change (esp (tf (syscall_state SYS_CHDIR 0)) + 4 * (1 + 1)) with 0xbffffe08 in Hk2.
    destruct (two_pages stack_page key) as [-> | ->];
      [reflexivity|exact Hk1|unfold stack_page, PGSIZE, PGBITS in *; lia| |].
    - eexists. split; reflexivity.
    - unfold stack_page, PGSIZE, PGBITS in Hk2. lia. }
  assert (H4 : buffer_resident_b (syscall_state SYS_CHDIR 0)
                 (esp (tf (syscall_state SYS_CHDIR 0))) (4 * (1 + 1)) = true)
    by (vm_compute; reflexivity).
  assert (H5 : load_user_word (esp (tf (syscall_state SYS_CHDIR 0)))
                 (syscall_state SYS_CHDIR 0)
               = Ret SYS_CHDIR (syscall_state SYS_CHDIR 0))
    by (vm_compute; reflexivity).
  assert (H6 : syscall_arg_num !! Z.to_nat SYS_CHDIR = Some 1) by reflexivity.
  assert (H7 : SYS_MUNMAP < SYS_CHDIR) by reflexivity.
  destruct (unimplemented_call_exits toy_externals (syscall_state SYS_CHDIR 0)
              SYS_CHDIR 1 H1 H2 H3 (proj1 (buffer_resident_b_sound _ _ _ H4)) H5 H6 H7)
    as (s' & Hrun & Hstatus & _).
  exists s'. split; [exact Hrun|exact Hstatus].
Defined.

(** The word at the stack pointer of [syscall_state 7 9], read as a string:
    the byte 7 and the 0 byte after it. *)
Lemma stack_string : c_string (syscall_state 7 9) 0xbffffe00 1.
Proof.
  split.
  - intros i Hi. assert (i = 0) by lia. subst i. exists 7. split; [reflexivity|discriminate].
  - reflexivity.
Qed.

Lemma stack_string_pages (key : Z) :
  range_page 0xbffffe00 (1 + 1) key ->
  exists pte, cur_supp_pt (syscall_state 7 9) !! key = Some pte /\ loc pte = InFrame
              /\ pinned pte = false.
Proof.
  intros (Hk1 & Hk2). change (pg_round_down 0xbffffe00) with stack_page in Hk2.
  destruct (two_pages stack_page key) as [-> | ->];
    [reflexivity|exact Hk1|unfold stack_page, PGSIZE, PGBITS in *; lia| |].
  - eexists. split; [reflexivity|split; reflexivity].
  - unfold stack_page, PGSIZE, PGBITS in Hk2. lia.
Qed.

Lemma ensure_valid_string_pins_witness :
  exists s',
    ensure_valid_string toy_externals 0xbffffe00 (syscall_state 7 9) = Ret true s'
    /\ cur_supp_pt s' !! stack_page
       = Some (pte_set_pinned true (resident_pte stack_page frame0)).
Proof.
  assert (H1 : PGSIZE <= 0xbffffe00) by (vm_compute; discriminate).
  assert (H2 : 0 <= 1) by lia.
  assert (H3 : 0xbffffe00 + 1 < PHYS_BASE) by reflexivity.
  assert (H4 : forall key, range_page 0xbffffe00 (1 + 1) key ->
                 exists pte, cur_supp_pt (syscall_state 7 9) !! key = Some pte
                             /\ loc pte = InFrame).
  { intros key Hk. destruct (stack_string_pages key Hk) as (pte & Hpte & Hloc & _).
    exists pte. split; assumption. }
  destruct (ensure_valid_string_pins toy_externals 0xbffffe00 1 (syscall_state 7 9)
                                     H1 H2 H3 stack_string H4) as (s' & Hrun & Hin & _).
  exists s'. split; [exact Hrun|]. apply Hin; [|reflexivity].
  split; [reflexivity|]. vm_compute. split; [discriminate|reflexivity].
Defined.

Lemma string_validate_then_unpin_witness :
  exists s1 s2,
    ensure_valid_string toy_externals 0xbffffe00 (syscall_state 7 9) = Ret true s1
    /\ unpin_string 0xbffffe00 s1 = Ret true s2
    /\ cur_supp_pt s2 = cur_supp_pt (syscall_state 7 9).
Proof.
  assert (H1 : PGSIZE <= 0xbffffe00) by (vm_compute; discriminate).
  assert (H2 : 0 <= 1) by lia.
  assert (H3 : 0xbffffe00 + 1 < PHYS_BASE) by reflexivity.
  destruct (string_validate_then_unpin toy_externals 0xbffffe00 1 (syscall_state 7 9)
              H1 H2 H3 stack_string stack_string_pages) as (s1 & s2 & Hv & Hu & Hspt & _).
  exists s1, s2. split; [exact Hv|]. split; [exact Hu|exact Hspt].
Defined.

Lemma file_name_handlers_witness :
  exists s',
    sys_open toy_externals 0xbffffe00 (syscall_state 7 9) = Ret tt s'
    /\ eax (tf s') = wrap32 (-1)
    /\ filesys_lock s' = None
    /\ cur_supp_pt s' = cur_supp_pt (syscall_state 7 9)
    /\ klog s' = klog (syscall_state 7 9)
                 ++ [EvLockAcquire 1; EvCall "fd_table_open"; EvLockRelease 1].
Proof.
  assert (H1 : PGSIZE <= 0xbffffe00) by (vm_compute; discriminate).
  assert (H2 : 0 <= 1) by lia.
  assert (H3 : 0xbffffe00 + 1 < PHYS_BASE) by reflexivity.
  assert (H4 : filesys_lock (syscall_state 7 9) <> Some (cur (syscall_state 7 9)))
    by discriminate.
  destruct (file_name_handlers toy_externals 0xbffffe00 1 0 (syscall_state 7 9)
              H1 H2 H3 stack_string stack_string_pages H4)
    as ((s' & view & Hrun & _ & Heax & _ & Hspt & _ & Hlock & Hlog) & _).
  exists s'. split; [exact Hrun|]. split; [exact Heax|]. split; [exact Hlock|].
  split; [exact Hspt|exact Hlog].
Defined.

Lemma bad_file_name_exits_witness :
  exited (sys_open toy_externals NULL two_page_state) = true.
Proof.
  assert (H : NULL = NULL \/ PHYS_BASE <= NULL) by (left; reflexivity).
  destruct (bad_file_name_exits toy_externals NULL 0 two_page_state H) as (Hopen & _).
  rewrite Hopen. reflexivity.
Defined.
